(** * ElecTram: hybrid-electric powertrain and mission simulation

    A shallow embedding of [meow/powertrain.py] and [meow/mission.py].

    Numbers.  Floats are embedded as exact rationals ([Qc], canonical
    fractions, so that Python's [==] is Leibniz equality): rounding,
    overflow and underflow are not modelled, and a statement that
    equates two computations carried out in different orders holds in
    the code up to rounding only.  Two kinds of float reach the code and
    they differ on a zero divisor, so the embedding keeps them apart:
    - a Python [float] (or [int]): [x / 0] raises [ZeroDivisionError];
    - a [numpy.float64] (everything computed from [np.sqrt] in the climb
      segment): [0 / 0] is [nan] and [x / 0] is an infinity, both with a
      warning only, and the run goes on.  [nan] and the two infinities
      are values of the embedding, with the arithmetic and the
      comparisons of IEEE 754.  The sign of a zero is not modelled: a
      zero divisor counts as [+0.0], so that [x / 0] has the sign of
      [x]. *)

From Stdlib Require Import QArith Qcanon.
From stdpp Require Import gmap strings list fin_maps.

Open Scope Qc_scope.

(** ** Exceptions and the two monads of the embedding *)

Inductive exn : Set :=
| ZeroDivisionError  (* raised by a Python float division *)
| Dangling.          (* a reference that is not in the store: no Python
                        counterpart, references are always live *)

Inductive exc (A : Type) : Type :=
| Ok (a : A)
| Raise (e : exn).
Arguments Ok {A} a.
Arguments Raise {A} e.

#[export] Instance exc_ret : MRet exc := λ A a, Ok a.
#[export] Instance exc_bind : MBind exc := λ A B k m,
  match m with
  | Ok a => k a
  | Raise e => Raise e
  end.

(** Code that mutates an object threads the object (or the store)
    through; an exception leaves the mutations made so far in place. *)
Definition M (S A : Type) : Type := S → exc A * S.

#[export] Instance M_ret {S} : MRet (M S) := λ A a s, (Ok a, s).
#[export] Instance M_bind {S} : MBind (M S) := λ A B k m s,
  match m s with
  | (Ok a, s') => k a s'
  | (Raise e, s') => (Raise e, s')
  end.

Definition lift {S A} (r : exc A) : M S A := λ s, (r, s).
Definition reads {S A} (f : S → exc A) : M S A := λ s, (f s, s).
Definition modify {S} (f : S → S) : M S unit := λ s, (Ok tt, f s).

(** ** Numbers *)

(** The values of a numpy.float64. *)
Inductive np64 : Type :=
| Finite (q : Qc)
| Infinite (negative : bool)
| Nan.

Inductive num : Type :=
| PyF (q : Qc)      (* Python float *)
| NpF (x : np64).   (* numpy.float64 *)

(** A float as numpy sees it when it meets a numpy.float64. *)
Definition np (a : num) : np64 :=
  match a with
  | PyF q => Finite q
  | NpF x => x
  end.

(** The value of a finite float. *)
Definition val (a : num) : option Qc :=
  match np a with
  | Finite q => Some q
  | _ => None
  end.

Coercion PyF : Qc >-> num.

(** A decimal constant as a canonical rational. *)
Abbreviation dec := Q2Qc.

(** A decimal literal of the source. *)
Definition lit (q : Q) : num := PyF (Q2Qc q).

Definition is_neg (q : Qc) : bool := bool_decide (q < 0).

(** IEEE 754 on finite values, infinities and nan. *)
Definition np_add (a b : np64) : np64 :=
  match a, b with
  | Nan, _ | _, Nan => Nan
  | Finite x, Finite y => Finite (x + y)
  | Infinite s, Finite _ => Infinite s
  | Finite _, Infinite s => Infinite s
  | Infinite s, Infinite s' => if Bool.eqb s s' then Infinite s else Nan
  end.

Definition np_sub (a b : np64) : np64 :=
  match a, b with
  | Nan, _ | _, Nan => Nan
  | Finite x, Finite y => Finite (x - y)
  | Infinite s, Finite _ => Infinite s
  | Finite _, Infinite s => Infinite (negb s)
  | Infinite s, Infinite s' => if Bool.eqb s s' then Nan else Infinite s
  end.

Definition np_mul (a b : np64) : np64 :=
  match a, b with
  | Nan, _ | _, Nan => Nan
  | Finite x, Finite y => Finite (x * y)
  | Infinite s, Finite y | Finite y, Infinite s =>
      if decide (y = 0) then Nan else Infinite (xorb s (is_neg y))
  | Infinite s, Infinite s' => Infinite (xorb s s')
  end.

(** A zero divisor counts as [+0.0]: the quotient of a non-zero number
    by zero is the infinity with the sign of the number. *)
Definition np_div (a b : np64) : np64 :=
  match a, b with
  | Nan, _ | _, Nan => Nan
  | Finite x, Finite y =>
      if decide (y = 0)
      then (if decide (x = 0) then Nan else Infinite (is_neg x))
      else Finite (x / y)
  | Finite _, Infinite _ => Finite 0
  | Infinite s, Finite y => Infinite (xorb s (is_neg y))
  | Infinite _, Infinite _ => Nan
  end.

(** [a > b]; a comparison with nan is false. *)
Definition np_gt (a b : np64) : bool :=
  match a, b with
  | Finite x, Finite y => bool_decide (y < x)
  | Infinite false, Finite _ => true
  | Infinite false, Infinite true => true
  | Finite _, Infinite true => true
  | _, _ => false
  end.

(** An operation on two Python floats is Python's; as soon as one
    operand is a numpy.float64 it is numpy's and so is the result. *)
Definition arith (py : Qc → Qc → Qc) (npo : np64 → np64 → np64)
    (a b : num) : num :=
  match a, b with
  | PyF x, PyF y => PyF (py x y)
  | _, _ => NpF (npo (np a) (np b))
  end.

Definition nadd : num → num → num := arith Qcplus np_add.
Definition nsub : num → num → num := arith Qcminus np_sub.
Definition nmul : num → num → num := arith Qcmult np_mul.

Definition ndiv (a b : num) : exc num :=
  match a, b with
  | PyF x, PyF y =>
      if decide (y = 0) then Raise ZeroDivisionError else Ok (PyF (x / y))
  | _, _ => Ok (NpF (np_div (np a) (np b)))
  end.

Definition ngt (a b : num) : bool := np_gt (np a) (np b).

Arguments arith : simpl never.
Arguments nadd : simpl never.
Arguments nsub : simpl never.
Arguments nmul : simpl never.
Arguments ndiv : simpl never.
Arguments lit : simpl never.

Declare Scope num_scope.
Delimit Scope num_scope with num.
Bind Scope num_scope with num.
Infix "+" := nadd : num_scope.
Infix "-" := nsub : num_scope.
Infix "*" := nmul : num_scope.
Notation "a **2" := (nmul a a) (at level 1, format "a **2") : num_scope.
Infix "/?" := ndiv (at level 40, left associativity).

(** A finite float that is zero. *)
Definition is_zero (a : num) : Prop := val a = Some 0.

(** The float is a numpy.float64. *)
Definition is_np (a : num) : Prop :=
  match a with
  | NpF _ => True
  | PyF _ => False
  end.

(** ** powertrain.py *)

Open Scope num_scope.

(** The constants come from the configuration file: Python floats. *)
Record TechnologySpec : Type := {
  GT_specific_power_kW_kg : Qc;
  GT_efficiency : Qc;
  GT_BSFC_kg_kWh : Qc;
  EM_specific_power_kW_kg : Qc;
  EM_efficiency : Qc;
  GEN_specific_power_kW_kg : Qc;
  GEN_efficiency : Qc;
  battery_specific_energy_Wh_kg : Qc;
  battery_specific_power_kW_kg : Qc;
  battery_SOC_margin : Qc;
  battery_DOD : Qc;
  prop_efficiency : Qc
}.

(** The four subclasses of [PowertrainBase]. *)
Inductive Architecture : Set :=
| Conventional | ParallelHybrid | SerialHybrid | FullyElectric.

(** The attributes set by [PowertrainBase.__init__]. *)
Record Powertrain : Type := {
  arch : Architecture;
  tech : TechnologySpec;
  m_GT_lb : num;
  m_EM_lb : num;
  m_GEN_lb : num;
  m_battery_lb : num;
  m_fuel_lb : num;
  P_GT_kW : num;
  P_EM_kW : num;
  P_GEN_kW : num
}.

Definition PowertrainBase_init (a : Architecture) (t : TechnologySpec) : Powertrain :=
  {| arch := a; tech := t;
     m_GT_lb := lit 0.0; m_EM_lb := lit 0.0; m_GEN_lb := lit 0.0;
     m_battery_lb := lit 0.0; m_fuel_lb := lit 0.0;
     P_GT_kW := lit 0.0; P_EM_kW := lit 0.0; P_GEN_kW := lit 0.0 |}.

Definition set_m_GT_lb (v : num) (s : Powertrain) : Powertrain :=
  {| arch := arch s; tech := tech s; m_GT_lb := v; m_EM_lb := m_EM_lb s;
     m_GEN_lb := m_GEN_lb s; m_battery_lb := m_battery_lb s;
     m_fuel_lb := m_fuel_lb s; P_GT_kW := P_GT_kW s; P_EM_kW := P_EM_kW s;
     P_GEN_kW := P_GEN_kW s |}.
Definition set_m_EM_lb (v : num) (s : Powertrain) : Powertrain :=
  {| arch := arch s; tech := tech s; m_GT_lb := m_GT_lb s; m_EM_lb := v;
     m_GEN_lb := m_GEN_lb s; m_battery_lb := m_battery_lb s;
     m_fuel_lb := m_fuel_lb s; P_GT_kW := P_GT_kW s; P_EM_kW := P_EM_kW s;
     P_GEN_kW := P_GEN_kW s |}.
Definition set_m_GEN_lb (v : num) (s : Powertrain) : Powertrain :=
  {| arch := arch s; tech := tech s; m_GT_lb := m_GT_lb s; m_EM_lb := m_EM_lb s;
     m_GEN_lb := v; m_battery_lb := m_battery_lb s;
     m_fuel_lb := m_fuel_lb s; P_GT_kW := P_GT_kW s; P_EM_kW := P_EM_kW s;
     P_GEN_kW := P_GEN_kW s |}.
Definition set_P_GT_kW (v : num) (s : Powertrain) : Powertrain :=
  {| arch := arch s; tech := tech s; m_GT_lb := m_GT_lb s; m_EM_lb := m_EM_lb s;
     m_GEN_lb := m_GEN_lb s; m_battery_lb := m_battery_lb s;
     m_fuel_lb := m_fuel_lb s; P_GT_kW := v; P_EM_kW := P_EM_kW s;
     P_GEN_kW := P_GEN_kW s |}.
Definition set_P_EM_kW (v : num) (s : Powertrain) : Powertrain :=
  {| arch := arch s; tech := tech s; m_GT_lb := m_GT_lb s; m_EM_lb := m_EM_lb s;
     m_GEN_lb := m_GEN_lb s; m_battery_lb := m_battery_lb s;
     m_fuel_lb := m_fuel_lb s; P_GT_kW := P_GT_kW s; P_EM_kW := v;
     P_GEN_kW := P_GEN_kW s |}.
Definition set_P_GEN_kW (v : num) (s : Powertrain) : Powertrain :=
  {| arch := arch s; tech := tech s; m_GT_lb := m_GT_lb s; m_EM_lb := m_EM_lb s;
     m_GEN_lb := m_GEN_lb s; m_battery_lb := m_battery_lb s;
     m_fuel_lb := m_fuel_lb s; P_GT_kW := P_GT_kW s; P_EM_kW := P_EM_kW s;
     P_GEN_kW := v |}.

(** The dict returned by [get_power_split]: its four keys are fixed. *)
Module Split.
Record t : Type := mk {
  P_GT_kW : num;
  P_EM_kW : num;
  fuel_rate_kg_s : num;
  battery_power_W : num
}.
End Split.

Module ConventionalPowertrain.
Definition size_components (P_shaft_kW Hp : num) : M Powertrain unit :=
  modify (set_P_GT_kW P_shaft_kW) ;;
  x ← reads (λ self, P_shaft_kW /? GT_specific_power_kW_kg (tech self));
  modify (set_m_GT_lb (x * lit 2.20462)) ;;
  modify (set_m_EM_lb (lit 0.0)) ;;
  modify (set_m_GEN_lb (lit 0.0)).

Definition get_power_split (self : Powertrain) (P_required_kW Hp : num) : exc Split.t :=
  fuel_rate_kg_s ← (P_required_kW * GT_BSFC_kg_kWh (tech self)) /? lit 3600;
  mret {| Split.P_GT_kW := P_required_kW;
          Split.P_EM_kW := lit 0.0;
          Split.fuel_rate_kg_s := fuel_rate_kg_s;
          Split.battery_power_W := lit 0.0 |}.
End ConventionalPowertrain.

Module ParallelHybridPowertrain.
Definition size_components (P_shaft_kW Hp : num) : M Powertrain unit :=
  modify (set_P_EM_kW (P_shaft_kW * Hp)) ;;
  modify (set_P_GT_kW (P_shaft_kW * (lit 1 - Hp))) ;;
  x ← reads (λ self, P_EM_kW self /? EM_specific_power_kW_kg (tech self));
  modify (set_m_EM_lb (x * lit 2.20462)) ;;
  y ← reads (λ self, P_GT_kW self /? GT_specific_power_kW_kg (tech self));
  modify (set_m_GT_lb (y * lit 2.20462)) ;;
  modify (set_m_GEN_lb (lit 0.0)).

Definition get_power_split (self : Powertrain) (P_required_kW Hp : num) : exc Split.t :=
  let P_GT_kW := P_required_kW * (lit 1 - Hp) in
  let P_EM_kW := P_required_kW * Hp in
  fuel_rate_kg_s ← (P_GT_kW * GT_BSFC_kg_kWh (tech self)) /? lit 3600;
  battery_power_W ← (P_EM_kW * lit 1000) /? EM_efficiency (tech self);
  mret {| Split.P_GT_kW := P_GT_kW;
          Split.P_EM_kW := P_EM_kW;
          Split.fuel_rate_kg_s := fuel_rate_kg_s;
          Split.battery_power_W := battery_power_W |}.
End ParallelHybridPowertrain.

Module SerialHybridPowertrain.
Definition size_components (P_shaft_kW Hp : num) : M Powertrain unit :=
  modify (set_P_EM_kW P_shaft_kW) ;;
  P_electric_kW ← reads (λ self, P_shaft_kW /? EM_efficiency (tech self));
  modify (set_P_GEN_kW (P_electric_kW * (lit 1 - Hp))) ;;
  g ← reads (λ self, P_GEN_kW self /? GEN_efficiency (tech self));
  modify (set_P_GT_kW g) ;;
  x ← reads (λ self, P_EM_kW self /? EM_specific_power_kW_kg (tech self));
  modify (set_m_EM_lb (x * lit 2.20462)) ;;
  y ← reads (λ self, P_GEN_kW self /? GEN_specific_power_kW_kg (tech self));
  modify (set_m_GEN_lb (y * lit 2.20462)) ;;
  z ← reads (λ self, P_GT_kW self /? GT_specific_power_kW_kg (tech self));
  modify (set_m_GT_lb (z * lit 2.20462)).

Definition get_power_split (self : Powertrain) (P_required_kW Hp : num) : exc Split.t :=
  let P_EM_kW := P_required_kW in
  P_electric_kW ← P_EM_kW /? EM_efficiency (tech self);
  let P_battery_kW := P_electric_kW * Hp in
  let P_generator_kW := P_electric_kW * (lit 1 - Hp) in
  P_GT_kW ← P_generator_kW /? GEN_efficiency (tech self);
  fuel_rate_kg_s ← (P_GT_kW * GT_BSFC_kg_kWh (tech self)) /? lit 3600;
  let battery_power_W := P_battery_kW * lit 1000 in
  mret {| Split.P_GT_kW := P_GT_kW;
          Split.P_EM_kW := P_EM_kW;
          Split.fuel_rate_kg_s := fuel_rate_kg_s;
          Split.battery_power_W := battery_power_W |}.
End SerialHybridPowertrain.

Module FullyElectricPowertrain.
Definition size_components (P_shaft_kW Hp : num) : M Powertrain unit :=
  modify (set_P_EM_kW P_shaft_kW) ;;
  x ← reads (λ self, P_shaft_kW /? EM_specific_power_kW_kg (tech self));
  modify (set_m_EM_lb (x * lit 2.20462)) ;;
  modify (set_m_GT_lb (lit 0.0)) ;;
  modify (set_m_GEN_lb (lit 0.0)).

Definition get_power_split (self : Powertrain) (P_required_kW Hp : num) : exc Split.t :=
  battery_power_W ← (P_required_kW * lit 1000) /? EM_efficiency (tech self);
  mret {| Split.P_GT_kW := lit 0.0;
          Split.P_EM_kW := P_required_kW;
          Split.fuel_rate_kg_s := lit 0.0;
          Split.battery_power_W := battery_power_W |}.
End FullyElectricPowertrain.

(** Method dispatch on the class of the object. *)
Definition size_components (P_shaft_kW Hp : num) : M Powertrain unit :=
  λ self,
    match arch self with
    | Conventional => ConventionalPowertrain.size_components P_shaft_kW Hp self
    | ParallelHybrid => ParallelHybridPowertrain.size_components P_shaft_kW Hp self
    | SerialHybrid => SerialHybridPowertrain.size_components P_shaft_kW Hp self
    | FullyElectric => FullyElectricPowertrain.size_components P_shaft_kW Hp self
    end.

Definition get_power_split (self : Powertrain) (P_required_kW Hp : num) : exc Split.t :=
  match arch self with
  | Conventional => ConventionalPowertrain.get_power_split self P_required_kW Hp
  | ParallelHybrid => ParallelHybridPowertrain.get_power_split self P_required_kW Hp
  | SerialHybrid => SerialHybridPowertrain.get_power_split self P_required_kW Hp
  | FullyElectric => FullyElectricPowertrain.get_power_split self P_required_kW Hp
  end.

Definition get_total_propulsion_weight (self : Powertrain) : num :=
  m_GT_lb self + m_EM_lb self + m_GEN_lb self.

(** ** mission.py *)

Record MissionSegment : Type := {
  name : string;
  altitude_start_ft : num;
  altitude_end_ft : num;
  Hp : num;
  (* results *)
  time_sec : num;
  fuel_lb : num;
  battery_Wh : num;
  distance_nm : num
}.

(** The dataclass constructor with its four positional arguments; the
    result attributes take their default 0.0. *)
Definition MissionSegment_init (n : string) (a0 a1 hp : num) : MissionSegment :=
  {| name := n; altitude_start_ft := a0; altitude_end_ft := a1; Hp := hp;
     time_sec := lit 0.0; fuel_lb := lit 0.0; battery_Wh := lit 0.0;
     distance_nm := lit 0.0 |}.

Definition set_time_sec (v : num) (s : MissionSegment) : MissionSegment :=
  {| name := name s; altitude_start_ft := altitude_start_ft s;
     altitude_end_ft := altitude_end_ft s; Hp := Hp s;
     time_sec := v; fuel_lb := fuel_lb s; battery_Wh := battery_Wh s;
     distance_nm := distance_nm s |}.
Definition set_fuel_lb (v : num) (s : MissionSegment) : MissionSegment :=
  {| name := name s; altitude_start_ft := altitude_start_ft s;
     altitude_end_ft := altitude_end_ft s; Hp := Hp s;
     time_sec := time_sec s; fuel_lb := v; battery_Wh := battery_Wh s;
     distance_nm := distance_nm s |}.
Definition set_battery_Wh (v : num) (s : MissionSegment) : MissionSegment :=
  {| name := name s; altitude_start_ft := altitude_start_ft s;
     altitude_end_ft := altitude_end_ft s; Hp := Hp s;
     time_sec := time_sec s; fuel_lb := fuel_lb s; battery_Wh := v;
     distance_nm := distance_nm s |}.
Definition set_distance_nm (v : num) (s : MissionSegment) : MissionSegment :=
  {| name := name s; altitude_start_ft := altitude_start_ft s;
     altitude_end_ft := altitude_end_ft s; Hp := Hp s;
     time_sec := time_sec s; fuel_lb := fuel_lb s; battery_Wh := battery_Wh s;
     distance_nm := v |}.

(** Segments are objects: a list of segments is a list of references
    into a store, and the same object may occur in it more than once. *)
Abbreviation loc := positive.
Abbreviation store := (gmap loc MissionSegment).

Definition new (seg : MissionSegment) : M store loc :=
  λ h, let l := fresh (dom h) in (Ok l, <[l := seg]> h).

Definition getattr {A} (l : loc) (f : MissionSegment → A) : M store A :=
  λ h, match h !! l with
       | Some seg => (Ok (f seg), h)
       | None => (Raise Dangling, h)
       end.

Definition setattr (l : loc) (upd : MissionSegment → MissionSegment) : M store unit :=
  λ h, match h !! l with
       | Some seg => (Ok tt, <[l := upd seg]> h)
       | None => (Raise Dangling, h)
       end.

(** The attributes of the aircraft ([self]) that mission.py reads; the
    numbers are configuration values, Python floats. *)
Module Aircraft.
Record t : Type := mk {
  cruise_alt_ft : Qc;
  cruise_speed_kts : Qc;
  range_nm : Qc;
  CD0 : Qc;
  K1 : Qc;
  CLmax_clean : Qc;
  tech : TechnologySpec;
  powertrain : Powertrain
}.
End Aircraft.
Import Aircraft (cruise_alt_ft, cruise_speed_kts, range_nm, CD0, K1,
                 CLmax_clean, powertrain).

Definition create_mission (self : Aircraft.t) (hybridization_profile : gmap string num)
    : M store (list loc) :=
  let get k := default (lit 0.0) (hybridization_profile !! k) in
  s1 ← new (MissionSegment_init "takeoff" (lit 0) (lit 35) (get "takeoff"));
  s2 ← new (MissionSegment_init "climb" (lit 35) (cruise_alt_ft self) (get "climb"));
  s3 ← new (MissionSegment_init "cruise" (cruise_alt_ft self) (cruise_alt_ft self)
              (get "cruise"));
  s4 ← new (MissionSegment_init "descent" (cruise_alt_ft self) (lit 450) (get "descent"));
  s5 ← new (MissionSegment_init "loiter" (lit 450) (lit 450) (get "loiter"));
  s6 ← new (MissionSegment_init "landing" (lit 450) (lit 0) (get "landing"));
  mret [s1; s2; s3; s4; s5; s6].

(** The six names, in the order [create_mission] builds the segments. *)
Definition segment_names : list string :=
  ["takeoff"; "climb"; "cruise"; "descent"; "loiter"; "landing"].

Module MissionResult.
Record t : Type := mk {
  total_fuel_lb : num;
  total_battery_Wh : num;
  total_time_sec : num;
  segments : list loc
}.
End MissionResult.

Section Simulation.

(** Two functions of other libraries: [np.sqrt] on a non-negative
    argument, and the standard-atmosphere lookup [atmosisa], of which
    the third component of the result is the density. *)
Variable sqrt : Qc → Qc.
Variable atmosisa : num → num * num * num * num.

(** [np.sqrt] returns a numpy.float64; nan on a negative argument. *)
Definition np_sqrt (a : num) : num :=
  NpF match np a with
      | Finite x => if decide (x < 0)%Qc then Nan else Finite (sqrt x)
      | Infinite false => Infinite false
      | Infinite true | Nan => Nan
      end.

Definition simulate_cruise_segment (self : Aircraft.t) (segment : loc) (W_lb S_ft2 : num)
    : M store (num * num * num) :=
  (* Atmospheric conditions *)
  alt ← getattr segment altitude_start_ft;
  let h_m := alt * lit 0.3048 in
  let '(_, _, rho_kg_m3, _) := atmosisa h_m in
  rho_slug_ft3 ← lift (rho_kg_m3 /? lit 515.379);
  (* Cruise speed *)
  let V_fps := cruise_speed_kts self * lit 1.688 in
  (* L/D calculation *)
  CL ← lift (W_lb /? (lit 0.5 * rho_slug_ft3 * V_fps**2 * S_ft2));
  let CD := CD0 self + K1 self * CL**2 in
  let D_lb := lit 0.5 * rho_slug_ft3 * V_fps**2 * S_ft2 * CD in
  (* Power required *)
  P_shaft_HP ← lift (D_lb * V_fps /? (lit 550 * prop_efficiency (Aircraft.tech self)));
  let P_shaft_kW := P_shaft_HP * lit 0.7457 in
  (* Power split *)
  hp ← getattr segment Hp;
  power_split ← lift (get_power_split (powertrain self) P_shaft_kW hp);
  (* Cruise time *)
  let distance_ft := range_nm self * lit 6076.12 in
  time_sec ← lift (distance_ft /? V_fps);
  (* Consumption *)
  let fuel_lb := Split.fuel_rate_kg_s power_split * time_sec * lit 2.20462 in
  battery_Wh ← lift ((Split.battery_power_W power_split * time_sec) /? lit 3600);
  setattr segment (set_distance_nm (range_nm self)) ;;
  mret (time_sec, fuel_lb, battery_Wh).

Definition simulate_climb_segment (self : Aircraft.t) (segment : loc) (W_lb S_ft2 : num)
    : M store (num * num * num) :=
  (* Average weight during climb *)
  let W_avg := W_lb * lit 0.99 in
  (* Climb at 1.3 * V_stall *)
  let rho_sl := lit 0.002377 in
  x ← lift (lit 2 * W_avg /? (rho_sl * S_ft2 * CLmax_clean self));
  let V_stall_fps := np_sqrt x in
  let V_climb_fps := lit 1.3 * V_stall_fps in
  (* Climb gradient (5%) *)
  let gamma := lit 0.05 in
  let ROC_fps := V_climb_fps * gamma in
  (* L/D in climb *)
  CL_climb ← lift (W_avg /? (lit 0.5 * rho_sl * V_climb_fps**2 * S_ft2));
  let CD_climb := CD0 self + K1 self * CL_climb**2 in
  (* Thrust required *)
  l_over_d ← lift (CL_climb /? CD_climb);
  d_over_l ← lift (lit 1 /? l_over_d);
  let T_lb := W_avg * (d_over_l + gamma) in
  P_shaft_HP ← lift (T_lb * V_climb_fps /? (lit 550 * prop_efficiency (Aircraft.tech self)));
  let P_shaft_kW := P_shaft_HP * lit 0.7457 in
  (* Power split *)
  hp ← getattr segment Hp;
  power_split ← lift (get_power_split (powertrain self) P_shaft_kW hp);
  (* Climb time *)
  alt_end ← getattr segment altitude_end_ft;
  alt_start ← getattr segment altitude_start_ft;
  let alt_change_ft := alt_end - alt_start in
  time_sec ← (if ngt ROC_fps (lit 0) then lift (alt_change_ft /? ROC_fps)
              else mret (lit 600));
  (* Consumption *)
  let fuel_lb := Split.fuel_rate_kg_s power_split * time_sec * lit 2.20462 in
  battery_Wh ← lift ((Split.battery_power_W power_split * time_sec) /? lit 3600);
  mret (time_sec, fuel_lb, battery_Wh).

Definition simulate_descent_segment (self : Aircraft.t) (segment : loc) (W_lb S_ft2 : num)
    : M store (num * num * num) :=
  let time_sec := lit 480 in
  let fuel_lb := lit 0.02 * W_lb in
  let battery_Wh := lit 100 in
  mret (time_sec, fuel_lb, battery_Wh).

Definition simulate_simple_segment (self : Aircraft.t) (segment : loc) (W_lb S_ft2 : num)
    : M store (num * num * num) :=
  let time_sec := lit 180 in
  let fuel_lb := lit 0.01 * W_lb in
  let battery_Wh := lit 200 in
  mret (time_sec, fuel_lb, battery_Wh).

(** The dispatch on the name at the head of the loop body. *)
Definition simulate_segment (self : Aircraft.t) (segment : loc) (W_current_lb S_wing_ft2 : num)
    : M store (num * num * num) :=
  n ← getattr segment name;
  if String.eqb n "cruise" then
    simulate_cruise_segment self segment W_current_lb S_wing_ft2
  else if String.eqb n "climb" then
    simulate_climb_segment self segment W_current_lb S_wing_ft2
  else if String.eqb n "descent" then
    simulate_descent_segment self segment W_current_lb S_wing_ft2
  else
    simulate_simple_segment self segment W_current_lb S_wing_ft2.

(** The local variables of [simulate_mission] that the loop updates. *)
Record locals : Type := {
  W_current_lb : num;
  acc_fuel_lb : num;
  acc_battery_Wh : num;
  acc_time_sec : num
}.

Fixpoint mission_loop (self : Aircraft.t) (S_wing_ft2 : num) (segs : list loc) (v : locals)
    : M store locals :=
  match segs with
  | [] => mret v
  | segment :: rest =>
      '(t, f, b) ← simulate_segment self segment (W_current_lb v) S_wing_ft2;
      (* Update weight *)
      let W := W_current_lb v - f in
      (* Store results *)
      setattr segment (set_time_sec t) ;;
      setattr segment (set_fuel_lb f) ;;
      setattr segment (set_battery_Wh b) ;;
      (* Accumulate *)
      mission_loop self S_wing_ft2 rest
        {| W_current_lb := W;
           acc_fuel_lb := acc_fuel_lb v + f;
           acc_battery_Wh := acc_battery_Wh v + b;
           acc_time_sec := acc_time_sec v + t |}
  end.

Definition simulate_mission (self : Aircraft.t) (segments : list loc)
    (TOGW_lb S_wing_ft2 : num) : M store MissionResult.t :=
  v ← mission_loop self S_wing_ft2 segments
        {| W_current_lb := TOGW_lb; acc_fuel_lb := lit 0.0;
           acc_battery_Wh := lit 0.0; acc_time_sec := lit 0.0 |};
  mret {| MissionResult.total_fuel_lb := acc_fuel_lb v;
          MissionResult.total_battery_Wh := acc_battery_Wh v;
          MissionResult.total_time_sec := acc_time_sec v;
          MissionResult.segments := segments |}.

End Simulation.

Close Scope num_scope.

(** ** Example data

    Constants that are exact binary fractions, so that the examples
    evaluate in Python to the very numbers computed here. *)

Definition tech_ex : TechnologySpec :=
  {| GT_specific_power_kW_kg := dec 4; GT_efficiency := dec 0.25;
     GT_BSFC_kg_kWh := dec 1; EM_specific_power_kW_kg := dec 8;
     EM_efficiency := dec 0.5; GEN_specific_power_kW_kg := dec 8;
     GEN_efficiency := dec 0.5; battery_specific_energy_Wh_kg := dec 250;
     battery_specific_power_kW_kg := dec 1; battery_SOC_margin := dec 0.25;
     battery_DOD := dec 0.75; prop_efficiency := dec 0.75 |}.

Definition aircraft_ex : Aircraft.t :=
  {| Aircraft.cruise_alt_ft := dec 10000;
     Aircraft.cruise_speed_kts := dec 250;
     Aircraft.range_nm := dec 350;
     Aircraft.CD0 := dec 0.025;
     Aircraft.K1 := dec 0.05;
     Aircraft.CLmax_clean := dec 1.5;
     Aircraft.tech := tech_ex;
     Aircraft.powertrain := PowertrainBase_init ParallelHybrid tech_ex |}.

(** A six-segment mission as [create_mission] builds it, with the
    segments at the references 1 to 6. *)
Definition takeoff_ex : MissionSegment :=
  MissionSegment_init "takeoff" (lit 0) (lit 35) (lit 0.5).
Definition climb_ex : MissionSegment :=
  MissionSegment_init "climb" (lit 35) (lit 10000) (lit 0.25).
Definition cruise_ex : MissionSegment :=
  MissionSegment_init "cruise" (lit 10000) (lit 10000) (lit 0.0).
Definition descent_ex : MissionSegment :=
  MissionSegment_init "descent" (lit 10000) (lit 450) (lit 0.0).
Definition loiter_ex : MissionSegment :=
  MissionSegment_init "loiter" (lit 450) (lit 450) (lit 0.0).
Definition landing_ex : MissionSegment :=
  MissionSegment_init "landing" (lit 450) (lit 0) (lit 0.25).

Definition store_ex : store :=
  <[1%positive := takeoff_ex]> (<[2%positive := climb_ex]>
  (<[3%positive := cruise_ex]> (<[4%positive := descent_ex]>
  (<[5%positive := loiter_ex]> (<[6%positive := landing_ex]> ∅))))).

(** A rational square root, exact on the squares of rationals and
    rounded down elsewhere: sqrt (n/d) = sqrt (n*d) / d. *)
Definition sqrt_floor (q : Qc) : Qc :=
  Q2Qc (Z.sqrt (Qnum q * Z.pos (Qden q)) # Qden q).

(** An atmosphere with the sea-level values at every altitude
    (temperature, pressure, density, speed of sound). *)
Definition atmosisa_ex (h_m : num) : num * num * num * num :=
  (lit 288.15, lit 101325, lit 1.225, lit 340.3).

(** ** Reading the results of a mission *)

(** The values of an attribute on the segments of a list, in list order
    (a segment that occurs twice is read twice). *)
Definition attrs (f : MissionSegment → num) (h : store) (ls : list loc)
    : list num :=
  omap (λ l, f <$> h !! l) ls.

Arguments attrs : simpl never.

(** Python's [sum]: the left-to-right sum from 0.0. *)
Definition total (xs : list num) : num := fold_left nadd xs (lit 0.0).

(** A computation that works on one segment object only: its outcome and
    what it leaves in that object depend on that object alone, and it
    writes nowhere else. *)
Definition local_at {A} (l : loc) (m : M store A) : Prop :=
  ∀ h1 h2 : store, h1 !! l = h2 !! l →
    fst (m h1) = fst (m h2) ∧
    snd (m h1) !! l = snd (m h2) !! l ∧
    (∀ l', l' ≠ l → snd (m h1) !! l' = h1 !! l') ∧
    (is_Some (h1 !! l) → is_Some (snd (m h1) !! l)).

(** ** The lift-augmentation model *)

(** Modelled from the spec: [get_lift_augmentation_factor] of the
    aircraft class, which lives in aircraft.py and is not among the
    sources; test_blown_lift.py only calls it.  Section 4.1: 1.0 if
    [active] is false or distributed-electric high lift is disabled, else
    [1.0 + (max_factor - 1.0) * span_fraction]. *)
Definition augmentation_factor
    (dep_enabled active : bool) (span_fraction max_factor : Qc) : Qc :=
  if negb active || negb dep_enabled then 1
  else 1 + (max_factor - 1) * span_fraction.

(** Modelled from the spec: the aircraft of section 3 with its
    blown-lift configuration (enabled flag, span-coverage fraction,
    maximum augmentation factor), under the attribute names that
    test_blown_lift.py reads; aircraft.py, which declares them, is not
    among the sources, and mission.py reads none of them. *)
Module SpecAircraft.
Record t : Type := mk {
  base : Aircraft.t;
  dep_enabled : bool;
  dep_blown_span_fraction : Qc;
  dep_lift_aug_max : Qc
}.
End SpecAircraft.

(** Modelled from the spec: the mission segment of section 3, which
    carries a per-segment blown-lift-active flag ([seg.blown_lift_active]
    in test_blown_lift.py); the MissionSegment of mission.py has no such
    attribute. *)
Module SpecSegment.
Record t : Type := mk {
  base : MissionSegment;
  blown_lift_active : bool
}.
End SpecSegment.

(** Modelled from the spec: the lift-augmentation factor of an aircraft
    for a segment, from the configuration of the aircraft and the flag
    of the segment. *)
Definition get_lift_augmentation_factor (a : SpecAircraft.t)
    (blown_lift_active : bool) : Qc :=
  augmentation_factor (SpecAircraft.dep_enabled a) blown_lift_active
    (SpecAircraft.dep_blown_span_fraction a) (SpecAircraft.dep_lift_aug_max a).

(** Modelled from the spec: the stall speed of the climb segment
    (section 4.3), computed from sea-level density, the average weight,
    the wing area and the augmented or un-augmented CLmax_clean depending
    on whether blown lift is active for this segment. *)
Definition spec_climb_V_stall (sqrt : Qc → Qc) (a : SpecAircraft.t)
    (seg : SpecSegment.t) (W_lb S_ft2 : Qc) : Qc :=
  let CLmax_clean := Aircraft.CLmax_clean (SpecAircraft.base a) in
  let CLmax :=
    if SpecSegment.blown_lift_active seg
    then CLmax_clean
         * get_lift_augmentation_factor a (SpecSegment.blown_lift_active seg)
    else CLmax_clean in
  sqrt (dec 2 * (W_lb * dec 0.99) / (dec 0.002377 * S_ft2 * CLmax)).



(** An aircraft with a zero drag polar. *)
Definition aircraft_nodrag : Aircraft.t :=
  {| Aircraft.cruise_alt_ft := dec 10000;
     Aircraft.cruise_speed_kts := dec 250;
     Aircraft.range_nm := dec 350;
     Aircraft.CD0 := dec 0;
     Aircraft.K1 := dec 0;
     Aircraft.CLmax_clean := dec 1.5;
     Aircraft.tech := tech_ex;
     Aircraft.powertrain := PowertrainBase_init ParallelHybrid tech_ex |}.

(** ** [TechnologySpec.from_config]

    The configuration object is built by config_loader, which is not
    among the sources: its [get], called with a path of two or three
    keys, is a parameter here, and the values it returns are the numbers
    of the configuration file. *)
Definition from_config (cfg_get : list string → Qc) : TechnologySpec :=
  {| GT_specific_power_kW_kg :=
       cfg_get ["hybrid_system"; "gas_turbine"; "specific_power_kW_kg"];
     GT_efficiency := cfg_get ["hybrid_system"; "gas_turbine"; "efficiency"];
     GT_BSFC_kg_kWh := cfg_get ["hybrid_system"; "gas_turbine"; "BSFC_kg_kWh"];
     EM_specific_power_kW_kg :=
       cfg_get ["hybrid_system"; "electric_motor"; "specific_power_kW_kg"];
     EM_efficiency := cfg_get ["hybrid_system"; "electric_motor"; "efficiency"];
     GEN_specific_power_kW_kg :=
       cfg_get ["hybrid_system"; "generator"; "specific_power_kW_kg"];
     GEN_efficiency := cfg_get ["hybrid_system"; "generator"; "efficiency"];
     battery_specific_energy_Wh_kg :=
       cfg_get ["hybrid_system"; "battery"; "specific_energy_Wh_kg"];
     battery_specific_power_kW_kg :=
       cfg_get ["hybrid_system"; "battery"; "specific_power_kW_kg"];
     battery_SOC_margin :=
       cfg_get ["hybrid_system"; "battery"; "SOC_margin_percent"] / dec 100;
     battery_DOD :=
       cfg_get ["hybrid_system"; "battery"; "depth_of_discharge_percent"]
       / dec 100;
     prop_efficiency := cfg_get ["propulsion"; "propeller_efficiency"] |}.

(** ** Inputs and results of a segment *)

(** The attributes that describe a segment, as opposed to the results
    that a simulation stores on it. *)
Definition same_inputs (s s' : MissionSegment) : Prop :=
  name s = name s' ∧
  altitude_start_ft s = altitude_start_ft s' ∧
  altitude_end_ft s = altitude_end_ft s' ∧
  Hp s = Hp s'.

(** Two stores that hold the same segments up to their results. *)
Definition same_missions (h1 h2 : store) : Prop :=
  ∀ l, option_Forall2 same_inputs (h1 !! l) (h2 !! l).

(** What the simulation of a segment returns: the outcome of the run on
    a store that holds the segment alone. *)
Definition segment_result (sqrt : Qc → Qc)
    (atmosisa : num → num * num * num * num)
    (self : Aircraft.t) (seg : MissionSegment) (W_lb S_ft2 : num)
    : exc (num * num * num) :=
  fst (simulate_segment sqrt atmosisa self 1%positive W_lb S_ft2
         {[1%positive := seg]}).

(** The segment object after its turn of the loop of [simulate_mission]:
    the cruise simulation has set the distance, the loop the three
    results. *)
Definition segment_after (self : Aircraft.t) (seg : MissionSegment)
    (r : num * num * num) : MissionSegment :=
  let '(t, f, b) := r in
  set_battery_Wh b (set_fuel_lb f (set_time_sec t
    (if String.eqb (name seg) "cruise"
     then set_distance_nm (Aircraft.range_nm self) seg else seg))).

(** A count as a float. *)
Definition Qc_of_nat (n : nat) : Qc := Q2Qc (inject_Z (Z.of_nat n)).

(** ** More example data *)

(** A configuration whose specific powers are all zero. *)
Definition tech_zero : TechnologySpec :=
  {| GT_specific_power_kW_kg := dec 0; GT_efficiency := dec 0.25;
     GT_BSFC_kg_kWh := dec 1; EM_specific_power_kW_kg := dec 0;
     EM_efficiency := dec 0.5; GEN_specific_power_kW_kg := dec 0;
     GEN_efficiency := dec 0.5; battery_specific_energy_Wh_kg := dec 250;
     battery_specific_power_kW_kg := dec 1; battery_SOC_margin := dec 0.25;
     battery_DOD := dec 0.75; prop_efficiency := dec 0.75 |}.

(** An aircraft with a zero cruise speed. *)
Definition aircraft_grounded : Aircraft.t :=
  {| Aircraft.cruise_alt_ft := dec 10000;
     Aircraft.cruise_speed_kts := dec 0;
     Aircraft.range_nm := dec 350;
     Aircraft.CD0 := dec 0.025;
     Aircraft.K1 := dec 0.05;
     Aircraft.CLmax_clean := dec 1.5;
     Aircraft.tech := tech_ex;
     Aircraft.powertrain := PowertrainBase_init ParallelHybrid tech_ex |}.

(** A segment with a name that [simulate_mission] does not know, in the
    example store at the reference 7. *)
Definition taxi_ex : MissionSegment :=
  MissionSegment_init "taxi" (lit 0) (lit 0) (lit 0.5).

Definition store_taxi_ex : store := <[7%positive := taxi_ex]> store_ex.

(** * Properties *)

(** ** Arithmetic of finite floats *)

Lemma val_lit (q : Q) : val (lit q) = Some (Q2Qc q).
Proof. reflexivity. Qed.

Lemma val_arith (py : Qc → Qc → Qc) (npo : np64 → np64 → np64)
    (a b : num) (x y : Qc) :
  (∀ u v, npo (Finite u) (Finite v) = Finite (py u v)) →
  val a = Some x → val b = Some y → val (arith py npo a b) = Some (py x y).
Proof.
  intros Hfin.
  destruct a as [p|[p|s|]], b as [q|[q|s'|]]; unfold arith, val; simpl;
    intros Ha Hb; inversion Ha; inversion Hb; rewrite ?Hfin; reflexivity.
Qed.

Lemma val_nadd (a b : num) (x y : Qc) :
  val a = Some x → val b = Some y → val (a + b)%num = Some (x + y).
Proof. apply val_arith. reflexivity. Qed.

Lemma val_nsub (a b : num) (x y : Qc) :
  val a = Some x → val b = Some y → val (a - b)%num = Some (x - y).
Proof. apply val_arith. reflexivity. Qed.

Lemma val_nmul (a b : num) (x y : Qc) :
  val a = Some x → val b = Some y → val (a * b)%num = Some (x * y).
Proof. apply val_arith. reflexivity. Qed.

(** A division of finite floats by a non-zero divisor returns, whichever
    kind of float the operands are. *)
Lemma ndiv_finite (a b : num) (x y : Qc) :
  val a = Some x → val b = Some y → y ≠ 0 →
  ∃ c, a /? b = Ok c ∧ val c = Some (x / y).
Proof.
  intros Ha Hb Hy.
  destruct a as [p|[p|s|]], b as [q|[q|s'|]]; unfold ndiv, val in *;
    simpl in *; inversion Ha; inversion Hb; subst;
    destruct (decide (y = 0)) as [E|_]; try (exfalso; exact (Hy E));
    eexists; split; reflexivity.
Qed.

(** nan absorbs: an operation with a nan operand is nan, no exception. *)
Lemma arith_nan_l (py : Qc → Qc → Qc) (npo : np64 → np64 → np64) (b : num) :
  (∀ v, npo Nan v = Nan) → arith py npo (NpF Nan) b = NpF Nan.
Proof. intros H. unfold arith. simpl. rewrite H. reflexivity. Qed.

Lemma arith_nan_r (py : Qc → Qc → Qc) (npo : np64 → np64 → np64) (a : num) :
  (∀ u, npo u Nan = Nan) → arith py npo a (NpF Nan) = NpF Nan.
Proof. intros H. unfold arith. destruct a; simpl; rewrite H; reflexivity. Qed.

Lemma nadd_nan_l (b : num) : (NpF Nan + b)%num = NpF Nan.
Proof. apply arith_nan_l. reflexivity. Qed.

Lemma nadd_nan_r (a : num) : (a + NpF Nan)%num = NpF Nan.
Proof. apply arith_nan_r. intros [| |]; reflexivity. Qed.

Lemma nsub_nan_l (b : num) : (NpF Nan - b)%num = NpF Nan.
Proof. apply arith_nan_l. reflexivity. Qed.

Lemma nsub_nan_r (a : num) : (a - NpF Nan)%num = NpF Nan.
Proof. apply arith_nan_r. intros [| |]; reflexivity. Qed.

Lemma nmul_nan_l (b : num) : (NpF Nan * b)%num = NpF Nan.
Proof. apply arith_nan_l. reflexivity. Qed.

Lemma nmul_nan_r (a : num) : (a * NpF Nan)%num = NpF Nan.
Proof. apply arith_nan_r. intros [| |]; reflexivity. Qed.

Lemma ndiv_nan_l (b : num) : NpF Nan /? b = Ok (NpF Nan).
Proof. reflexivity. Qed.

Lemma ndiv_nan_r (a : num) : a /? NpF Nan = Ok (NpF Nan).
Proof. destruct a as [p|[p|s|]]; reflexivity. Qed.

(** Python floats: a zero divisor raises. *)
Lemma ndiv_PyF_zero (x : Qc) : PyF x /? PyF 0 = Raise ZeroDivisionError.
Proof. reflexivity. Qed.

(** A literal of the source that is not zero. *)
Lemma Q2Qc_nonzero (q : Q) : Qeq_bool q 0 = false → Q2Qc q ≠ 0.
Proof.
  intros Hq E. apply (f_equal this) in E. simpl in E.
  assert (Hz : (q == 0)%Q).
  { rewrite <- (Qred_correct q). rewrite E. reflexivity. }
  apply Qeq_bool_iff in Hz. congruence.
Qed.

Lemma Qcmult_nonzero (x y : Qc) : x ≠ 0 → y ≠ 0 → x * y ≠ 0.
Proof. intros Hx Hy E. destruct (Qcmult_integral _ _ E); contradiction. Qed.

Create HintDb num discriminated.
#[export] Hint Resolve val_lit val_nadd val_nsub val_nmul : num.
#[export] Hint Extern 1 (val (PyF _) = Some _) => reflexivity : num.

Lemma Qcdiv_nonzero (x y : Qc) : x ≠ 0 → y ≠ 0 → x / y ≠ 0.
Proof.
  intros Hx Hy E. apply Hx.
  rewrite <- (Qcmult_div_r x y Hy), E. ring.
Qed.

Ltac nonzero :=
  solve [ repeat first [ assumption
                       | apply Q2Qc_nonzero; reflexivity
                       | apply Qcdiv_nonzero
                       | apply Qcmult_nonzero ] ].

(** One step of a computation: a division whose operands are finite and
    whose divisor is not zero is replaced by its result. *)
Ltac div_step :=
  match goal with
  | |- context [?a /? ?b] =>
      let c := fresh "c" in
      let Hc := fresh "Hc" in
      let E := fresh "E" in
      edestruct (ndiv_finite a b) as (c & E & Hc);
      [ solve [eauto 10 with num] | solve [eauto 10 with num]
      | nonzero | rewrite E; clear E; cbn [mbind exc_bind mret exc_ret] ]
  end.

Lemma Qc_eq_this (x y : Qc) : (this x == this y)%Q → x = y.
Proof. apply Qc_is_canon. Qed.

(** Closed equalities and disequalities of rationals, by evaluation. *)
Ltac qc_eval := apply Qc_eq_this; vm_compute; reflexivity.
Ltac qc_neq :=
  let E := fresh in
  intros E; apply (f_equal this) in E; vm_compute in E; discriminate E.
Ltac qc_order := vm_compute; first [reflexivity | discriminate].

(** A closed goal [val c = Some q], from what is known of [c]. *)
Ltac val_by tac :=
  match goal with
  | |- val _ = Some _ =>
      let x := fresh "x" in
      evar (x : Qc); transitivity (Some x); subst x;
      [ solve [eauto 10 with num] | f_equal; tac ]
  | |- Some _ = Some _ => f_equal; tac
  end.
Ltac val_eval := val_by qc_eval.
(** The same for an open goal, by the field laws. *)
Ltac val_field :=
  val_by ltac:(first [ match goal with |- Q2Qc _ = Q2Qc _ => qc_eval end
                     | solve [field; auto]
                     | solve [unfold Qcdiv; ring] ]).

(** A division by a finite non-zero divisor returns, whatever the
    dividend is. *)
Lemma ndiv_nonzero_returns (a b : num) (y : Qc) :
  val b = Some y → y ≠ 0 → ∃ c, a /? b = Ok c.
Proof.
  intros Hb Hy. unfold ndiv, val in *.
  destruct a as [p|[p|s|]], b as [q|[q|s'|]]; simpl in *;
    inversion Hb; subst;
    try (destruct (decide (y = 0)); [contradiction|]);
    eexists; reflexivity.
Qed.

(** An operation with a numpy operand gives a numpy float. *)
Lemma is_np_arith_l (py : Qc → Qc → Qc) (npo : np64 → np64 → np64)
    (a b : num) :
  is_np a → is_np (arith py npo a b).
Proof. destruct a, b; simpl; tauto. Qed.

Lemma is_np_arith_r (py : Qc → Qc → Qc) (npo : np64 → np64 → np64)
    (a b : num) :
  is_np b → is_np (arith py npo a b).
Proof. destruct a, b; simpl; tauto. Qed.

Lemma is_np_nmul_l (a b : num) : is_np a → is_np (a * b)%num.
Proof. apply is_np_arith_l. Qed.

Lemma is_np_nmul_r (a b : num) : is_np b → is_np (a * b)%num.
Proof. apply is_np_arith_r. Qed.

Lemma ndiv_zero_by_np_zero (a b : num) :
  val a = Some 0 → val b = Some 0 → is_np b → a /? b = Ok (NpF Nan).
Proof.
  intros Ha Hb Hnp. unfold ndiv, val in *.
  destruct a as [p|[p|s|]], b as [q|[q|s'|]]; simpl in *;
    inversion Ha; inversion Hb; subst; try contradiction; reflexivity.
Qed.

Lemma val_np (a : num) (x : Qc) : val a = Some x → np a = Finite x.
Proof.
  unfold val. destruct (np a); intros E; inversion E; reflexivity.
Qed.

Lemma ngt_false (a b : num) (x y : Qc) :
  val a = Some x → val b = Some y → ¬ (y < x) → ngt a b = false.
Proof.
  intros Ha Hb Hxy. unfold ngt. rewrite (val_np a x Ha), (val_np b y Hb).
  apply bool_decide_eq_false. exact Hxy.
Qed.

Lemma ngt_true (a b : num) (x y : Qc) :
  val a = Some x → val b = Some y → y < x → ngt a b = true.
Proof.
  intros Ha Hb Hxy. unfold ngt. rewrite (val_np a x Ha), (val_np b y Hb).
  apply bool_decide_eq_true. exact Hxy.
Qed.

Lemma ngt_nan (b : num) : ngt (NpF Nan) b = false.
Proof. reflexivity. Qed.

(** Where numpy divides by zero: a non-zero number over zero is an
    infinity with the sign of the number, a number over an infinity is
    zero, and an infinity times zero or minus itself is nan; between two
    Python floats the division raises. *)
Example division_by_zero (x : Qc) :
  x ≠ 0 →
  PyF x /? NpF (Finite 0) = Ok (NpF (Infinite (is_neg x))) ∧
  NpF (Finite x) /? PyF 0 = Ok (NpF (Infinite (is_neg x))) ∧
  PyF x /? NpF (Infinite false) = Ok (NpF (Finite 0)) ∧
  (NpF (Infinite false) * PyF 0)%num = NpF Nan ∧
  (NpF (Infinite false) - NpF (Infinite false))%num = NpF Nan ∧
  ngt (NpF (Infinite false)) (PyF x) = true ∧
  PyF x /? PyF 0 = Raise ZeroDivisionError.
Proof.
  intros Hx. unfold ndiv, nmul, nsub, arith. simpl.
  destruct (decide (x = 0)); [contradiction|]. repeat split.
Qed.

(** Propagation of nan through a computation. *)
Ltac nan_step :=
  repeat first [ rewrite nadd_nan_l | rewrite nadd_nan_r
               | rewrite nsub_nan_l | rewrite nsub_nan_r
               | rewrite nmul_nan_l | rewrite nmul_nan_r
               | rewrite ndiv_nan_l | rewrite ndiv_nan_r
               | progress cbn [mbind exc_bind mret exc_ret] ].

(** ** The powertrain variants *)

Ltac run_split :=
  unfold ConventionalPowertrain.get_power_split,
    ParallelHybridPowertrain.get_power_split,
    SerialHybridPowertrain.get_power_split,
    FullyElectricPowertrain.get_power_split;
  repeat div_step.

Ltac run_sizing :=
  unfold ConventionalPowertrain.size_components,
    ParallelHybridPowertrain.size_components,
    SerialHybridPowertrain.size_components,
    FullyElectricPowertrain.size_components;
  unfold mbind, M_bind, modify, reads; simpl;
  repeat div_step.

(** Every variant returns a finite split for finite arguments, whatever
    their sign or size, as long as the two efficiencies are not zero. *)
Lemma get_power_split_finite (self : Powertrain) (P Hp : num) (p h : Qc) :
  val P = Some p → val Hp = Some h →
  EM_efficiency (tech self) ≠ 0 → GEN_efficiency (tech self) ≠ 0 →
  ∃ r gt em fr bp,
    get_power_split self P Hp = Ok r ∧
    val (Split.P_GT_kW r) = Some gt ∧ val (Split.P_EM_kW r) = Some em ∧
    val (Split.fuel_rate_kg_s r) = Some fr ∧
    val (Split.battery_power_W r) = Some bp ∧
    (p = 0 → gt = 0 ∧ em = 0 ∧ fr = 0 ∧ bp = 0).
Proof.
  intros HP HHp Hem Hgen. unfold get_power_split.
  destruct (arch self); run_split;
    do 5 eexists; (split; [reflexivity|]); simpl;
    (split; [solve [eauto 10 with num]|]);
    (split; [solve [eauto 10 with num]|]);
    (split; [solve [eauto 10 with num]|]);
    (split; [solve [eauto 10 with num]|]);
    intros ->; repeat split; try qc_eval; try (unfold Qcdiv; ring).
Qed.

Lemma size_components_returns (self : Powertrain) (P Hp : num) (p h : Qc) :
  val P = Some p → val Hp = Some h →
  EM_efficiency (tech self) ≠ 0 → GEN_efficiency (tech self) ≠ 0 →
  EM_specific_power_kW_kg (tech self) ≠ 0 →
  GEN_specific_power_kW_kg (tech self) ≠ 0 →
  GT_specific_power_kW_kg (tech self) ≠ 0 →
  ∃ self', size_components P Hp self = (Ok tt, self').
Proof.
  intros HP HHp Hem Hgen Hems Hgens Hgts. unfold size_components.
  destruct (arch self); run_sizing; eexists; reflexivity.
Qed.

(** A nan power goes through every variant without an exception. *)
Lemma get_power_split_nan (self : Powertrain) (Hp : num) :
  ∃ r, get_power_split self (NpF Nan) Hp = Ok r.
Proof.
  unfold get_power_split.
  destruct (arch self);
    unfold ConventionalPowertrain.get_power_split,
      ParallelHybridPowertrain.get_power_split,
      SerialHybridPowertrain.get_power_split,
      FullyElectricPowertrain.get_power_split;
    nan_step; eexists; reflexivity.
Qed.

(** The one failure of the module: a zero constant under a Python
    float, here the motor efficiency of the parallel hybrid. *)
Lemma parallel_zero_efficiency_raises (self : Powertrain) (p h : Qc) :
  arch self = ParallelHybrid → EM_efficiency (tech self) = 0 →
  get_power_split self (PyF p) (PyF h) = Raise ZeroDivisionError.
Proof.
  intros Harch Hzero. unfold get_power_split. rewrite Harch.
  unfold ParallelHybridPowertrain.get_power_split. rewrite Hzero.
  div_step.
  change (PyF p * PyF h * lit 1000)%num with (PyF (p * h * dec 1000)).
  rewrite ndiv_PyF_zero. reflexivity.
Qed.

(** An out-of-range ratio and a negative power are computed with like
    any other: the parallel hybrid at [Hp = 1.0000001] returns a split
    with a negative turbine power. *)
Example parallel_split_above_one :
  ∃ r, get_power_split (PowertrainBase_init ParallelHybrid tech_ex)
         (lit 100) (lit 1.0000001) = Ok r ∧
       val (Split.P_GT_kW r) = Some (dec (-0.00001)) ∧
       val (Split.P_EM_kW r) = Some (dec 100.00001).
Proof.
  unfold get_power_split; simpl. run_split.
  eexists. split; [reflexivity|]. simpl.
  split; val_eval.
Qed.

Example serial_sizing_negative_power :
  ∃ self', size_components (lit (-8)) (lit 2)
             (PowertrainBase_init SerialHybrid tech_ex) = (Ok tt, self') ∧
           val (P_EM_kW self') = Some (dec (-8)) ∧
           val (P_GT_kW self') = Some (dec 32).
Proof.
  unfold size_components; simpl. run_sizing.
  eexists. split; [reflexivity|]. simpl.
  split; val_eval.
Qed.

(** C1, as stated, fails: no variant rejects a hybridization ratio
    outside [0,1] or a power that is not positive. *)
Lemma no_validation_of_ratio_or_power :
  ¬ (∀ (self : Powertrain) (P Hp : Qc),
       Hp < 0 ∨ 1 < Hp ∨ P < 0 →
       (∀ r, get_power_split self P Hp ≠ Ok r) ∧
       (∀ self', size_components P Hp self ≠ (Ok tt, self'))).
Proof.
  intros H.
  destruct parallel_split_above_one as (r & Hr & _).
  refine (proj1 (H (PowertrainBase_init ParallelHybrid tech_ex)
                   (dec 100) (dec 1.0000001) _) r Hr).
  right; left. qc_order.
Qed.

(** C1 (amended): no variant of the powertrain validates its arguments.
    For every finite hybridization ratio, inside [0,1] or not (so 1.0 is
    accepted), and every finite power, positive or not,
    [get_power_split] returns a split and [size_components] completes,
    provided the efficiencies and specific powers they divide by are not
    zero; a required power of exactly 0 gives the all-zero split. *)
Theorem powertrain_accepts_every_ratio_and_power
    (self : Powertrain) (P Hp : num) (p h : Qc) :
  val P = Some p → val Hp = Some h →
  EM_efficiency (tech self) ≠ 0 → GEN_efficiency (tech self) ≠ 0 →
  EM_specific_power_kW_kg (tech self) ≠ 0 →
  GEN_specific_power_kW_kg (tech self) ≠ 0 →
  GT_specific_power_kW_kg (tech self) ≠ 0 →
  (∃ r, get_power_split self P Hp = Ok r ∧
        (p = 0 → is_zero (Split.P_GT_kW r) ∧ is_zero (Split.P_EM_kW r) ∧
                 is_zero (Split.fuel_rate_kg_s r) ∧
                 is_zero (Split.battery_power_W r))) ∧
  (∃ self', size_components P Hp self = (Ok tt, self')).
Proof.
  intros HP HHp Hem Hgen Hems Hgens Hgts. split.
  - destruct (get_power_split_finite self P Hp p h HP HHp Hem Hgen)
      as (r & gt & em & fr & bp & Hr & Hgt & Hem' & Hfr & Hbp & Hz).
    exists r. split; [exact Hr|]. intros Hp0.
    destruct (Hz Hp0) as (-> & -> & -> & ->). unfold is_zero. auto.
  - eapply size_components_returns; eauto.
Qed.

Lemma powertrain_accepts_every_ratio_and_power_witness :
  (∃ r, get_power_split (PowertrainBase_init SerialHybrid tech_ex)
          (lit 0) (lit 1.5) = Ok r ∧
        (dec 0 = 0 → is_zero (Split.P_GT_kW r) ∧ is_zero (Split.P_EM_kW r) ∧
                 is_zero (Split.fuel_rate_kg_s r) ∧
                 is_zero (Split.battery_power_W r))) ∧
  (∃ self', size_components (lit 0) (lit 1.5)
              (PowertrainBase_init SerialHybrid tech_ex) = (Ok tt, self')).
Proof.
  apply (powertrain_accepts_every_ratio_and_power
           (PowertrainBase_init SerialHybrid tech_ex) (lit 0) (lit 1.5)
           (dec 0) (dec 1.5));
    first [reflexivity | apply Q2Qc_nonzero; reflexivity].
Defined.

(** The serial hybrid at [Hp = 0] burns more than the conventional
    powertrain: with motor and generator efficiencies of 0.5 and a BSFC
    of 1 kg/kWh, 3600 kW cost 4 kg/s against 1 kg/s. *)
Example serial_fuel_rate_at_zero :
  ∃ rs rc,
    get_power_split (PowertrainBase_init SerialHybrid tech_ex)
      (lit 3600) (lit 0) = Ok rs ∧
    get_power_split (PowertrainBase_init Conventional tech_ex)
      (lit 3600) (lit 0.0) = Ok rc ∧
    val (Split.fuel_rate_kg_s rs) = Some (dec 4) ∧
    val (Split.fuel_rate_kg_s rc) = Some (dec 1) ∧
    val (Split.battery_power_W rs) = Some (dec 0).
Proof.
  unfold get_power_split; simpl. run_split.
  do 2 eexists. do 2 (split; [reflexivity|]). simpl.
  repeat split; val_eval.
Qed.

(** C2, as stated, fails for the serial hybrid: at [Hp = 0] its fuel
    rate is not the conventional one. *)
Lemma serial_hybrid_at_zero_is_not_conventional :
  ¬ (∀ (t : TechnologySpec) (P : Qc), 0 < P →
       ∀ rs rc,
         get_power_split (PowertrainBase_init SerialHybrid t) P (lit 0) = Ok rs →
         get_power_split (PowertrainBase_init Conventional t) P (lit 0.0) = Ok rc →
         val (Split.fuel_rate_kg_s rs) = val (Split.fuel_rate_kg_s rc)).
Proof.
  intros H.
  destruct serial_fuel_rate_at_zero as (rs & rc & Hs & Hc & Hfs & Hfc & _).
  assert (Hlt : 0 < dec 3600) by qc_order.
  specialize (H tech_ex (dec 3600) Hlt rs rc Hs Hc).
  rewrite Hfs, Hfc in H. injection H as H. discriminate H.
Qed.

(** A quotient by a non-zero number gives the number back exactly when
    the number is zero or the divisor is one. *)
Lemma Qcdiv_fixed (x y : Qc) : y ≠ 0 → (x / y = x ↔ x = 0 ∨ y = 1).
Proof.
  intros Hy. split.
  - intros E.
    assert (Hxy : x / y * y = x) by (field; exact Hy).
    rewrite E in Hxy.
    assert (H : x * (y - 1) = 0).
    { replace (x * (y - 1)) with (x * y - x) by ring. rewrite Hxy. ring. }
    destruct (Qcmult_integral _ _ H) as [Hx|Hy1]; [left; exact Hx|].
    right. rewrite <- (Qcplus_0_l 1), <- Hy1. ring.
  - intros [-> | ->]; field; exact Hy.
Qed.

(** C2 (amended): with floats taken as exact rationals, for every
    required power P > 0 and non-zero motor and generator efficiencies:
    at [Hp = 0] the parallel hybrid has the fuel rate of the conventional
    powertrain, P*BSFC/3600; the serial hybrid has the fuel rate
    ((P/EM_efficiency)*(1-0)/GEN_efficiency)*BSFC/3600, which is the
    conventional fuel rate divided by EM_efficiency*GEN_efficiency, and
    is the conventional fuel rate exactly when BSFC is zero or that
    product is 1; both hybrids draw no battery power.  At [Hp = 1] the
    fuel rate of both is zero. *)
Theorem hybrid_split_at_the_extremes
    (conv par ser : Powertrain) (P : num) (p : Qc) :
  arch conv = Conventional → arch par = ParallelHybrid →
  arch ser = SerialHybrid →
  tech par = tech conv → tech ser = tech conv →
  val P = Some p → 0 < p →
  EM_efficiency (tech conv) ≠ 0 → GEN_efficiency (tech conv) ≠ 0 →
  ∃ rc rp0 rs0 rp1 rs1 fc,
    get_power_split conv P (lit 0.0) = Ok rc ∧
    get_power_split par P (lit 0) = Ok rp0 ∧
    get_power_split ser P (lit 0) = Ok rs0 ∧
    get_power_split par P (lit 1) = Ok rp1 ∧
    get_power_split ser P (lit 1) = Ok rs1 ∧
    val (Split.fuel_rate_kg_s rc) = Some fc ∧
    val (Split.fuel_rate_kg_s rp0) = Some fc ∧
    val (Split.fuel_rate_kg_s rs0)
      = Some (fc / (EM_efficiency (tech conv) * GEN_efficiency (tech conv))) ∧
    is_zero (Split.battery_power_W rc) ∧
    is_zero (Split.battery_power_W rp0) ∧
    is_zero (Split.battery_power_W rs0) ∧
    is_zero (Split.fuel_rate_kg_s rp1) ∧
    is_zero (Split.fuel_rate_kg_s rs1) ∧
    (* the values in the order in which the code computes them *)
    fc = p * GT_BSFC_kg_kWh (tech conv) / dec 3600 ∧
    val (Split.fuel_rate_kg_s rs0)
      = Some (p / EM_efficiency (tech conv) * (1 - dec 0)
              / GEN_efficiency (tech conv)
              * GT_BSFC_kg_kWh (tech conv) / dec 3600) ∧
    (* when the serial hybrid burns what the conventional powertrain does *)
    (val (Split.fuel_rate_kg_s rs0) = val (Split.fuel_rate_kg_s rc) ↔
     GT_BSFC_kg_kWh (tech conv) = 0 ∨
     EM_efficiency (tech conv) * GEN_efficiency (tech conv) = 1).
Proof.
  intros Hconv Hpar Hser Htp Hts HP Hpos Hem Hgen.
  unfold get_power_split. rewrite Hconv, Hpar, Hser.
  unfold ConventionalPowertrain.get_power_split,
    ParallelHybridPowertrain.get_power_split,
    SerialHybridPowertrain.get_power_split.
  rewrite ?Htp, ?Hts. repeat div_step.
  do 5 eexists. exists (p * GT_BSFC_kg_kWh (tech conv) / dec 3600).
  do 5 (split; [reflexivity|]). unfold is_zero. simpl.
  assert (H36 : dec 3600 ≠ 0) by nonzero.
  assert (Hp0 : p ≠ 0) by (apply not_eq_sym, Qclt_not_eq, Hpos).
  assert (Hprod : EM_efficiency (tech conv) * GEN_efficiency (tech conv) ≠ 0)
    by nonzero.
  assert (Hfs : val c4
            = Some (p * GT_BSFC_kg_kWh (tech conv) / dec 3600
                    / (EM_efficiency (tech conv) * GEN_efficiency (tech conv))))
    by val_field.
  do 8 (split; [val_field|]).
  split; [reflexivity|]. split; [val_field|].
  rewrite Hfs, Hc. split.
  - intros E. apply (inj Some) in E.
    apply (Qcdiv_fixed _ _ Hprod) in E as [E|E]; [left | right; exact E].
    destruct (Qcmult_integral _ _ E) as [E'|E'].
    + destruct (Qcmult_integral _ _ E') as [?|?]; [contradiction | assumption].
    + exfalso. revert E'. qc_neq.
  - intros E. f_equal. apply Qcdiv_fixed; [exact Hprod|].
    destruct E as [E|E]; [left | right; exact E].
    rewrite E. unfold Qcdiv. ring.
Qed.

Lemma hybrid_split_at_the_extremes_witness :
  ∃ rc rp0 rs0 rp1 rs1 fc,
    get_power_split (PowertrainBase_init Conventional tech_ex)
      (lit 3600) (lit 0.0) = Ok rc ∧
    get_power_split (PowertrainBase_init ParallelHybrid tech_ex)
      (lit 3600) (lit 0) = Ok rp0 ∧
    get_power_split (PowertrainBase_init SerialHybrid tech_ex)
      (lit 3600) (lit 0) = Ok rs0 ∧
    get_power_split (PowertrainBase_init ParallelHybrid tech_ex)
      (lit 3600) (lit 1) = Ok rp1 ∧
    get_power_split (PowertrainBase_init SerialHybrid tech_ex)
      (lit 3600) (lit 1) = Ok rs1 ∧
    val (Split.fuel_rate_kg_s rc) = Some fc ∧
    val (Split.fuel_rate_kg_s rp0) = Some fc ∧
    val (Split.fuel_rate_kg_s rs0)
      = Some (fc / (EM_efficiency tech_ex * GEN_efficiency tech_ex)) ∧
    is_zero (Split.battery_power_W rc) ∧
    is_zero (Split.battery_power_W rp0) ∧
    is_zero (Split.battery_power_W rs0) ∧
    is_zero (Split.fuel_rate_kg_s rp1) ∧
    is_zero (Split.fuel_rate_kg_s rs1) ∧
    fc = dec 3600 * GT_BSFC_kg_kWh tech_ex / dec 3600 ∧
    val (Split.fuel_rate_kg_s rs0)
      = Some (dec 3600 / EM_efficiency tech_ex * (1 - dec 0)
              / GEN_efficiency tech_ex
              * GT_BSFC_kg_kWh tech_ex / dec 3600) ∧
    (val (Split.fuel_rate_kg_s rs0) = val (Split.fuel_rate_kg_s rc) ↔
     GT_BSFC_kg_kWh tech_ex = 0 ∨
     EM_efficiency tech_ex * GEN_efficiency tech_ex = 1).
Proof.
  apply (hybrid_split_at_the_extremes
           (PowertrainBase_init Conventional tech_ex)
           (PowertrainBase_init ParallelHybrid tech_ex)
           (PowertrainBase_init SerialHybrid tech_ex)
           (lit 3600) (dec 3600));
    first [ reflexivity | apply Q2Qc_nonzero; reflexivity ].
Defined.

(** C3: for every required power P and every Hp in [0,1] the parallel
    hybrid returns turbine power P*(1-Hp), motor power P*Hp, fuel rate
    P*(1-Hp)*BSFC/3600 and battery power P*Hp*1000/EM_efficiency;
    [size_components] gives the component ratings the same split, the
    masses from the specific powers with the factor 2.20462, and a zero
    generator mass. *)
Theorem parallel_hybrid_split_and_sizing
    (self : Powertrain) (P Hp : num) (p h : Qc) :
  arch self = ParallelHybrid →
  val P = Some p → val Hp = Some h → 0 ≤ h ≤ 1 →
  EM_efficiency (tech self) ≠ 0 →
  EM_specific_power_kW_kg (tech self) ≠ 0 →
  GT_specific_power_kW_kg (tech self) ≠ 0 →
  (∃ r, get_power_split self P Hp = Ok r ∧
        val (Split.P_GT_kW r) = Some (p * (1 - h)) ∧
        val (Split.P_EM_kW r) = Some (p * h) ∧
        val (Split.fuel_rate_kg_s r)
          = Some (p * (1 - h) * GT_BSFC_kg_kWh (tech self) / dec 3600) ∧
        val (Split.battery_power_W r)
          = Some (p * h * dec 1000 / EM_efficiency (tech self))) ∧
  (∃ self', size_components P Hp self = (Ok tt, self') ∧
        val (P_EM_kW self') = Some (p * h) ∧
        val (P_GT_kW self') = Some (p * (1 - h)) ∧
        val (m_EM_lb self')
          = Some (p * h / EM_specific_power_kW_kg (tech self) * dec 2.20462) ∧
        val (m_GT_lb self')
          = Some (p * (1 - h) / GT_specific_power_kW_kg (tech self)
                  * dec 2.20462) ∧
        is_zero (m_GEN_lb self')).
Proof.
  intros Harch HP HHp Hrange Hem Hems Hgts. split.
  - unfold get_power_split. rewrite Harch. run_split.
    eexists. split; [reflexivity|]. simpl. auto 10 with num.
  - unfold size_components. rewrite Harch. run_sizing.
    eexists. split; [reflexivity|]. unfold is_zero. simpl.
    repeat split; val_field.
Qed.

Lemma parallel_hybrid_split_and_sizing_witness :
  (∃ r, get_power_split (PowertrainBase_init ParallelHybrid tech_ex)
          (lit 100) (lit 0.25) = Ok r ∧
        val (Split.P_GT_kW r) = Some (dec 100 * (1 - dec 0.25)) ∧
        val (Split.P_EM_kW r) = Some (dec 100 * dec 0.25) ∧
        val (Split.fuel_rate_kg_s r)
          = Some (dec 100 * (1 - dec 0.25) * GT_BSFC_kg_kWh tech_ex / dec 3600) ∧
        val (Split.battery_power_W r)
          = Some (dec 100 * dec 0.25 * dec 1000 / EM_efficiency tech_ex)) ∧
  (∃ self', size_components (lit 100) (lit 0.25)
              (PowertrainBase_init ParallelHybrid tech_ex) = (Ok tt, self') ∧
        val (P_EM_kW self') = Some (dec 100 * dec 0.25) ∧
        val (P_GT_kW self') = Some (dec 100 * (1 - dec 0.25)) ∧
        val (m_EM_lb self')
          = Some (dec 100 * dec 0.25 / EM_specific_power_kW_kg tech_ex
                  * dec 2.20462) ∧
        val (m_GT_lb self')
          = Some (dec 100 * (1 - dec 0.25) / GT_specific_power_kW_kg tech_ex
                  * dec 2.20462) ∧
        is_zero (m_GEN_lb self')).
Proof.
  apply (parallel_hybrid_split_and_sizing
           (PowertrainBase_init ParallelHybrid tech_ex) (lit 100) (lit 0.25)
           (dec 100) (dec 0.25));
    first [ reflexivity | apply Q2Qc_nonzero; reflexivity
          | split; vm_compute; discriminate ].
Defined.

(** C4: for every required power P and every Hp in [0,1] the serial
    hybrid routes all shaft power through the motor (P_EM = P), needs the
    electrical power P/EM_efficiency, gives the battery the share
    P_electric*Hp and the generator P_electric*(1-Hp), sets the turbine
    power to the generator share over the generator efficiency, the fuel
    rate to turbine power times BSFC/3600 and the battery power to
    P_electric*Hp*1000 with no generator efficiency in it;
    [size_components] rates the components by the same chain. *)
Theorem serial_hybrid_split_and_sizing
    (self : Powertrain) (P Hp : num) (p h : Qc) :
  arch self = SerialHybrid →
  val P = Some p → val Hp = Some h → 0 ≤ h ≤ 1 →
  EM_efficiency (tech self) ≠ 0 → GEN_efficiency (tech self) ≠ 0 →
  EM_specific_power_kW_kg (tech self) ≠ 0 →
  GEN_specific_power_kW_kg (tech self) ≠ 0 →
  GT_specific_power_kW_kg (tech self) ≠ 0 →
  let P_electric := p / EM_efficiency (tech self) in
  let P_generator := P_electric * (1 - h) in
  let P_turbine := P_generator / GEN_efficiency (tech self) in
  (∃ r, get_power_split self P Hp = Ok r ∧
        val (Split.P_EM_kW r) = Some p ∧
        val (Split.P_GT_kW r) = Some P_turbine ∧
        val (Split.fuel_rate_kg_s r)
          = Some (P_turbine * GT_BSFC_kg_kWh (tech self) / dec 3600) ∧
        val (Split.battery_power_W r) = Some (P_electric * h * dec 1000)) ∧
  (∃ self', size_components P Hp self = (Ok tt, self') ∧
        val (P_EM_kW self') = Some p ∧
        val (P_GEN_kW self') = Some P_generator ∧
        val (P_GT_kW self') = Some P_turbine ∧
        val (m_EM_lb self')
          = Some (p / EM_specific_power_kW_kg (tech self) * dec 2.20462) ∧
        val (m_GEN_lb self')
          = Some (P_generator / GEN_specific_power_kW_kg (tech self)
                  * dec 2.20462) ∧
        val (m_GT_lb self')
          = Some (P_turbine / GT_specific_power_kW_kg (tech self)
                  * dec 2.20462)).
Proof.
  intros Harch HP HHp Hrange Hem Hgen Hems Hgens Hgts Pe Pg Pt.
  subst Pe Pg Pt. split.
  - unfold get_power_split. rewrite Harch. run_split.
    eexists. split; [reflexivity|]. simpl. auto 10 with num.
  - unfold size_components. rewrite Harch. run_sizing.
    eexists. split; [reflexivity|]. simpl.
    repeat split; val_field.
Qed.

Lemma serial_hybrid_split_and_sizing_witness :
  ∃ r self',
    get_power_split (PowertrainBase_init SerialHybrid tech_ex)
      (lit 100) (lit 0.25) = Ok r ∧
    size_components (lit 100) (lit 0.25)
      (PowertrainBase_init SerialHybrid tech_ex) = (Ok tt, self') ∧
    val (Split.P_GT_kW r) = Some (dec 300) ∧
    val (Split.battery_power_W r) = Some (dec 50000) ∧
    val (P_GEN_kW self') = Some (dec 150) ∧
    val (P_GT_kW self') = Some (dec 300).
Proof.
  destruct (serial_hybrid_split_and_sizing
              (PowertrainBase_init SerialHybrid tech_ex) (lit 100) (lit 0.25)
              (dec 100) (dec 0.25))
    as [(r & Hr & _ & Hgt & _ & Hb) (self' & Hs & _ & Hgen & Hgt' & _)];
    try first [ reflexivity | apply Q2Qc_nonzero; reflexivity
              | split; vm_compute; discriminate ].
  exists r, self'. split; [exact Hr|]. split; [exact Hs|].
  rewrite Hgt, Hb, Hgen, Hgt'. repeat split; f_equal; qc_eval.
Defined.

(** ** Lift augmentation *)

(** C9: the lift-augmentation factor is 1 whenever blown lift is
    inactive or distributed-electric high lift is disabled, for every
    span fraction in [0,1] and every maximum factor >= 1; otherwise it is
    1 + (max_factor - 1) * span_fraction, which is 1 at span fraction 0,
    max_factor at span fraction 1, and strictly increasing in the span
    fraction when max_factor > 1. *)
Theorem augmentation_factor_linear
    (dep_enabled active : bool) (s s' f : Qc) :
  0 ≤ s ≤ 1 → 0 ≤ s' ≤ 1 → 1 ≤ f →
  augmentation_factor dep_enabled false s f = 1 ∧
  augmentation_factor false active s f = 1 ∧
  augmentation_factor true true s f = 1 + (f - 1) * s ∧
  augmentation_factor true true 0 f = 1 ∧
  augmentation_factor true true 1 f = f ∧
  (1 < f → s < s' →
   augmentation_factor true true s f < augmentation_factor true true s' f).
Proof.
  intros Hs Hs' Hf. unfold augmentation_factor.
  split; [destruct dep_enabled; reflexivity|].
  split; [destruct active; reflexivity|]. simpl.
  split; [reflexivity|]. split; [ring|]. split; [ring|].
  intros Hf1 Hlt.
  - apply Qcplus_lt_mono_l.
    rewrite !(Qcmult_comm (f - 1)).
    apply Qcmult_lt_compat_r; [|exact Hlt].
    apply Qclt_minus_iff in Hf1. exact Hf1.
Qed.

Lemma augmentation_factor_linear_witness :
  augmentation_factor true false (dec 0.65) (dec 1.8) = 1 ∧
  augmentation_factor false true (dec 0.65) (dec 1.8) = 1 ∧
  augmentation_factor true true (dec 0.65) (dec 1.8)
    = 1 + (dec 1.8 - 1) * dec 0.65 ∧
  augmentation_factor true true 0 (dec 1.8) = 1 ∧
  augmentation_factor true true 1 (dec 1.8) = dec 1.8 ∧
  (1 < dec 1.8 → dec 0.65 < dec 0.75 →
   augmentation_factor true true (dec 0.65) (dec 1.8)
   < augmentation_factor true true (dec 0.75) (dec 1.8)).
Proof.
  apply (augmentation_factor_linear true true (dec 0.65) (dec 0.75) (dec 1.8));
    try split; vm_compute; discriminate.
Defined.

(** ** The mission profile *)

Lemma new_fresh (seg : MissionSegment) (h : store) :
  ∃ l, new seg h = (Ok l, <[l := seg]> h) ∧ h !! l = None.
Proof.
  exists (fresh (dom h)). split; [reflexivity|].
  apply not_elem_of_dom. apply is_fresh.
Qed.

(** C10: [create_mission] always returns six new segment objects, named
    takeoff, climb, cruise, descent, loiter and landing in this order;
    the hybridization ratio of each is the entry of the profile under its
    name, and exactly 0.0 when the profile has no such entry.  With an
    empty profile every segment has Hp = 0.0, whatever the aircraft. *)
Theorem create_mission_defaults
    (self : Aircraft.t) (hybridization_profile : gmap string num) (h : store) :
  ∃ (ls : list loc) (h' : store),
    create_mission self hybridization_profile h = (Ok ls, h') ∧
    NoDup ls ∧
    (∀ l, l ∈ ls → h !! l = None) ∧
    (∀ l, l ∉ ls → h' !! l = h !! l) ∧
    Forall2 (λ l n, ∃ seg, h' !! l = Some seg ∧ name seg = n ∧
                           Hp seg = default (lit 0.0) (hybridization_profile !! n))
            ls segment_names ∧
    (∀ l seg, l ∈ ls → h' !! l = Some seg →
       hybridization_profile !! name seg = None → Hp seg = lit 0.0) ∧
    (hybridization_profile = ∅ →
       ∀ l seg, l ∈ ls → h' !! l = Some seg → Hp seg = lit 0.0).
Proof.
  cbv beta zeta iota delta [create_mission mbind M_bind mret M_ret new].
  set (s1 := MissionSegment_init "takeoff" _ _ _).
  set (s2 := MissionSegment_init "climb" _ _ _).
  set (s3 := MissionSegment_init "cruise" _ _ _).
  set (s4 := MissionSegment_init "descent" _ _ _).
  set (s5 := MissionSegment_init "loiter" _ _ _).
  set (s6 := MissionSegment_init "landing" _ _ _).
  set (l1 := fresh (dom h)). set (h1 := <[l1:=s1]> h).
  set (l2 := fresh (dom h1)). set (h2 := <[l2:=s2]> h1).
  set (l3 := fresh (dom h2)). set (h3 := <[l3:=s3]> h2).
  set (l4 := fresh (dom h3)). set (h4 := <[l4:=s4]> h3).
  set (l5 := fresh (dom h4)). set (h5 := <[l5:=s5]> h4).
  set (l6 := fresh (dom h5)). set (h6 := <[l6:=s6]> h5).
  assert (F1 : h !! l1 = None) by (apply not_elem_of_dom, is_fresh).
  assert (F2 : h1 !! l2 = None) by (apply not_elem_of_dom, is_fresh).
  assert (F3 : h2 !! l3 = None) by (apply not_elem_of_dom, is_fresh).
  assert (F4 : h3 !! l4 = None) by (apply not_elem_of_dom, is_fresh).
  assert (F5 : h4 !! l5 = None) by (apply not_elem_of_dom, is_fresh).
  assert (F6 : h5 !! l6 = None) by (apply not_elem_of_dom, is_fresh).
  clearbody l1 l2 l3 l4 l5 l6. subst h1 h2 h3 h4 h5 h6.
  repeat match goal with
         | H : <[_:=_]> _ !! _ = None |- _ =>
             let N := fresh "N" in
             apply lookup_insert_None in H; destruct H as [H N]
         end.
  exists [l1; l2; l3; l4; l5; l6]. eexists. split; [reflexivity|].
  assert (Hlook : ∀ l seg,
            l ∈ [l1; l2; l3; l4; l5; l6] →
            <[l6:=s6]> (<[l5:=s5]> (<[l4:=s4]> (<[l3:=s3]> (<[l2:=s2]>
              (<[l1:=s1]> h))))) !! l = Some seg →
            Hp seg = default (lit 0.0) (hybridization_profile !! name seg)).
  { intros l seg Hl Hseg. rewrite !elem_of_cons in Hl.
    destruct Hl as [->|[->|[->|[->|[->|[->|Hl]]]]]];
      [ .. | exfalso; exact (not_elem_of_nil _ Hl) ];
      repeat first [ rewrite lookup_insert_eq in Hseg
                   | rewrite lookup_insert_ne in Hseg by auto ];
      inversion Hseg; reflexivity. }
  split; [|split; [|split; [|split; [|split]]]].
  - repeat (apply NoDup_cons_2;
              [ rewrite ?not_elem_of_cons; repeat split; auto;
                apply not_elem_of_nil | ]).
    apply NoDup_nil_2.
  - intros l Hl. rewrite !elem_of_cons in Hl.
    destruct Hl as [->|[->|[->|[->|[->|[->|Hl]]]]]]; try assumption.
    exfalso. exact (not_elem_of_nil _ Hl).
  - intros l Hl. rewrite !not_elem_of_cons in Hl.
    destruct Hl as (? & ? & ? & ? & ? & ? & _).
    rewrite !lookup_insert_ne by auto. reflexivity.
  - unfold segment_names.
    repeat constructor; eexists;
      (split; [ repeat first [ apply lookup_insert_eq
                             | rewrite lookup_insert_ne by auto ] | ]);
      split; reflexivity.
  - intros l seg Hl Hseg Hnone. rewrite (Hlook l seg Hl Hseg).
    rewrite Hnone. reflexivity.
  - intros -> l seg Hl Hseg. rewrite (Hlook l seg Hl Hseg).
    rewrite lookup_empty. reflexivity.
Qed.

(** ** The mission simulator *)

Section MissionProperties.

Variable sqrt : Qc → Qc.
Variable atmosisa : num → num * num * num * num.

Ltac run_M :=
  unfold mbind, M_bind, mret, M_ret, lift, getattr, setattr; simpl.

(** C8: a descent segment takes 480 s, burns 2% of the current weight
    and draws 100 Wh; a takeoff, loiter or landing segment takes 180 s,
    burns 1% of the current weight and draws 200 Wh.  The results mention
    neither the altitudes nor the hybridization ratio of the segment nor
    the aircraft and its powertrain, and the store is left as it was. *)
Theorem flat_segments
    (self : Aircraft.t) (segment : loc) (seg : MissionSegment)
    (W_lb S_ft2 : num) (h : store) :
  h !! segment = Some seg →
  (name seg = "descent" →
     simulate_segment sqrt atmosisa self segment W_lb S_ft2 h
     = (Ok (lit 480, (lit 0.02 * W_lb)%num, lit 100), h)) ∧
  (name seg = "takeoff" ∨ name seg = "loiter" ∨ name seg = "landing" →
     simulate_segment sqrt atmosisa self segment W_lb S_ft2 h
     = (Ok (lit 180, (lit 0.01 * W_lb)%num, lit 200), h)) ∧
  (∀ w, val W_lb = Some w →
     val (lit 0.02 * W_lb)%num = Some (dec 0.02 * w) ∧
     val (lit 0.01 * W_lb)%num = Some (dec 0.01 * w)).
Proof.
  intros Hseg. unfold simulate_segment. run_M. rewrite Hseg.
  split; [|split].
  - intros ->. reflexivity.
  - intros [-> | [-> | ->]]; reflexivity.
  - intros w Hw. split; auto with num.
Qed.

(** C6: a cruise segment at weight W, wing area S and the configured
    cruise speed V has CL = W / (0.5*rho*V^2*S), with the density rho of the
    atmosphere lookup at the altitude of the segment, CD = CD0 + K1*CL^2,
    a shaft power of drag times speed over (550 times) the propeller
    efficiency, turned from HP to kW by 0.7457, a duration of the mission
    range over the cruise speed, and burns the fuel rate and the battery
    power of the power split at the Hp of the segment over that time:
    fuel_rate*time*2.20462 pounds and battery_power*time/3600 watt-hours. *)
Theorem cruise_segment_formulas
    (self : Aircraft.t) (segment : loc) (seg : MissionSegment)
    (W_lb S_ft2 : num) (h : store)
    (T p rho_kg_m3 a : num) (w s r hp : Qc) :
  h !! segment = Some seg →
  atmosisa (altitude_start_ft seg * lit 0.3048)%num = (T, p, rho_kg_m3, a) →
  val W_lb = Some w → val S_ft2 = Some s → val rho_kg_m3 = Some r →
  val (Hp seg) = Some hp →
  r ≠ 0 → s ≠ 0 → Aircraft.cruise_speed_kts self ≠ 0 →
  prop_efficiency (Aircraft.tech self) ≠ 0 →
  EM_efficiency (tech (Aircraft.powertrain self)) ≠ 0 →
  GEN_efficiency (tech (Aircraft.powertrain self)) ≠ 0 →
  let rho := r / dec 515.379 in
  let V := Aircraft.cruise_speed_kts self * dec 1.688 in
  let CL := w / (dec 0.5 * rho * (V * V) * s) in
  let CD := Aircraft.CD0 self + Aircraft.K1 self * (CL * CL) in
  let D := dec 0.5 * rho * (V * V) * s * CD in
  let P_shaft_HP := D * V / (dec 550 * prop_efficiency (Aircraft.tech self)) in
  let time := Aircraft.range_nm self * dec 6076.12 / V in
  ∃ (P_shaft_kW : num) (split : Split.t) (t f b : num) (fr bp : Qc),
    simulate_cruise_segment atmosisa self segment W_lb S_ft2 h
    = (Ok (t, f, b),
       <[segment := set_distance_nm (Aircraft.range_nm self) seg]> h) ∧
    val P_shaft_kW = Some (P_shaft_HP * dec 0.7457) ∧
    get_power_split (Aircraft.powertrain self) P_shaft_kW (Hp seg) = Ok split ∧
    val (Split.fuel_rate_kg_s split) = Some fr ∧
    val (Split.battery_power_W split) = Some bp ∧
    val t = Some time ∧
    val f = Some (fr * time * dec 2.20462) ∧
    val b = Some (bp * time / dec 3600).
Proof.
  intros Hseg Hatm HW HS Hrho HHp Hr Hs HV Hprop Hem Hgen
         rho V CL CD D P_HP time.
  assert (HV' : V ≠ 0) by (subst V; nonzero).
  unfold simulate_cruise_segment. run_M. rewrite Hseg, Hatm.
  div_step. simpl.
  assert (Hrho' : rho ≠ 0) by (subst rho; nonzero).
  div_step. simpl. div_step. rewrite ?Hseg. simpl.
  match goal with
  | |- context [get_power_split ?pt ?P ?H] =>
      destruct (get_power_split_finite pt P H (P_HP * dec 0.7457) hp)
        as (split & gt & em & fr & bp & Hsplit & _ & _ & Hfr & Hbp & _);
        [ subst P_HP D CD CL V rho; eauto 10 with num
        | exact HHp | exact Hem | exact Hgen | ]
  end.
  rewrite Hsplit. simpl.
  div_step. simpl. div_step. rewrite ?Hseg. simpl.
  do 5 eexists. exists fr, bp.
  split; [reflexivity|].
  split; [|split; [exact Hsplit|]].
  - subst P_HP D CD CL V rho. eauto 10 with num.
  - split; [exact Hfr|]. split; [exact Hbp|].
    subst time V. repeat split; eauto 10 with num.
Qed.

(** *** The climb segment *)

Lemma np_sqrt_val (a : num) (x : Qc) :
  val a = Some x →
  np_sqrt sqrt a = NpF (if decide (x < 0) then Nan else Finite (sqrt x)).
Proof. intros Ha. unfold np_sqrt. rewrite (val_np a x Ha). reflexivity. Qed.

Ltac invert_run H :=
  repeat match type of H with
         | context [match ?e with Ok _ => _ | Raise _ => _ end] =>
             let E := fresh "E" in
             destruct e eqn:E; [ cbv beta iota in H | discriminate H ]
         end.

(** Whenever the climb segment returns, its duration is the altitude
    change over the rate of climb if that is positive, and 600 if it is
    zero, negative or nan; the store is not written. *)
Lemma climb_time_of_run
    (self : Aircraft.t) (segment : loc) (seg : MissionSegment)
    (W_lb S_ft2 : num) (h h' : store) (w s : Qc) (t f b : num) :
  h !! segment = Some seg →
  val W_lb = Some w → val S_ft2 = Some s →
  s ≠ 0 → Aircraft.CLmax_clean self ≠ 0 →
  simulate_climb_segment sqrt self segment W_lb S_ft2 h = (Ok (t, f, b), h') →
  let x := dec 2 * (w * dec 0.99)
           / (dec 0.002377 * s * Aircraft.CLmax_clean self) in
  let ROC := (lit 1.3 * np_sqrt sqrt (PyF x) * lit 0.05)%num in
  h' = h ∧
  (if ngt ROC (lit 0)
   then (altitude_end_ft seg - altitude_start_ft seg)%num /? ROC = Ok t
   else t = lit 600).
Proof.
  intros Hseg HW HS Hs HCL Hrun x ROC.
  unfold simulate_climb_segment in Hrun. revert Hrun. run_M.
  div_step. rewrite ?Hseg. simpl. intros Hrun.
  rewrite (np_sqrt_val c x Hc) in Hrun.
  subst ROC. rewrite (np_sqrt_val (PyF x) x eq_refl).
  invert_run Hrun.
  destruct (ngt _ (lit 0)); simpl in Hrun; invert_run Hrun;
    inversion Hrun; subst; auto.
Qed.

Lemma val_np_sqrt (a : num) (x : Qc) :
  val a = Some x → ¬ (x < 0) → val (np_sqrt sqrt a) = Some (sqrt x).
Proof.
  intros Ha Hx. rewrite (np_sqrt_val a x Ha).
  destruct (decide (x < 0)); [contradiction | reflexivity].
Qed.

(** A climb with a positive rate of climb returns. *)
Lemma climb_returns_regular
    (self : Aircraft.t) (segment : loc) (seg : MissionSegment)
    (W_lb S_ft2 : num) (h : store) (w s a0 a1 hp : Qc) :
  h !! segment = Some seg →
  val W_lb = Some w → val S_ft2 = Some s →
  val (altitude_start_ft seg) = Some a0 →
  val (altitude_end_ft seg) = Some a1 →
  val (Hp seg) = Some hp →
  s ≠ 0 → Aircraft.CLmax_clean self ≠ 0 →
  prop_efficiency (Aircraft.tech self) ≠ 0 →
  EM_efficiency (tech (Aircraft.powertrain self)) ≠ 0 →
  GEN_efficiency (tech (Aircraft.powertrain self)) ≠ 0 →
  let W_avg := w * dec 0.99 in
  let x := dec 2 * W_avg / (dec 0.002377 * s * Aircraft.CLmax_clean self) in
  let V_climb := dec 1.3 * sqrt x in
  let ROC := V_climb * dec 0.05 in
  let CL := W_avg / (dec 0.5 * dec 0.002377 * (V_climb * V_climb) * s) in
  let CD := Aircraft.CD0 self + Aircraft.K1 self * (CL * CL) in
  ¬ (x < 0) → 0 < ROC → w ≠ 0 → CD ≠ 0 →
  ∃ t f b,
    simulate_climb_segment sqrt self segment W_lb S_ft2 h = (Ok (t, f, b), h) ∧
    val t = Some ((a1 - a0) / ROC).
Proof.
  intros Hseg HW HS Ha0 Ha1 HHp Hs HCL Hprop Hem Hgen
         W_avg x V_climb ROC CL CD Hx HROC Hw HCD.
  assert (HROC0 : ROC ≠ 0).
  { apply not_eq_sym, Qclt_not_eq, HROC. }
  assert (HV : V_climb ≠ 0).
  { intros E. apply HROC0. subst ROC. rewrite E. ring. }
  assert (HWavg : W_avg ≠ 0) by (subst W_avg; nonzero).
  assert (HCLd : dec 0.5 * dec 0.002377 * (V_climb * V_climb) * s ≠ 0)
    by nonzero.
  assert (HCL0 : CL ≠ 0) by (subst CL; nonzero).
  assert (Hld : CL / CD ≠ 0) by nonzero.
  unfold simulate_climb_segment. run_M.
  div_step. rewrite ?Hseg. simpl.
  pose proof (val_np_sqrt c x Hc Hx) as Hsq.
  div_step. simpl. div_step. simpl. div_step. simpl. div_step. simpl.
  match goal with
  | |- context [get_power_split ?pt ?P ?H] =>
      edestruct (get_power_split_finite pt P H)
        as (split & gt & em & fr & bp & Hsplit & _ & _ & Hfr & Hbp & _);
        [ solve [eauto 12 with num]
        | exact HHp | exact Hem | exact Hgen | ]
  end.
  rewrite Hsplit. simpl.
  rewrite (ngt_true _ (lit 0) ROC 0) by (try exact HROC; eauto 10 with num).
  div_step. simpl. div_step. simpl.
  do 3 eexists. split; [reflexivity|]. assumption.
Qed.

(** A climb without a positive rate of climb returns with the default
    600 seconds: when the argument of the square root is negative, and
    at zero weight. *)
Lemma climb_returns_600
    (self : Aircraft.t) (segment : loc) (seg : MissionSegment)
    (W_lb S_ft2 : num) (h : store) (w s : Qc) :
  h !! segment = Some seg →
  val W_lb = Some w → val S_ft2 = Some s →
  s ≠ 0 → Aircraft.CLmax_clean self ≠ 0 →
  let x := dec 2 * (w * dec 0.99)
           / (dec 0.002377 * s * Aircraft.CLmax_clean self) in
  x < 0 ∨ (w = 0 ∧ sqrt 0 = 0) →
  ∃ f b,
    simulate_climb_segment sqrt self segment W_lb S_ft2 h
    = (Ok (lit 600, f, b), h).
Proof.
  intros Hseg HW HS Hs HCL x Hcase.
  unfold simulate_climb_segment. run_M.
  div_step. rewrite ?Hseg. simpl.
  rewrite (np_sqrt_val c x Hc).
  destruct Hcase as [Hneg | [-> H0]].
  - destruct (decide (x < 0)); [|contradiction].
    nan_step. simpl.
    destruct (get_power_split_nan (Aircraft.powertrain self) (Hp seg))
      as (r & ->).
    simpl.
    destruct (ndiv_nonzero_returns
                (Split.battery_power_W r * lit 600)%num (lit 3600) (dec 3600)
                eq_refl) as (b & ->); [nonzero|].
    do 2 eexists. reflexivity.
  - assert (Hx : x = 0) by (subst x; unfold Qcdiv; ring).
    rewrite Hx, H0.
    destruct (decide (dec 0 < dec 0)%Qc) as [Hlt|_];
      [exfalso; exact (Qclt_not_le _ _ Hlt (Qcle_refl _)) |].
    rewrite (ndiv_zero_by_np_zero (W_lb * lit 0.99)%num).
    + nan_step.
      rewrite (ngt_false _ (lit 0) (dec 1.3 * 0 * dec 0.05) 0);
        [ | reflexivity | reflexivity | ].
      * destruct (get_power_split_nan (Aircraft.powertrain self) (Hp seg))
          as (r & ->).
        simpl.
        destruct (ndiv_nonzero_returns
                    (Split.battery_power_W r * lit 600)%num (lit 3600)
                    (dec 3600) eq_refl) as (b & ->); [nonzero|].
        do 2 eexists. reflexivity.
      * replace (dec 1.3 * 0 * dec 0.05) with 0 by ring.
        apply Qcle_not_lt, Qcle_refl.
    + val_field.
    + assert (Hv : val (NpF (Finite 0)) = Some 0) by reflexivity.
      val_field.
    + apply is_np_nmul_l, is_np_nmul_r, is_np_nmul_r, is_np_nmul_r. exact I.
Qed.

(** The climb segment as the code has it.  In a climb segment at weight
    W and wing area S the average weight is 0.99*W; the climb speed is
    1.3 times the stall speed computed from the sea-level density
    0.002377, the average weight, the wing area and the CLmax_clean of
    the aircraft; the rate of climb is 0.05 times the climb speed; the
    duration is the altitude change over the rate of climb, and 600
    seconds whenever the rate of climb is not positive.  The first part
    asks for a non-zero weight and drag coefficient, so that every
    intermediate value is finite. *)
Theorem climb_segment_speed_and_time
    (self : Aircraft.t) (segment : loc) (seg : MissionSegment)
    (W_lb S_ft2 : num) (h : store) (w s a0 a1 hp : Qc) :
  h !! segment = Some seg →
  val W_lb = Some w → val S_ft2 = Some s →
  val (altitude_start_ft seg) = Some a0 →
  val (altitude_end_ft seg) = Some a1 →
  val (Hp seg) = Some hp →
  s ≠ 0 → Aircraft.CLmax_clean self ≠ 0 →
  prop_efficiency (Aircraft.tech self) ≠ 0 →
  EM_efficiency (tech (Aircraft.powertrain self)) ≠ 0 →
  GEN_efficiency (tech (Aircraft.powertrain self)) ≠ 0 →
  let W_avg := w * dec 0.99 in
  let x := dec 2 * W_avg / (dec 0.002377 * s * Aircraft.CLmax_clean self) in
  let V_climb := dec 1.3 * sqrt x in
  let ROC := V_climb * dec 0.05 in
  let CL := W_avg / (dec 0.5 * dec 0.002377 * (V_climb * V_climb) * s) in
  let CD := Aircraft.CD0 self + Aircraft.K1 self * (CL * CL) in
  (* a climb with a positive rate of climb *)
  (¬ (x < 0) → 0 < ROC → w ≠ 0 → CD ≠ 0 →
   ∃ t f b,
     simulate_climb_segment sqrt self segment W_lb S_ft2 h
     = (Ok (t, f, b), h) ∧
     val t = Some ((a1 - a0) / ROC)) ∧
  (* no positive rate of climb *)
  (x < 0 ∨ (w = 0 ∧ sqrt 0 = 0) →
   ∃ f b,
     simulate_climb_segment sqrt self segment W_lb S_ft2 h
     = (Ok (lit 600, f, b), h)) ∧
  (* every run that returns *)
  (∀ t f b h',
     simulate_climb_segment sqrt self segment W_lb S_ft2 h
     = (Ok (t, f, b), h') →
     h' = h ∧
     (¬ (x < 0) → 0 < ROC → val t = Some ((a1 - a0) / ROC)) ∧
     (x < 0 ∨ ¬ (0 < ROC) → t = lit 600)).
Proof.
  intros Hseg HW HS Ha0 Ha1 HHp Hs HCL Hprop Hem Hgen
         W_avg x V_climb ROC CL CD.
  split; [|split].
  - intros Hx HROC Hw HCD.
    eapply climb_returns_regular; eauto.
  - intros Hcase. eapply climb_returns_600; eauto.
  - intros t f b h' Hrun.
    destruct (climb_time_of_run self segment seg W_lb S_ft2 h h' w s t f b
                Hseg HW HS Hs HCL Hrun) as [-> Ht].
    split; [reflexivity|].
    fold W_avg in Ht. fold x in Ht.
    rewrite (np_sqrt_val (PyF x) x eq_refl) in Ht.
    destruct (decide (x < 0)) as [Hneg|Hpos].
    + rewrite ngt_nan in Ht by reflexivity.
      split; [intros; contradiction | intros _; exact Ht].
    + destruct (decide (0 < ROC)) as [HROC|HROC].
      * rewrite (ngt_true _ (lit 0) ROC 0) in Ht
          by (try exact HROC; reflexivity).
        split; [|intros [?|?]; contradiction].
        intros _ _.
        edestruct (ndiv_finite
                     (altitude_end_ft seg - altitude_start_ft seg)%num
                     (lit 1.3 * NpF (Finite (sqrt x)) * lit 0.05)%num)
          as (c & Hc & Hv);
          [ eauto with num | reflexivity
          | apply not_eq_sym, Qclt_not_eq, HROC | ].
        rewrite Hc in Ht. injection Ht as <-. exact Hv.
      * rewrite (ngt_false _ (lit 0) ROC 0) in Ht
          by (try exact HROC; reflexivity).
        split; [intros; contradiction | intros _; exact Ht].
Qed.

End MissionProperties.

(** ** The mission loop *)

Section Locality.

Context {A B : Type}.

Lemma local_ret (l : loc) (a : A) : local_at l (mret a).
Proof. intros h1 h2 E. simpl. auto. Qed.

Lemma local_lift (l : loc) (r : exc A) : local_at l (lift r).
Proof. intros h1 h2 E. simpl. auto. Qed.

Lemma local_getattr (l : loc) (f : MissionSegment → A) :
  local_at l (getattr l f).
Proof.
  intros h1 h2 E. unfold getattr. rewrite <- E.
  destruct (h1 !! l) eqn:E1; simpl; rewrite ?E1; auto.
Qed.

Lemma local_setattr (l : loc) (upd : MissionSegment → MissionSegment) :
  local_at l (setattr l upd).
Proof.
  intros h1 h2 E. unfold setattr. rewrite <- E.
  destruct (h1 !! l) eqn:E1; simpl.
  - rewrite !lookup_insert_eq. repeat split; eauto.
    intros l' Hl'. rewrite lookup_insert_ne by auto. reflexivity.
  - rewrite E1. auto.
Qed.

Lemma local_bind (l : loc) (m : M store A) (k : A → M store B) :
  local_at l m → (∀ a, local_at l (k a)) → local_at l (m ≫= k).
Proof.
  intros Hm Hk h1 h2 E. unfold mbind, M_bind.
  destruct (Hm h1 h2 E) as (Hr & Hl & Hf & Hs).
  destruct (m h1) as [r1 h1'], (m h2) as [r2 h2']. simpl in *. subst r2.
  destruct r1 as [a|e]; simpl.
  - destruct (Hk a h1' h2' Hl) as (Hr' & Hl' & Hf' & Hs').
    repeat split; auto.
    intros l' Hl''. rewrite Hf' by auto. auto.
  - auto.
Qed.

End Locality.

Section MissionLoop.

Variable sqrt : Qc → Qc.
Variable atmosisa : num → num * num * num * num.

Ltac local_step :=
  first [ apply local_getattr | apply local_setattr | apply local_lift
        | apply local_ret
        | apply local_bind; [ | intros ? ]
        | match goal with
          | |- local_at _ (if ?b then _ else _) => destruct b
          | |- local_at _ (match ?x with _ => _ end) => destruct x
          | |- local_at _ (let _ := _ in _) => cbv zeta
          end ].

(** Simulating a segment reads and writes that segment only. *)
Lemma local_simulate_segment
    (self : Aircraft.t) (l : loc) (W_lb S_ft2 : num) :
  local_at l (simulate_segment sqrt atmosisa self l W_lb S_ft2).
Proof.
  unfold simulate_segment, simulate_cruise_segment, simulate_climb_segment,
    simulate_descent_segment, simulate_simple_segment.
  repeat local_step.
Qed.

Lemma attrs_cons (f : MissionSegment → num) (h : store) (l : loc)
    (ls : list loc) (seg : MissionSegment) :
  h !! l = Some seg → attrs f h (l :: ls) = f seg :: attrs f h ls.
Proof. intros E. unfold attrs. cbn. rewrite E. reflexivity. Qed.

(** One turn of the loop: the segment is simulated at the current
    weight, the three results are stored on it, and the loop goes on
    with the weight reduced by the fuel and the sums increased. *)
Lemma mission_loop_turn
    (self : Aircraft.t) (S_wing_ft2 : num) (l : loc) (rest : list loc)
    (v v' : locals) (h h' : store) :
  mission_loop sqrt atmosisa self S_wing_ft2 (l :: rest) v h = (Ok v', h') →
  ∃ t f b h1 seg1,
    simulate_segment sqrt atmosisa self l (W_current_lb v) S_wing_ft2 h
    = (Ok (t, f, b), h1) ∧
    h1 !! l = Some seg1 ∧
    mission_loop sqrt atmosisa self S_wing_ft2 rest
      {| W_current_lb := (W_current_lb v - f)%num;
         acc_fuel_lb := (acc_fuel_lb v + f)%num;
         acc_battery_Wh := (acc_battery_Wh v + b)%num;
         acc_time_sec := (acc_time_sec v + t)%num |}
      (<[l := set_battery_Wh b (set_fuel_lb f (set_time_sec t seg1))]> h1)
    = (Ok v', h').
Proof.
  simpl. unfold mbind, M_bind at 1.
  destruct (simulate_segment sqrt atmosisa self l (W_current_lb v)
              S_wing_ft2 h) as [[[[t f] b]|e] h1] eqn:Hsim;
    [|discriminate].
  unfold mbind, M_bind, setattr.
  destruct (h1 !! l) as [seg1|] eqn:Hl; [|discriminate].
  rewrite lookup_insert_eq. rewrite insert_insert_eq.
  rewrite lookup_insert_eq. rewrite insert_insert_eq.
  intros Hrest. exists t, f, b, h1, seg1. auto.
Qed.

Lemma mission_loop_spec
    (self : Aircraft.t) (S_wing_ft2 : num) (segs : list loc) :
  ∀ (v v' : locals) (h h' : store),
    NoDup segs →
    mission_loop sqrt atmosisa self S_wing_ft2 segs v h = (Ok v', h') →
    (∀ l, l ∉ segs → h' !! l = h !! l) ∧
    length (attrs fuel_lb h' segs) = length segs ∧
    acc_fuel_lb v' = fold_left nadd (attrs fuel_lb h' segs) (acc_fuel_lb v) ∧
    acc_battery_Wh v'
      = fold_left nadd (attrs battery_Wh h' segs) (acc_battery_Wh v) ∧
    acc_time_sec v' = fold_left nadd (attrs time_sec h' segs) (acc_time_sec v) ∧
    W_current_lb v' = fold_left nsub (attrs fuel_lb h' segs) (W_current_lb v) ∧
    (∀ i l, segs !! i = Some l →
       ∃ seg', h' !! l = Some seg' ∧
         fst (simulate_segment sqrt atmosisa self l
                (fold_left nsub (attrs fuel_lb h' (take i segs))
                   (W_current_lb v))
                S_wing_ft2 h)
         = Ok (time_sec seg', fuel_lb seg', battery_Wh seg')).
Proof.
  induction segs as [|l rest IH]; intros v v' h h' Hnd Hrun.
  - simpl in Hrun. inversion Hrun; subst.
    repeat split; auto. intros i l Hl. rewrite lookup_nil in Hl. discriminate.
  - apply NoDup_cons in Hnd as [Hl Hnd].
    apply mission_loop_turn in Hrun
      as (t & f & b & h1 & seg1 & Hsim & Hl1 & Hrest).
    apply IH in Hrest as (Hframe & Hlen & Hf & Hb & Ht & HW & Hidx); [|exact Hnd].
    destruct (local_simulate_segment self l (W_current_lb v) S_wing_ft2 h h
                eq_refl) as (_ & _ & Hother & _).
    rewrite Hsim in Hother. simpl in Hother.
    assert (Hfinal : h' !! l
              = Some (set_battery_Wh b (set_fuel_lb f (set_time_sec t seg1)))).
    { rewrite (Hframe l Hl). apply lookup_insert_eq. }
    rewrite !(attrs_cons _ h' l rest _ Hfinal). simpl in *.
    split; [|split; [|split; [|split; [|split; [|split]]]]]; auto.
    + intros l' Hl'. apply not_elem_of_cons in Hl' as [Hne Hl'].
      rewrite (Hframe l' Hl'). rewrite lookup_insert_ne by auto.
      apply Hother. auto.
    + intros [|i] l' Hi; simpl in Hi.
      * inversion Hi; subst l'. eexists. split; [exact Hfinal|].
        simpl. rewrite Hsim. reflexivity.
      * destruct (Hidx i l' Hi) as (seg' & Hseg' & Hres).
        exists seg'. split; [exact Hseg'|].
        simpl. rewrite (attrs_cons _ h' l _ _ Hfinal). simpl.
        rewrite <- Hres.
        assert (Hne : l' ≠ l).
        { intros ->. apply Hl. eapply list_elem_of_lookup_2; eauto. }
        apply (local_simulate_segment self l').
        rewrite lookup_insert_ne by auto. symmetry. apply Hother. exact Hne.
Qed.

Lemma attrs_app (f : MissionSegment → num) (h : store) (ls1 ls2 : list loc) :
  attrs f h (ls1 ++ ls2) = attrs f h ls1 ++ attrs f h ls2.
Proof. unfold attrs. apply omap_app. Qed.

(** C5 (amended): for every list of pairwise distinct segment objects
    and every starting weight TOGW, [simulate_mission] processes the
    segments in list order; the weight passed to the simulation of a
    segment is TOGW minus the fuel burned by the segments before it, and
    the battery draw never enters it, so the weight does not increase
    where the fuel burn is non-negative; and the totals returned are the
    sums of the fuel, battery energy and time stored on the returned
    segments. *)
Theorem simulate_mission_totals
    (self : Aircraft.t) (segs : list loc) (TOGW_lb S_wing_ft2 : num)
    (h h' : store) (res : MissionResult.t) :
  NoDup segs →
  simulate_mission sqrt atmosisa self segs TOGW_lb S_wing_ft2 h = (Ok res, h') →
  let W (i : nat) := fold_left nsub (attrs fuel_lb h' (take i segs)) TOGW_lb in
  MissionResult.segments res = segs ∧
  length (attrs fuel_lb h' segs) = length segs ∧
  MissionResult.total_fuel_lb res = total (attrs fuel_lb h' segs) ∧
  MissionResult.total_battery_Wh res = total (attrs battery_Wh h' segs) ∧
  MissionResult.total_time_sec res = total (attrs time_sec h' segs) ∧
  (∀ i l, segs !! i = Some l →
     ∃ seg', h' !! l = Some seg' ∧
       fst (simulate_segment sqrt atmosisa self l (W i) S_wing_ft2 h)
       = Ok (time_sec seg', fuel_lb seg', battery_Wh seg') ∧
       W (S i) = (W i - fuel_lb seg')%num ∧
       (∀ w f, val (W i) = Some w → val (fuel_lb seg') = Some f → 0 ≤ f →
          val (W (S i)) = Some (w - f) ∧ w - f ≤ w)).
Proof.
  intros Hnd Hrun W. unfold simulate_mission in Hrun.
  unfold mbind, M_bind in Hrun.
  destruct (mission_loop sqrt atmosisa self S_wing_ft2 segs _ h)
    as [[v'|e] h''] eqn:Hloop; [|discriminate].
  simpl in Hrun. inversion Hrun; subst res h''. clear Hrun. simpl.
  apply mission_loop_spec in Hloop
    as (_ & Hlen & Hf & Hb & Ht & _ & Hidx); [|exact Hnd].
  simpl in *.
  split; [reflexivity|]. split; [exact Hlen|].
  split; [exact Hf|]. split; [exact Hb|]. split; [exact Ht|].
  intros i l Hi. destruct (Hidx i l Hi) as (seg' & Hseg' & Hres).
  exists seg'. split; [exact Hseg'|]. split; [exact Hres|].
  assert (HW : W (S i) = (W i - fuel_lb seg')%num).
  { unfold W. rewrite (take_S_r segs i l Hi), attrs_app, fold_left_app.
    rewrite (attrs_cons _ h' l [] _ Hseg'). reflexivity. }
  split; [exact HW|].
  intros w f Hw Hfuel Hpos. rewrite HW. split.
  - apply val_nsub; assumption.
  - apply Qcle_minus_iff.
    replace (w + - (w - f)) with f by ring. exact Hpos.
Qed.

End MissionLoop.

(** ** Examples of the segments *)

Lemma flat_segments_witness :
  (name descent_ex = "descent" →
     simulate_segment sqrt_floor atmosisa_ex aircraft_ex 4%positive
       (lit 8000) (lit 200) store_ex
     = (Ok (lit 480, (lit 0.02 * lit 8000)%num, lit 100), store_ex)) ∧
  (name descent_ex = "takeoff" ∨ name descent_ex = "loiter" ∨
   name descent_ex = "landing" →
     simulate_segment sqrt_floor atmosisa_ex aircraft_ex 4%positive
       (lit 8000) (lit 200) store_ex
     = (Ok (lit 180, (lit 0.01 * lit 8000)%num, lit 200), store_ex)) ∧
  (∀ w, val (lit 8000) = Some w →
     val (lit 0.02 * lit 8000)%num = Some (dec 0.02 * w) ∧
     val (lit 0.01 * lit 8000)%num = Some (dec 0.01 * w)).
Proof.
  apply (flat_segments sqrt_floor atmosisa_ex aircraft_ex 4%positive
           descent_ex (lit 8000) (lit 200) store_ex).
  reflexivity.
Defined.

Lemma cruise_segment_formulas_witness :
  ∃ (t f b : num),
    simulate_cruise_segment atmosisa_ex aircraft_ex 3%positive
      (lit 8000) (lit 200) store_ex
    = (Ok (t, f, b),
       <[3%positive := set_distance_nm (dec 350) cruise_ex]> store_ex) ∧
    val t = Some (dec 350 * dec 6076.12 / (dec 250 * dec 1.688)).
Proof.
  destruct (cruise_segment_formulas atmosisa_ex aircraft_ex 3%positive
              cruise_ex (lit 8000) (lit 200) store_ex
              (lit 288.15) (lit 101325) (lit 1.225) (lit 340.3)
              (dec 8000) (dec 200) (dec 1.225) (dec 0.0))
    as (P & split & t & f & b & fr & bp & Hrun & _ & _ & _ & _ & Ht & _);
    try first [ reflexivity | apply Q2Qc_nonzero; reflexivity ].
  exists t, f, b. split; [exact Hrun | exact Ht].
Defined.

Ltac qc_lt := unfold Qclt; vm_compute; reflexivity.
Ltac qc_not_lt :=
  let H := fresh in intros H; unfold Qclt in H; vm_compute in H; discriminate H.

Lemma climb_segment_speed_and_time_witness :
  ∃ t f b,
    simulate_climb_segment sqrt_floor aircraft_ex 2%positive
      (lit 8000) (lit 200) store_ex
    = (Ok (t, f, b), store_ex) ∧
    val t = Some ((dec 10000 - dec 35)
                  / (dec 1.3
                     * sqrt_floor (dec 2 * (dec 8000 * dec 0.99)
                                   / (dec 0.002377 * dec 200 * dec 1.5))
                     * dec 0.05)).
Proof.
  destruct (climb_segment_speed_and_time sqrt_floor aircraft_ex 2%positive
              climb_ex (lit 8000) (lit 200) store_ex
              (dec 8000) (dec 200) (dec 35) (dec 10000) (dec 0.25))
    as (Hregular & _ & _);
    try first [ reflexivity | apply Q2Qc_nonzero; reflexivity ].
  apply Hregular.
  - qc_not_lt.
  - qc_lt.
  - apply Q2Qc_nonzero; reflexivity.
  - qc_neq.
Defined.


(** Where the spec and the code agree: for a segment on which blown
    lift is not active, or an aircraft on which it is disabled, the
    climb of the code runs at the stall speed of the spec. *)
Lemma climb_agrees_when_blown_lift_is_off
    (sqrt : Qc → Qc) (a : SpecAircraft.t) (sseg : SpecSegment.t)
    (segment : loc) (W_lb S_ft2 : num) (h : store) (w s a0 a1 hp : Qc) :
  let self := SpecAircraft.base a in
  let seg := SpecSegment.base sseg in
  h !! segment = Some seg →
  val W_lb = Some w → val S_ft2 = Some s →
  val (altitude_start_ft seg) = Some a0 →
  val (altitude_end_ft seg) = Some a1 →
  val (Hp seg) = Some hp →
  s ≠ 0 → Aircraft.CLmax_clean self ≠ 0 →
  prop_efficiency (Aircraft.tech self) ≠ 0 →
  EM_efficiency (tech (Aircraft.powertrain self)) ≠ 0 →
  GEN_efficiency (tech (Aircraft.powertrain self)) ≠ 0 →
  SpecSegment.blown_lift_active sseg = false ∨
  SpecAircraft.dep_enabled a = false →
  let W_avg := w * dec 0.99 in
  let V_climb := dec 1.3 * spec_climb_V_stall sqrt a sseg w s in
  let ROC := V_climb * dec 0.05 in
  let CL := W_avg / (dec 0.5 * dec 0.002377 * (V_climb * V_climb) * s) in
  let CD := Aircraft.CD0 self + Aircraft.K1 self * (CL * CL) in
  ¬ (dec 2 * W_avg / (dec 0.002377 * s * Aircraft.CLmax_clean self) < 0) →
  0 < ROC → w ≠ 0 → CD ≠ 0 →
  ∃ t f b,
    simulate_climb_segment sqrt self segment W_lb S_ft2 h = (Ok (t, f, b), h) ∧
    val t = Some ((a1 - a0) / ROC).
Proof.
  intros self seg Hseg HW HS Ha0 Ha1 HHp Hs HCL Hprop Hem Hgen Hoff.
  assert (HV : spec_climb_V_stall sqrt a sseg w s
               = sqrt (dec 2 * (w * dec 0.99)
                       / (dec 0.002377 * s * Aircraft.CLmax_clean self))).
  { unfold spec_climb_V_stall, get_lift_augmentation_factor,
      augmentation_factor. fold self.
    destruct Hoff as [-> | ->]; [reflexivity|].
    destruct (SpecSegment.blown_lift_active sseg); [|reflexivity].
    simpl. rewrite Qcmult_1_r. reflexivity. }
  rewrite HV. intros W_avg V_climb ROC CL CD Hx HROC Hw HCD.
  exact (climb_returns_regular sqrt self segment seg W_lb S_ft2 h
           w s a0 a1 hp Hseg HW HS Ha0 Ha1 HHp Hs HCL Hprop Hem Hgen
           Hx HROC Hw HCD).
Qed.



(** Infinities are values: with a zero drag polar the lift-to-drag ratio
    of the climb is infinite, its inverse is zero, and the climb returns
    the same duration as with any other polar. *)
Example climb_with_zero_drag_polar :
  ∃ t f b,
    simulate_climb_segment sqrt_floor aircraft_nodrag 2%positive
      (lit 8000) (lit 200) store_ex = (Ok (t, f, b), store_ex) ∧
    val t = Some ((dec 10000 - dec 35)
                  / (dec 1.3
                     * sqrt_floor (dec 2 * (dec 8000 * dec 0.99)
                                   / (dec 0.002377 * dec 200 * dec 1.5))
                     * dec 0.05)).
Proof.
  do 3 eexists. split; [vm_compute; reflexivity|].
  apply (f_equal Some). qc_eval.
Qed.

(** ** Examples of the mission *)

(** The same takeoff segment object twice in the list: the second
    simulation overwrites the fuel stored by the first. *)
Example aliased_mission :
  ∃ res h',
    simulate_mission sqrt_floor atmosisa_ex aircraft_ex
      [1%positive; 1%positive] (lit 10000) (lit 200) store_ex
    = (Ok res, h') ∧
    MissionResult.segments res = [1%positive; 1%positive] ∧
    val (MissionResult.total_fuel_lb res) = Some (dec 199) ∧
    val (total (attrs fuel_lb h' [1%positive; 1%positive])) = Some (dec 198).
Proof.
  do 2 eexists. split; [reflexivity|]. split; [reflexivity|].
  split.
  - simpl. val_eval.
  - unfold attrs, total. simpl. val_eval.
Qed.

(** C5, as stated, fails for a list that holds one segment object twice:
    the total fuel is the sum of the two burns, 199 lb, and the sum of
    the fuel stored on the returned segments is twice the second burn,
    198 lb. *)
Lemma aliased_segments_break_totals :
  ¬ (∀ (sqrt : Qc → Qc) (atmosisa : num → num * num * num * num)
       (self : Aircraft.t) (segs : list loc) (TOGW_lb S_wing_ft2 : num)
       (h h' : store) (res : MissionResult.t),
       simulate_mission sqrt atmosisa self segs TOGW_lb S_wing_ft2 h
       = (Ok res, h') →
       val (MissionResult.total_fuel_lb res)
       = val (total (attrs fuel_lb h' (MissionResult.segments res)))).
Proof.
  intros H.
  destruct aliased_mission as (res & h' & Hrun & Hsegs & Htotal & Hsum).
  specialize (H _ _ _ _ _ _ _ _ _ Hrun).
  rewrite Hsegs, Htotal, Hsum in H.
  apply (inj Some) in H. revert H. qc_neq.
Qed.

Lemma six_distinct : NoDup [1%positive; 2%positive; 3%positive;
                            4%positive; 5%positive; 6%positive].
Proof. compute_done. Qed.

Lemma simulate_mission_totals_witness :
  ∃ res h',
    simulate_mission sqrt_floor atmosisa_ex aircraft_ex
      [1%positive; 2%positive; 3%positive; 4%positive; 5%positive; 6%positive]
      (lit 8000) (lit 200) store_ex = (Ok res, h') ∧
    MissionResult.total_fuel_lb res
    = total (attrs fuel_lb h'
               [1%positive; 2%positive; 3%positive;
                4%positive; 5%positive; 6%positive]) ∧
    length (attrs fuel_lb h'
              [1%positive; 2%positive; 3%positive;
               4%positive; 5%positive; 6%positive]) = 6%nat.
Proof.
  destruct (simulate_mission sqrt_floor atmosisa_ex aircraft_ex
              [1%positive; 2%positive; 3%positive;
               4%positive; 5%positive; 6%positive]
              (lit 8000) (lit 200) store_ex) as [[res|e] h'] eqn:Hrun.
  - exists res, h'. split; [reflexivity|].
    destruct (simulate_mission_totals sqrt_floor atmosisa_ex aircraft_ex
                [1%positive; 2%positive; 3%positive;
                 4%positive; 5%positive; 6%positive]
                (lit 8000) (lit 200) store_ex h' res six_distinct Hrun)
      as (_ & Hlen & Hfuel & _).
    split; [exact Hfuel | exact Hlen].
  - exfalso. vm_compute in Hrun. discriminate Hrun.
Defined.

(** * Further properties of the powertrain *)

(** ** Signs of products and quotients *)

Lemma Qcdiv_nonneg (x y : Qc) : 0 ≤ x → 0 < y → 0 ≤ x / y.
Proof.
  intros Hx Hy. unfold Qcdiv.
  apply Qcmult_nonneg_nonneg; [exact Hx|].
  apply Qclt_le_weak, Qcinv_pos, Hy.
Qed.

Lemma Qcdiv_pos (x y : Qc) : 0 < x → 0 < y → 0 < x / y.
Proof.
  intros Hx Hy. unfold Qcdiv.
  apply Qcmult_pos_pos; [exact Hx | apply Qcinv_pos, Hy].
Qed.

Lemma Qcminus_nonneg (x y : Qc) : x ≤ y → 0 ≤ y - x.
Proof. intros H. apply Qcle_minus_iff in H. exact H. Qed.

Lemma Qcpos_nonzero (x : Qc) : 0 < x → x ≠ 0.
Proof. intros H. apply not_eq_sym, Qclt_not_eq, H. Qed.

Lemma Qcmult_pos_neg (x y : Qc) : 0 < x → y < 0 → x * y < 0.
Proof.
  intros Hx Hy. apply Qclt_minus_iff.
  replace (0 + - (x * y)) with (x * (0 - y)) by ring.
  apply Qcmult_pos_pos; [exact Hx|].
  apply Qclt_minus_iff in Hy. exact Hy.
Qed.

Lemma Qcdiv_neg_pos (x y : Qc) : x < 0 → 0 < y → x / y < 0.
Proof.
  intros Hx Hy. unfold Qcdiv. rewrite Qcmult_comm.
  apply Qcmult_pos_neg; [apply Qcinv_pos, Hy | exact Hx].
Qed.

Lemma Qcdiv_le_mono (x y z : Qc) : 0 < z → x ≤ y → x / z ≤ y / z.
Proof.
  intros Hz Hxy. unfold Qcdiv.
  apply Qcmult_le_compat_r; [exact Hxy|].
  apply Qclt_le_weak, Qcinv_pos, Hz.
Qed.

(** Signs of products and quotients, from the signs of the factors; the
    hypotheses are matched by syntax. *)
Ltac qc_sign :=
  solve [ repeat match goal with
                 | H : ?g |- ?g => exact H
                 | |- ?x ≤ ?x => apply Qcle_refl
                 | |- Q2Qc _ < Q2Qc _ => qc_lt
                 | |- Q2Qc _ ≤ Q2Qc _ => apply Qclt_le_weak; qc_lt
                 | H : ?x < ?y |- ?x ≤ ?y => apply Qclt_le_weak; exact H
                 | |- _ ≤ _ - _ => apply Qcminus_nonneg
                 | |- _ ≤ _ / _ => apply Qcdiv_nonneg
                 | |- _ < _ / _ => apply Qcdiv_pos
                 | |- _ ≤ _ * _ => apply Qcmult_nonneg_nonneg
                 | |- _ < _ * _ => apply Qcmult_pos_pos
                 end ].

(** The literal [0.0] is zero. *)
Lemma dec_zero : dec 0.0 = 0.
Proof. qc_eval. Qed.

Ltac val_field0 :=
  val_by ltac:(rewrite ?dec_zero;
               first [ solve [field; auto] | solve [unfold Qcdiv; ring] ]).

(** Two floats with the same value. *)
Ltac same_val :=
  match goal with
  | |- val _ = val _ =>
      let x := fresh "x" in
      evar (x : Qc); transitivity (Some x); subst x;
      [ solve [eauto 10 with num] | symmetry; val_field0 ]
  end.

(** ** The power split *)

(** X1: The parallel hybrid shares the required power out between the
    turbine and the motor: the two powers of the split add up to the
    required power, for every hybridization ratio, in [0,1] or not; and
    [size_components] rates the two machines to the same total. *)
Theorem parallel_split_conserves_power
    (self : Powertrain) (P Hp : num) (p h : Qc) :
  arch self = ParallelHybrid →
  val P = Some p → val Hp = Some h →
  EM_efficiency (tech self) ≠ 0 →
  EM_specific_power_kW_kg (tech self) ≠ 0 →
  GT_specific_power_kW_kg (tech self) ≠ 0 →
  ∃ r self',
    get_power_split self P Hp = Ok r ∧
    size_components P Hp self = (Ok tt, self') ∧
    val (Split.P_GT_kW r + Split.P_EM_kW r)%num = Some p ∧
    val (P_GT_kW self' + P_EM_kW self')%num = Some p.
Proof.
  intros Harch HP HHp Hem Hems Hgts.
  unfold get_power_split, size_components. rewrite Harch.
  run_split. run_sizing.
  do 2 eexists. do 2 (split; [reflexivity|]). simpl.
  split; val_field.
Qed.

Lemma parallel_split_conserves_power_witness :
  ∃ r self',
    get_power_split (PowertrainBase_init ParallelHybrid tech_ex)
      (lit 100) (lit 1.5) = Ok r ∧
    size_components (lit 100) (lit 1.5)
      (PowertrainBase_init ParallelHybrid tech_ex) = (Ok tt, self') ∧
    val (Split.P_GT_kW r + Split.P_EM_kW r)%num = Some (dec 100) ∧
    val (P_GT_kW self' + P_EM_kW self')%num = Some (dec 100).
Proof.
  apply (parallel_split_conserves_power
           (PowertrainBase_init ParallelHybrid tech_ex) (lit 100) (lit 1.5)
           (dec 100) (dec 1.5));
    first [ reflexivity | apply Q2Qc_nonzero; reflexivity ].
Defined.

(** X2: The serial hybrid balances the electrical bus: what the battery
    delivers (in kW) plus what the generator delivers (its turbine power
    times its efficiency) is the electrical power the motor draws,
    P / EM_efficiency, for every hybridization ratio. *)
Theorem serial_split_balances_the_bus
    (self : Powertrain) (P Hp : num) (p h : Qc) :
  arch self = SerialHybrid →
  val P = Some p → val Hp = Some h →
  EM_efficiency (tech self) ≠ 0 → GEN_efficiency (tech self) ≠ 0 →
  ∃ r gt bw,
    get_power_split self P Hp = Ok r ∧
    val (Split.P_GT_kW r) = Some gt ∧
    val (Split.battery_power_W r) = Some bw ∧
    bw / dec 1000 + gt * GEN_efficiency (tech self)
    = p / EM_efficiency (tech self).
Proof.
  intros Harch HP HHp Hem Hgen.
  unfold get_power_split. rewrite Harch. run_split.
  do 3 eexists. split; [reflexivity|]. simpl.
  split; [solve [eauto 10 with num]|].
  split; [solve [eauto 10 with num]|].
  assert (H1000 : dec 1000 ≠ 0) by nonzero.
  field. auto.
Qed.

Lemma serial_split_balances_the_bus_witness :
  ∃ r gt bw,
    get_power_split (PowertrainBase_init SerialHybrid tech_ex)
      (lit 100) (lit 0.25) = Ok r ∧
    val (Split.P_GT_kW r) = Some gt ∧
    val (Split.battery_power_W r) = Some bw ∧
    bw / dec 1000 + gt * GEN_efficiency tech_ex
    = dec 100 / EM_efficiency tech_ex.
Proof.
  apply (serial_split_balances_the_bus
           (PowertrainBase_init SerialHybrid tech_ex) (lit 100) (lit 0.25)
           (dec 100) (dec 0.25));
    first [ reflexivity | apply Q2Qc_nonzero; reflexivity ].
Defined.

(** X3: Every variant is linear in the required power: at a fixed
    hybridization ratio, k times the power gives k times each of the four
    entries of the split. *)
Theorem power_split_scales_with_power
    (self : Powertrain) (P P' Hp : num) (p h k : Qc) :
  val P = Some p → val P' = Some (k * p) → val Hp = Some h →
  EM_efficiency (tech self) ≠ 0 → GEN_efficiency (tech self) ≠ 0 →
  ∃ r r' gt em fr bp,
    get_power_split self P Hp = Ok r ∧
    get_power_split self P' Hp = Ok r' ∧
    val (Split.P_GT_kW r) = Some gt ∧
    val (Split.P_EM_kW r) = Some em ∧
    val (Split.fuel_rate_kg_s r) = Some fr ∧
    val (Split.battery_power_W r) = Some bp ∧
    val (Split.P_GT_kW r') = Some (k * gt) ∧
    val (Split.P_EM_kW r') = Some (k * em) ∧
    val (Split.fuel_rate_kg_s r') = Some (k * fr) ∧
    val (Split.battery_power_W r') = Some (k * bp).
Proof.
  intros HP HP' HHp Hem Hgen. unfold get_power_split.
  assert (H3600 : dec 3600 ≠ 0) by nonzero.
  destruct (arch self); run_split;
    do 6 eexists; do 2 (split; [reflexivity|]); simpl;
    (split; [solve [eauto 10 with num]|]);
    (split; [solve [eauto 10 with num]|]);
    (split; [solve [eauto 10 with num]|]);
    (split; [solve [eauto 10 with num]|]);
    repeat split; val_field0.
Qed.

Lemma power_split_scales_with_power_witness :
  ∃ r r' gt em fr bp,
    get_power_split (PowertrainBase_init SerialHybrid tech_ex)
      (lit 100) (lit 0.25) = Ok r ∧
    get_power_split (PowertrainBase_init SerialHybrid tech_ex)
      (PyF (dec 3 * dec 100)) (lit 0.25) = Ok r' ∧
    val (Split.P_GT_kW r) = Some gt ∧
    val (Split.P_EM_kW r) = Some em ∧
    val (Split.fuel_rate_kg_s r) = Some fr ∧
    val (Split.battery_power_W r) = Some bp ∧
    val (Split.P_GT_kW r') = Some (dec 3 * gt) ∧
    val (Split.P_EM_kW r') = Some (dec 3 * em) ∧
    val (Split.fuel_rate_kg_s r') = Some (dec 3 * fr) ∧
    val (Split.battery_power_W r') = Some (dec 3 * bp).
Proof.
  apply (power_split_scales_with_power
           (PowertrainBase_init SerialHybrid tech_ex)
           (lit 100) (PyF (dec 3 * dec 100)) (lit 0.25)
           (dec 100) (dec 0.25) (dec 3));
    first [ reflexivity | apply Q2Qc_nonzero; reflexivity ].
Defined.

(** X4: More hybridization never costs more fuel and never spares the
    battery: for a non-negative power, in the parallel and in the serial
    hybrid, a larger hybridization ratio gives a fuel rate that is not
    larger and a battery power that is not smaller. *)
Theorem hybrid_split_monotone_in_ratio
    (self : Powertrain) (P Hp1 Hp2 : num) (p h1 h2 : Qc) :
  arch self = ParallelHybrid ∨ arch self = SerialHybrid →
  val P = Some p → val Hp1 = Some h1 → val Hp2 = Some h2 →
  0 ≤ p → h1 ≤ h2 →
  0 ≤ GT_BSFC_kg_kWh (tech self) →
  0 < EM_efficiency (tech self) → 0 < GEN_efficiency (tech self) →
  ∃ r1 r2 f1 f2 b1 b2,
    get_power_split self P Hp1 = Ok r1 ∧
    get_power_split self P Hp2 = Ok r2 ∧
    val (Split.fuel_rate_kg_s r1) = Some f1 ∧
    val (Split.fuel_rate_kg_s r2) = Some f2 ∧
    val (Split.battery_power_W r1) = Some b1 ∧
    val (Split.battery_power_W r2) = Some b2 ∧
    f2 ≤ f1 ∧ b1 ≤ b2.
Proof.
  intros Harch HP HHp1 HHp2 Hp0 Hh Hbsfc Hem Hgen.
  pose proof (Qcpos_nonzero _ Hem) as Hem0.
  pose proof (Qcpos_nonzero _ Hgen) as Hgen0.
  assert (H1h : 1 - h2 ≤ 1 - h1).
  { apply Qcplus_le_compat; [apply Qcle_refl | apply Qcopp_le_compat, Hh]. }
  unfold get_power_split.
  destruct Harch as [-> | ->]; run_split;
    do 6 eexists; do 2 (split; [reflexivity|]); simpl;
    (split; [solve [eauto 10 with num]|]);
    (split; [solve [eauto 10 with num]|]);
    (split; [solve [eauto 10 with num]|]);
    (split; [solve [eauto 10 with num]|]);
    split.
  - apply Qcdiv_le_mono; [qc_sign|].
    apply Qcmult_le_compat_r; [|exact Hbsfc].
    apply Qcmult_le_mono_nonneg_l; assumption.
  - apply Qcdiv_le_mono; [exact Hem|].
    apply Qcmult_le_compat_r; [|qc_sign].
    apply Qcmult_le_mono_nonneg_l; assumption.
  - apply Qcdiv_le_mono; [qc_sign|].
    apply Qcmult_le_compat_r; [|exact Hbsfc].
    apply Qcdiv_le_mono; [exact Hgen|].
    apply Qcmult_le_mono_nonneg_l; [qc_sign | exact H1h].
  - apply Qcmult_le_compat_r; [|qc_sign].
    apply Qcmult_le_mono_nonneg_l; [qc_sign | exact Hh].
Qed.

Lemma hybrid_split_monotone_in_ratio_witness :
  ∃ r1 r2 f1 f2 b1 b2,
    get_power_split (PowertrainBase_init SerialHybrid tech_ex)
      (lit 100) (lit 0.25) = Ok r1 ∧
    get_power_split (PowertrainBase_init SerialHybrid tech_ex)
      (lit 100) (lit 0.5) = Ok r2 ∧
    val (Split.fuel_rate_kg_s r1) = Some f1 ∧
    val (Split.fuel_rate_kg_s r2) = Some f2 ∧
    val (Split.battery_power_W r1) = Some b1 ∧
    val (Split.battery_power_W r2) = Some b2 ∧
    f2 ≤ f1 ∧ b1 ≤ b2.
Proof.
  apply (hybrid_split_monotone_in_ratio
           (PowertrainBase_init SerialHybrid tech_ex)
           (lit 100) (lit 0.25) (lit 0.5) (dec 100) (dec 0.25) (dec 0.5));
    first [ right; reflexivity | reflexivity | qc_lt
          | apply Qclt_le_weak; qc_lt ].
Defined.

(** X5: With floats taken as exact rationals, at a hybridization ratio
    of 1 both hybrids are the fully electric powertrain: for the same
    constants and the same power, the parallel and the serial hybrid
    return the split of the fully electric variant, entry by entry, and
    are sized to its total propulsion weight.  (The serial hybrid
    computes its battery power as (P/EM_efficiency)*1*1000 and the fully
    electric variant as (P*1000)/EM_efficiency: in the code the two can
    differ in the last digit.) *)
Theorem hybrids_at_one_are_fully_electric
    (el par ser : Powertrain) (P : num) (p : Qc) :
  arch el = FullyElectric → arch par = ParallelHybrid →
  arch ser = SerialHybrid →
  tech par = tech el → tech ser = tech el →
  val P = Some p →
  EM_efficiency (tech el) ≠ 0 → GEN_efficiency (tech el) ≠ 0 →
  EM_specific_power_kW_kg (tech el) ≠ 0 →
  GEN_specific_power_kW_kg (tech el) ≠ 0 →
  GT_specific_power_kW_kg (tech el) ≠ 0 →
  ∃ re rp rs el' par' ser',
    get_power_split el P (lit 1.0) = Ok re ∧
    get_power_split par P (lit 1) = Ok rp ∧
    get_power_split ser P (lit 1) = Ok rs ∧
    size_components P (lit 1.0) el = (Ok tt, el') ∧
    size_components P (lit 1) par = (Ok tt, par') ∧
    size_components P (lit 1) ser = (Ok tt, ser') ∧
    Forall (λ r,
              val (Split.P_GT_kW r) = val (Split.P_GT_kW re) ∧
              val (Split.P_EM_kW r) = val (Split.P_EM_kW re) ∧
              val (Split.fuel_rate_kg_s r) = val (Split.fuel_rate_kg_s re) ∧
              val (Split.battery_power_W r) = val (Split.battery_power_W re))
           [rp; rs] ∧
    Forall (λ s,
              val (get_total_propulsion_weight s)
              = val (get_total_propulsion_weight el'))
           [par'; ser'].
Proof.
  intros Hel Hpar Hser Htp Hts HP Hem Hgen Hems Hgens Hgts.
  unfold get_power_split, size_components, get_total_propulsion_weight.
  rewrite Hel, Hpar, Hser.
  unfold ConventionalPowertrain.get_power_split,
    ParallelHybridPowertrain.get_power_split,
    SerialHybridPowertrain.get_power_split,
    FullyElectricPowertrain.get_power_split.
  rewrite ?Htp, ?Hts. repeat div_step.
  unfold ConventionalPowertrain.size_components,
    ParallelHybridPowertrain.size_components,
    SerialHybridPowertrain.size_components,
    FullyElectricPowertrain.size_components.
  unfold mbind, M_bind, modify, reads. simpl.
  rewrite ?Htp, ?Hts. repeat div_step.
  do 6 eexists. do 6 (split; [reflexivity|]). simpl.
  assert (H3600 : dec 3600 ≠ 0) by nonzero.
  split; repeat (apply Forall_cons; split); try apply Forall_nil_2;
    repeat split;
    cbv [m_GT_lb m_EM_lb m_GEN_lb set_m_GT_lb set_m_EM_lb set_m_GEN_lb
         set_P_GT_kW set_P_EM_kW set_P_GEN_kW];
    match goal with
    | |- val _ = val _ => same_val
    | |- val _ = Some _ => val_field0
    end.
Qed.

Lemma hybrids_at_one_are_fully_electric_witness :
  ∃ re rp rs el' par' ser',
    get_power_split (PowertrainBase_init FullyElectric tech_ex)
      (lit 100) (lit 1.0) = Ok re ∧
    get_power_split (PowertrainBase_init ParallelHybrid tech_ex)
      (lit 100) (lit 1) = Ok rp ∧
    get_power_split (PowertrainBase_init SerialHybrid tech_ex)
      (lit 100) (lit 1) = Ok rs ∧
    size_components (lit 100) (lit 1.0)
      (PowertrainBase_init FullyElectric tech_ex) = (Ok tt, el') ∧
    size_components (lit 100) (lit 1)
      (PowertrainBase_init ParallelHybrid tech_ex) = (Ok tt, par') ∧
    size_components (lit 100) (lit 1)
      (PowertrainBase_init SerialHybrid tech_ex) = (Ok tt, ser') ∧
    Forall (λ r,
              val (Split.P_GT_kW r) = val (Split.P_GT_kW re) ∧
              val (Split.P_EM_kW r) = val (Split.P_EM_kW re) ∧
              val (Split.fuel_rate_kg_s r) = val (Split.fuel_rate_kg_s re) ∧
              val (Split.battery_power_W r) = val (Split.battery_power_W re))
           [rp; rs] ∧
    Forall (λ s,
              val (get_total_propulsion_weight s)
              = val (get_total_propulsion_weight el'))
           [par'; ser'].
Proof.
  apply (hybrids_at_one_are_fully_electric
           (PowertrainBase_init FullyElectric tech_ex)
           (PowertrainBase_init ParallelHybrid tech_ex)
           (PowertrainBase_init SerialHybrid tech_ex)
           (lit 100) (dec 100));
    first [ reflexivity | apply Q2Qc_nonzero; reflexivity ].
Defined.

(** ** Sizing *)

(** X6: Sizing and split agree: on a newly constructed powertrain of any
    variant, [size_components] rates the turbine and the motor at the
    powers that [get_power_split] returns for the same shaft power and
    hybridization ratio. *)
Theorem sizing_agrees_with_split
    (a : Architecture) (t : TechnologySpec) (P Hp : num) (p h : Qc) :
  val P = Some p → val Hp = Some h →
  EM_efficiency t ≠ 0 → GEN_efficiency t ≠ 0 →
  EM_specific_power_kW_kg t ≠ 0 → GEN_specific_power_kW_kg t ≠ 0 →
  GT_specific_power_kW_kg t ≠ 0 →
  ∃ self' r,
    size_components P Hp (PowertrainBase_init a t) = (Ok tt, self') ∧
    get_power_split self' P Hp = Ok r ∧
    val (P_GT_kW self') = val (Split.P_GT_kW r) ∧
    val (P_EM_kW self') = val (Split.P_EM_kW r).
Proof.
  intros HP HHp Hem Hgen Hems Hgens Hgts.
  unfold size_components, get_power_split.
  destruct a; simpl; run_sizing;
    match goal with
    | |- ∃ self' r, (Ok tt, ?s) = _ ∧ _ => exists s
    end;
    simpl; run_split;
    eexists; do 2 (split; [reflexivity|]); simpl in *;
    split; first [ reflexivity | same_val ].
Qed.

Lemma sizing_agrees_with_split_witness :
  ∃ self' r,
    size_components (lit 100) (lit 0.25) (PowertrainBase_init SerialHybrid tech_ex)
    = (Ok tt, self') ∧
    get_power_split self' (lit 100) (lit 0.25) = Ok r ∧
    val (P_GT_kW self') = val (Split.P_GT_kW r) ∧
    val (P_EM_kW self') = val (Split.P_EM_kW r).
Proof.
  apply (sizing_agrees_with_split SerialHybrid tech_ex (lit 100) (lit 0.25)
           (dec 100) (dec 0.25));
    first [ reflexivity | apply Q2Qc_nonzero; reflexivity ].
Defined.

(** X7: The last sizing wins: sizing an object that was sized before, with
    whatever power and ratio, leaves it exactly as sizing it the first
    time would. *)
Theorem resizing_forgets_the_previous_sizing
    (self s1 s2 : Powertrain) (P1 Hp1 P2 Hp2 : num) :
  size_components P1 Hp1 self = (Ok tt, s1) →
  size_components P2 Hp2 self = (Ok tt, s2) →
  size_components P2 Hp2 s1 = (Ok tt, s2).
Proof.
  unfold size_components.
  unfold ConventionalPowertrain.size_components,
    ParallelHybridPowertrain.size_components,
    SerialHybridPowertrain.size_components,
    FullyElectricPowertrain.size_components.
  unfold mbind, M_bind, modify, reads.
  destruct self as [a t mgt mem mgen mb mf pgt pem pgen]. simpl.
  destruct a; simpl; intros H1 H2;
    repeat match type of H1 with
           | context [?x /? ?y] =>
               destruct (x /? y) eqn:?; simpl in H1; [|discriminate H1]
           end;
    inversion H1; subst s1; clear H1; simpl;
    repeat match type of H2 with
           | context [?x /? ?y] =>
               let E := fresh "E" in
               destruct (x /? y) eqn:E; simpl in H2;
               [ rewrite ?E; simpl | discriminate H2]
           end;
    inversion H2; subst s2; reflexivity.
Qed.

Lemma resizing_forgets_the_previous_sizing_witness :
  ∃ s1 s2,
    size_components (lit 100) (lit 0.25) (PowertrainBase_init ParallelHybrid tech_ex)
    = (Ok tt, s1) ∧
    size_components (lit 60) (lit 0.5) (PowertrainBase_init ParallelHybrid tech_ex)
    = (Ok tt, s2) ∧
    size_components (lit 60) (lit 0.5) s1 = (Ok tt, s2).
Proof.
  do 2 eexists. split; [reflexivity|]. split; [reflexivity|].
  apply (resizing_forgets_the_previous_sizing
           (PowertrainBase_init ParallelHybrid tech_ex) _ _
           (lit 100) (lit 0.25) (lit 60) (lit 0.5));
    reflexivity.
Defined.

(** X8: A sizing that fails is not undone: with a zero constant in the
    configuration (a specific power, or the motor efficiency of the
    serial hybrid) the first division raises ZeroDivisionError after
    power ratings have been assigned, so the object keeps the new
    ratings beside the masses of before. *)
Theorem failed_sizing_keeps_the_new_ratings
    (self : Powertrain) (p h : Qc) :
  (arch self = Conventional → GT_specific_power_kW_kg (tech self) = 0 →
   size_components (PyF p) (PyF h) self
   = (Raise ZeroDivisionError, set_P_GT_kW (PyF p) self)) ∧
  (arch self = FullyElectric → EM_specific_power_kW_kg (tech self) = 0 →
   size_components (PyF p) (PyF h) self
   = (Raise ZeroDivisionError, set_P_EM_kW (PyF p) self)) ∧
  (arch self = ParallelHybrid → EM_specific_power_kW_kg (tech self) = 0 →
   size_components (PyF p) (PyF h) self
   = (Raise ZeroDivisionError,
      set_P_GT_kW (PyF (p * (1 - h))) (set_P_EM_kW (PyF (p * h)) self))) ∧
  (arch self = SerialHybrid → EM_efficiency (tech self) = 0 →
   size_components (PyF p) (PyF h) self
   = (Raise ZeroDivisionError, set_P_EM_kW (PyF p) self)).
Proof.
  unfold size_components.
  unfold ConventionalPowertrain.size_components,
    ParallelHybridPowertrain.size_components,
    SerialHybridPowertrain.size_components,
    FullyElectricPowertrain.size_components.
  unfold mbind, M_bind, modify, reads.
  repeat split; intros -> Hz; simpl; rewrite Hz;
    unfold nmul, nsub, arith, lit; rewrite ndiv_PyF_zero; reflexivity.
Qed.

Lemma failed_sizing_keeps_the_new_ratings_witness :
  size_components (PyF (dec 100)) (PyF (dec 0.25))
    (PowertrainBase_init ParallelHybrid tech_zero)
  = (Raise ZeroDivisionError,
     set_P_GT_kW (PyF (dec 100 * (1 - dec 0.25)))
       (set_P_EM_kW (PyF (dec 100 * dec 0.25))
          (PowertrainBase_init ParallelHybrid tech_zero))).
Proof.
  apply (failed_sizing_keeps_the_new_ratings
           (PowertrainBase_init ParallelHybrid tech_zero) (dec 100) (dec 0.25));
    reflexivity.
Defined.

(** X9: With a non-negative shaft power, a hybridization ratio in [0,1] and
    positive constants, no variant sizes a component to a negative mass,
    and the total propulsion weight is the sum of the three masses that
    the sizing has just set, whatever the object held before. *)
Theorem sized_masses_are_not_negative
    (self : Powertrain) (P Hp : num) (p h : Qc) :
  val P = Some p → val Hp = Some h →
  0 ≤ p → 0 ≤ h ≤ 1 →
  0 < EM_efficiency (tech self) → 0 < GEN_efficiency (tech self) →
  0 < EM_specific_power_kW_kg (tech self) →
  0 < GEN_specific_power_kW_kg (tech self) →
  0 < GT_specific_power_kW_kg (tech self) →
  ∃ self' gt em gen,
    size_components P Hp self = (Ok tt, self') ∧
    val (m_GT_lb self') = Some gt ∧
    val (m_EM_lb self') = Some em ∧
    val (m_GEN_lb self') = Some gen ∧
    0 ≤ gt ∧ 0 ≤ em ∧ 0 ≤ gen ∧
    val (get_total_propulsion_weight self') = Some (gt + em + gen) ∧
    0 ≤ gt + em + gen.
Proof.
  intros HP HHp Hp0 [Hh0 Hh1] Hem Hgen Hems Hgens Hgts.
  pose proof (Qcpos_nonzero _ Hem). pose proof (Qcpos_nonzero _ Hgen).
  pose proof (Qcpos_nonzero _ Hems). pose proof (Qcpos_nonzero _ Hgens).
  pose proof (Qcpos_nonzero _ Hgts).
  assert (Hsum : ∀ x y z : Qc, 0 ≤ x → 0 ≤ y → 0 ≤ z → 0 ≤ x + y + z).
  { intros x y z Hx Hy Hz.
    change 0 with (0 + 0 + 0).
    repeat apply Qcplus_le_compat; assumption. }
  unfold size_components, get_total_propulsion_weight.
  destruct (arch self); run_sizing;
    do 4 eexists; (split; [reflexivity|]); simpl;
    (split; [solve [eauto 10 with num]|]);
    (split; [solve [eauto 10 with num]|]);
    (split; [solve [eauto 10 with num]|]);
    match goal with
    | |- 0 ≤ ?x ∧ 0 ≤ ?y ∧ 0 ≤ ?z ∧ _ =>
        assert (Hgt : 0 ≤ x) by (rewrite ?dec_zero; qc_sign);
        assert (Hem' : 0 ≤ y) by (rewrite ?dec_zero; qc_sign);
        assert (Hgen' : 0 ≤ z) by (rewrite ?dec_zero; qc_sign)
    end;
    (split; [exact Hgt|]); (split; [exact Hem'|]); (split; [exact Hgen'|]);
    (split; [solve [eauto 10 with num]
            | apply Hsum; [exact Hgt | exact Hem' | exact Hgen'] ]).
Qed.

Lemma sized_masses_are_not_negative_witness :
  ∃ self' gt em gen,
    size_components (lit 100) (lit 0.25) (PowertrainBase_init SerialHybrid tech_ex)
    = (Ok tt, self') ∧
    val (m_GT_lb self') = Some gt ∧
    val (m_EM_lb self') = Some em ∧
    val (m_GEN_lb self') = Some gen ∧
    0 ≤ gt ∧ 0 ≤ em ∧ 0 ≤ gen ∧
    val (get_total_propulsion_weight self') = Some (gt + em + gen) ∧
    0 ≤ gt + em + gen.
Proof.
  apply (sized_masses_are_not_negative
           (PowertrainBase_init SerialHybrid tech_ex) (lit 100) (lit 0.25)
           (dec 100) (dec 0.25));
    first [ reflexivity | qc_lt | apply Qclt_le_weak; qc_lt
          | split; apply Qclt_le_weak; qc_lt ].
Defined.

(** X10: Nothing keeps the ratio below 1: a parallel hybrid sized for a
    positive shaft power at a hybridization ratio above 1 gets a negative
    turbine rating and a negative turbine mass, and a motor rated above
    the shaft power. *)
Theorem parallel_sizing_above_one_is_negative
    (self : Powertrain) (P Hp : num) (p h : Qc) :
  arch self = ParallelHybrid →
  val P = Some p → val Hp = Some h →
  0 < p → 1 < h →
  0 < EM_specific_power_kW_kg (tech self) →
  0 < GT_specific_power_kW_kg (tech self) →
  ∃ self' pgt mgt pem,
    size_components P Hp self = (Ok tt, self') ∧
    val (P_GT_kW self') = Some pgt ∧ pgt < 0 ∧
    val (m_GT_lb self') = Some mgt ∧ mgt < 0 ∧
    val (P_EM_kW self') = Some pem ∧ p < pem.
Proof.
  intros Harch HP HHp Hp0 Hh Hems Hgts.
  pose proof (Qcpos_nonzero _ Hems). pose proof (Qcpos_nonzero _ Hgts).
  assert (H1h : 1 - h < 0).
  { apply Qclt_minus_iff. replace (0 + - (1 - h)) with (h + - 1) by ring.
    apply Qclt_minus_iff in Hh. exact Hh. }
  assert (Hpgt : p * (1 - h) < 0) by (apply Qcmult_pos_neg; assumption).
  unfold size_components. rewrite Harch. run_sizing.
  do 4 eexists. split; [reflexivity|]. simpl.
  split; [solve [eauto 10 with num]|]. split; [exact Hpgt|].
  split; [solve [eauto 10 with num]|]. split.
  - rewrite Qcmult_comm. apply Qcmult_pos_neg; [qc_lt|].
    apply Qcdiv_neg_pos; [exact Hpgt | exact Hgts].
  - split; [solve [eauto 10 with num]|].
    rewrite <- (Qcmult_1_r p) at 1.
    apply Qclt_minus_iff.
    replace (p * h + - (p * 1)) with (p * (h - 1)) by ring.
    apply Qcmult_pos_pos; [exact Hp0|].
    apply Qclt_minus_iff in Hh. exact Hh.
Qed.

Lemma parallel_sizing_above_one_is_negative_witness :
  ∃ self' pgt mgt pem,
    size_components (lit 100) (lit 1.5) (PowertrainBase_init ParallelHybrid tech_ex)
    = (Ok tt, self') ∧
    val (P_GT_kW self') = Some pgt ∧ pgt < 0 ∧
    val (m_GT_lb self') = Some mgt ∧ mgt < 0 ∧
    val (P_EM_kW self') = Some pem ∧ dec 100 < pem.
Proof.
  apply (parallel_sizing_above_one_is_negative
           (PowertrainBase_init ParallelHybrid tech_ex) (lit 100) (lit 1.5)
           (dec 100) (dec 1.5));
    first [ reflexivity | qc_lt ].
Defined.

(** ** The configuration *)

(** X11: With floats taken as exact rationals, [from_config] turns the
    two percentages of the battery into fractions: the state-of-charge
    margin and the depth of discharge are fractions in [0,1] exactly
    when the configured percentages are in [0,100], a larger percentage
    gives a larger fraction, and times 100 the fractions give the
    percentages back. *)
Theorem from_config_percentages (cfg cfg' : list string → Qc) :
  let soc c := c ["hybrid_system"; "battery"; "SOC_margin_percent"] in
  let dod c := c ["hybrid_system"; "battery"; "depth_of_discharge_percent"] in
  (0 ≤ battery_SOC_margin (from_config cfg) ≤ 1 ↔ 0 ≤ soc cfg ≤ dec 100) ∧
  (0 ≤ battery_DOD (from_config cfg) ≤ 1 ↔ 0 ≤ dod cfg ≤ dec 100) ∧
  (battery_SOC_margin (from_config cfg) ≤ battery_SOC_margin (from_config cfg')
   ↔ soc cfg ≤ soc cfg') ∧
  (battery_DOD (from_config cfg) ≤ battery_DOD (from_config cfg')
   ↔ dod cfg ≤ dod cfg') ∧
  battery_SOC_margin (from_config cfg) * dec 100 = soc cfg ∧
  battery_DOD (from_config cfg) * dec 100 = dod cfg.
Proof.
  cbv zeta. unfold from_config. cbn [battery_SOC_margin battery_DOD].
  assert (H100 : dec 100 ≠ 0) by nonzero.
  assert (P100 : 0 < dec 100) by qc_lt.
  assert (Hback : ∀ x : Qc, x / dec 100 * dec 100 = x)
    by (intros x; field; exact H100).
  assert (Hmono : ∀ x y : Qc, x / dec 100 ≤ y / dec 100 ↔ x ≤ y).
  { intros x y.
    rewrite (Qcmult_le_mono_pos_r (x / dec 100) (y / dec 100) (dec 100) P100).
    rewrite !Hback. reflexivity. }
  assert (Hiff : ∀ x : Qc, 0 ≤ x / dec 100 ≤ 1 ↔ 0 ≤ x ≤ dec 100).
  { intros x.
    rewrite (Qcmult_le_mono_pos_r 0 (x / dec 100) (dec 100) P100).
    rewrite (Qcmult_le_mono_pos_r (x / dec 100) 1 (dec 100) P100).
    rewrite Hback, Qcmult_0_l, Qcmult_1_l. reflexivity. }
  split; [apply Hiff|]. split; [apply Hiff|].
  split; [apply Hmono|]. split; [apply Hmono|].
  split; apply Hback.
Qed.

(** * Further properties of the mission simulator *)

Section SegmentRuns.

Variable sqrt : Qc → Qc.
Variable atmosisa : num → num * num * num * num.

(** Running a computation to its end, one outcome at a time. *)
Ltac step_run H :=
  repeat (rewrite ?lookup_singleton_eq, ?H; simpl; try reflexivity;
          match goal with
          | |- context [match ?a /? ?b with Ok _ => _ | Raise _ => _ end] =>
              destruct (a /? b)
          | |- context [match get_power_split ?p ?x ?y with
                        | Ok _ => _ | Raise _ => _ end] =>
              destruct (get_power_split p x y)
          | |- context [if ngt ?a ?b then _ else _] =>
              destruct (ngt a b)
          | |- context [atmosisa ?x] =>
              destruct (atmosisa x) as [[[? ?] ?] ?]
          end).

(** The simulation of a segment in any store is the simulation of the
    segment alone: only a cruise segment is written to (its distance),
    and a failed simulation writes nothing. *)
Lemma simulate_segment_alone
    (self : Aircraft.t) (l : loc) (seg : MissionSegment)
    (W_lb S_ft2 : num) (h : store) :
  h !! l = Some seg →
  simulate_segment sqrt atmosisa self l W_lb S_ft2 h
  = match segment_result sqrt atmosisa self seg W_lb S_ft2 with
    | Ok r =>
        (Ok r, if String.eqb (name seg) "cruise"
               then <[l := set_distance_nm (Aircraft.range_nm self) seg]> h
               else h)
    | Raise e => (Raise e, h)
    end.
Proof.
  intros Hseg.
  unfold segment_result, simulate_segment, simulate_cruise_segment,
    simulate_climb_segment, simulate_descent_segment, simulate_simple_segment.
  unfold mbind, M_bind, mret, M_ret, lift, getattr, setattr.
  rewrite !lookup_singleton_eq, Hseg. 
  destruct (String.eqb (name seg) "cruise");
    [|destruct (String.eqb (name seg) "climb");
      [|destruct (String.eqb (name seg) "descent")]];
    simpl; rewrite ?lookup_singleton_eq, ?Hseg; simpl; try reflexivity.
  - step_run Hseg.
  - step_run Hseg.
Qed.

Lemma simulate_segment_dangling
    (self : Aircraft.t) (l : loc) (W_lb S_ft2 : num) (h : store) :
  h !! l = None →
  simulate_segment sqrt atmosisa self l W_lb S_ft2 h = (Raise Dangling, h).
Proof.
  intros Hl. unfold simulate_segment, mbind, M_bind, getattr.
  rewrite Hl. reflexivity.
Qed.

(** The results of a segment are computed from its inputs. *)
Lemma segment_result_inputs
    (self : Aircraft.t) (s s' : MissionSegment) (W_lb S_ft2 : num) :
  same_inputs s s' →
  segment_result sqrt atmosisa self s W_lb S_ft2
  = segment_result sqrt atmosisa self s' W_lb S_ft2.
Proof.
  destruct s as [n a0 a1 hp t f b d], s' as [n' a0' a1' hp' t' f' b' d'].
  intros (Hn & Ha0 & Ha1 & Hhp). simpl in *. subst n' a0' a1' hp'.
  unfold segment_result, simulate_segment, simulate_cruise_segment,
    simulate_climb_segment, simulate_descent_segment, simulate_simple_segment.
  unfold mbind, M_bind, mret, M_ret, lift, getattr, setattr.
  rewrite !lookup_singleton_eq. simpl.
  destruct (String.eqb n "cruise");
    [|destruct (String.eqb n "climb");
      [|destruct (String.eqb n "descent")]];
    simpl; rewrite ?lookup_singleton_eq; simpl; try reflexivity.
  - step_run I.
  - step_run I.
Qed.

Lemma same_inputs_refl (s : MissionSegment) : same_inputs s s.
Proof. repeat split. Qed.

Lemma same_inputs_sym (s s' : MissionSegment) :
  same_inputs s s' → same_inputs s' s.
Proof. intros (? & ? & ? & ?). repeat split; auto. Qed.

Lemma same_inputs_trans (s1 s2 s3 : MissionSegment) :
  same_inputs s1 s2 → same_inputs s2 s3 → same_inputs s1 s3.
Proof.
  intros (? & ? & ? & ?) (? & ? & ? & ?).
  repeat split; etransitivity; eauto.
Qed.

Lemma same_inputs_after (self : Aircraft.t) (seg : MissionSegment)
    (r : num * num * num) :
  same_inputs seg (segment_after self seg r).
Proof.
  destruct r as [[t f] b]. unfold segment_after.
  destruct (String.eqb (name seg) "cruise"); repeat split.
Qed.

(** Storing the same results twice is storing them once. *)
Lemma segment_after_twice (self : Aircraft.t) (seg : MissionSegment)
    (r : num * num * num) :
  segment_after self (segment_after self seg r) r = segment_after self seg r.
Proof.
  destruct r as [[t f] b], seg as [n a0 a1 hp t0 f0 b0 d0].
  unfold segment_after. simpl.
  destruct (String.eqb n "cruise") eqn:E; simpl; rewrite ?E; reflexivity.
Qed.

(** One turn of the loop of [simulate_mission], on a live segment. *)
Lemma mission_loop_cons
    (self : Aircraft.t) (S_wing_ft2 : num) (l : loc) (rest : list loc)
    (v : locals) (h : store) (seg : MissionSegment) :
  h !! l = Some seg →
  mission_loop sqrt atmosisa self S_wing_ft2 (l :: rest) v h
  = match segment_result sqrt atmosisa self seg (W_current_lb v) S_wing_ft2 with
    | Ok (t, f, b) =>
        mission_loop sqrt atmosisa self S_wing_ft2 rest
          {| W_current_lb := (W_current_lb v - f)%num;
             acc_fuel_lb := (acc_fuel_lb v + f)%num;
             acc_battery_Wh := (acc_battery_Wh v + b)%num;
             acc_time_sec := (acc_time_sec v + t)%num |}
          (<[l := segment_after self seg (t, f, b)]> h)
    | Raise e => (Raise e, h)
    end.
Proof.
  intros Hseg. simpl. unfold mbind, M_bind at 1.
  rewrite (simulate_segment_alone self l seg _ _ h Hseg).
  destruct (segment_result sqrt atmosisa self seg (W_current_lb v) S_wing_ft2)
    as [[[t f] b]|e]; [|reflexivity].
  unfold mbind, M_bind, setattr, segment_after.
  destruct (String.eqb (name seg) "cruise").
  - repeat (rewrite lookup_insert_eq; rewrite insert_insert_eq).
    reflexivity.
  - rewrite Hseg.
    repeat (rewrite lookup_insert_eq; rewrite insert_insert_eq).
    reflexivity.
Qed.

Lemma mission_loop_dangling
    (self : Aircraft.t) (S_wing_ft2 : num) (l : loc) (rest : list loc)
    (v : locals) (h : store) :
  h !! l = None →
  mission_loop sqrt atmosisa self S_wing_ft2 (l :: rest) v h
  = (Raise Dangling, h).
Proof.
  intros Hl. simpl. unfold mbind, M_bind at 1.
  rewrite (simulate_segment_dangling self l _ _ h Hl). reflexivity.
Qed.

(** The loop over a list in two parts. *)
Lemma mission_loop_app
    (self : Aircraft.t) (S_wing_ft2 : num) (pre post : list loc) :
  ∀ (v : locals) (h : store),
    mission_loop sqrt atmosisa self S_wing_ft2 (pre ++ post) v h
    = match mission_loop sqrt atmosisa self S_wing_ft2 pre v h with
      | (Ok v1, h1) => mission_loop sqrt atmosisa self S_wing_ft2 post v1 h1
      | (Raise e, h1) => (Raise e, h1)
      end.
Proof.
  induction pre as [|l pre IH]; intros v h; [reflexivity|].
  rewrite <- app_comm_cons.
  destruct (h !! l) as [seg|] eqn:Hl.
  - rewrite !(mission_loop_cons self _ l _ v h seg Hl).
    destruct (segment_result sqrt atmosisa self seg (W_current_lb v) S_wing_ft2)
      as [[[t f] b]|e]; [apply IH | reflexivity].
  - rewrite !(mission_loop_dangling self _ l _ v h Hl). reflexivity.
Qed.

Lemma same_missions_refl (h : store) : same_missions h h.
Proof.
  intros l. destruct (h !! l); constructor. apply same_inputs_refl.
Qed.

Lemma same_missions_sym (h1 h2 : store) :
  same_missions h1 h2 → same_missions h2 h1.
Proof.
  intros H l. destruct (H l); constructor. apply same_inputs_sym; assumption.
Qed.

Lemma same_missions_trans (h1 h2 h3 : store) :
  same_missions h1 h2 → same_missions h2 h3 → same_missions h1 h3.
Proof.
  intros H12 H23 l. specialize (H12 l). specialize (H23 l).
  destruct H12 as [s1 s2 E12|]; inversion H23; subst; constructor.
  eapply same_inputs_trans; eauto.
Qed.

Lemma same_missions_insert (h1 h2 : store) (l : loc) (s1 s2 : MissionSegment) :
  same_missions h1 h2 → same_inputs s1 s2 →
  same_missions (<[l := s1]> h1) (<[l := s2]> h2).
Proof.
  intros H Hs l'. destruct (decide (l' = l)) as [->|Hne].
  - rewrite !lookup_insert_eq. constructor. exact Hs.
  - rewrite !lookup_insert_ne by auto. apply H.
Qed.

Lemma same_missions_insert_l (h1 h2 : store) (l : loc) (s s1 : MissionSegment) :
  same_missions h1 h2 → h1 !! l = Some s → same_inputs s s1 →
  same_missions (<[l := s1]> h1) h2.
Proof.
  intros H Hl Hs l'. destruct (decide (l' = l)) as [->|Hne].
  - rewrite lookup_insert_eq. specialize (H l). rewrite Hl in H.
    inversion H; subst. constructor.
    eapply same_inputs_trans; [apply same_inputs_sym; exact Hs | assumption].
  - rewrite lookup_insert_ne by auto. apply H.
Qed.

(** The loop changes results only, and only on the listed segments,
    whether it ends or raises. *)
Lemma mission_loop_writes_results_only
    (self : Aircraft.t) (S_wing_ft2 : num) (segs : list loc) :
  ∀ (v : locals) (h : store),
    let h' := snd (mission_loop sqrt atmosisa self S_wing_ft2 segs v h) in
    (∀ l, l ∉ segs → h' !! l = h !! l) ∧ same_missions h h'.
Proof.
  induction segs as [|l rest IH]; intros v h; cbv zeta.
  - split; [reflexivity | apply same_missions_refl].
  - destruct (h !! l) as [seg|] eqn:Hl.
    + rewrite (mission_loop_cons self S_wing_ft2 l rest v h seg Hl).
      destruct (segment_result sqrt atmosisa self seg (W_current_lb v) S_wing_ft2)
        as [[[t f] b]|e].
      * match goal with
        | |- context [mission_loop _ _ _ _ rest ?v1 ?h1] =>
            destruct (IH v1 h1) as [Hframe Hsame]
        end.
        split.
        -- intros l' Hl'. apply not_elem_of_cons in Hl' as [Hne Hl'].
           rewrite (Hframe l' Hl'). apply lookup_insert_ne. auto.
        -- eapply same_missions_trans; [|exact Hsame].
           apply same_missions_sym.
           eapply same_missions_insert_l;
             [apply same_missions_refl | exact Hl |].
           apply same_inputs_after.
      * split; [reflexivity | apply same_missions_refl].
    + rewrite (mission_loop_dangling self S_wing_ft2 l rest v h Hl).
      split; [reflexivity | apply same_missions_refl].
Qed.

Lemma simulate_mission_run
    (self : Aircraft.t) (segs : list loc) (TOGW_lb S_wing_ft2 : num) (h : store) :
  simulate_mission sqrt atmosisa self segs TOGW_lb S_wing_ft2 h
  = match mission_loop sqrt atmosisa self S_wing_ft2 segs
            {| W_current_lb := TOGW_lb; acc_fuel_lb := lit 0.0;
               acc_battery_Wh := lit 0.0; acc_time_sec := lit 0.0 |} h with
    | (Ok v, h') =>
        (Ok {| MissionResult.total_fuel_lb := acc_fuel_lb v;
               MissionResult.total_battery_Wh := acc_battery_Wh v;
               MissionResult.total_time_sec := acc_time_sec v;
               MissionResult.segments := segs |}, h')
    | (Raise e, h') => (Raise e, h')
    end.
Proof. reflexivity. Qed.

(** X12: [simulate_mission] changes results only: whether it returns or
    raises, the store holds the same objects afterwards, each with the
    name, the altitudes and the hybridization ratio it had, and an object
    that is not in the list is left exactly as it was. *)
Theorem simulate_mission_writes_results_only
    (self : Aircraft.t) (segs : list loc) (TOGW_lb S_wing_ft2 : num) (h : store) :
  let h' := snd (simulate_mission sqrt atmosisa self segs TOGW_lb S_wing_ft2 h) in
  (∀ l, l ∉ segs → h' !! l = h !! l) ∧
  (∀ l, h !! l = None → h' !! l = None) ∧
  (∀ l seg, h !! l = Some seg →
     ∃ seg', h' !! l = Some seg' ∧ same_inputs seg seg').
Proof.
  cbv zeta. rewrite simulate_mission_run.
  match goal with
  | |- context [mission_loop _ _ _ _ segs ?v0 h] =>
      destruct (mission_loop_writes_results_only self S_wing_ft2 segs v0 h)
        as [Hframe Hsame];
      destruct (mission_loop sqrt atmosisa self S_wing_ft2 segs v0 h)
        as [[v|e] h']
  end; simpl in *.
  all: split; [exact Hframe|]; split;
    [ intros l Hl | intros l seg Hl ];
    specialize (Hsame l); rewrite Hl in Hsame;
    inversion Hsame; subst; eauto.
Qed.

(** The outcome of the loop does not depend on the results that the
    segments hold when it starts. *)
Lemma mission_loop_blind
    (self : Aircraft.t) (S_wing_ft2 : num) (segs : list loc) :
  ∀ (v : locals) (h1 h2 : store),
    same_missions h1 h2 →
    fst (mission_loop sqrt atmosisa self S_wing_ft2 segs v h1)
    = fst (mission_loop sqrt atmosisa self S_wing_ft2 segs v h2).
Proof.
  induction segs as [|l rest IH]; intros v h1 h2 Hsame; [reflexivity|].
  pose proof (Hsame l) as Hl.
  destruct (h1 !! l) as [s1|] eqn:H1, (h2 !! l) as [s2|] eqn:H2';
    inversion Hl as [? ? Hs|]; subst.
  - rewrite (mission_loop_cons self _ l rest v h1 s1 H1),
            (mission_loop_cons self _ l rest v h2 s2 H2').
    rewrite <- (segment_result_inputs self s1 s2 _ _ Hs).
    destruct (segment_result sqrt atmosisa self s1 (W_current_lb v) S_wing_ft2)
      as [[[t f] b]|e]; [|reflexivity].
    apply IH. apply same_missions_insert; [exact Hsame|].
    eapply same_inputs_trans;
      [apply same_inputs_sym, same_inputs_after|].
    eapply same_inputs_trans; [exact Hs | apply same_inputs_after].
  - rewrite (mission_loop_dangling self _ l rest v h1 H1),
            (mission_loop_dangling self _ l rest v h2 H2').
    reflexivity.
Qed.

(** X13: Results of an earlier simulation do not enter a later one: on two
    stores that hold the same segments up to their stored results,
    [simulate_mission] has the same outcome, the same totals or the same
    exception. *)
Theorem simulate_mission_blind_to_stored_results
    (self : Aircraft.t) (segs : list loc) (TOGW_lb S_wing_ft2 : num)
    (h1 h2 : store) :
  same_missions h1 h2 →
  fst (simulate_mission sqrt atmosisa self segs TOGW_lb S_wing_ft2 h1)
  = fst (simulate_mission sqrt atmosisa self segs TOGW_lb S_wing_ft2 h2).
Proof.
  intros Hsame. rewrite !simulate_mission_run.
  match goal with
  | |- context [mission_loop _ _ _ _ segs ?v0 h1] =>
      pose proof (mission_loop_blind self S_wing_ft2 segs v0 h1 h2 Hsame) as E;
      destruct (mission_loop sqrt atmosisa self S_wing_ft2 segs v0 h1)
        as [[v1|e1] h1'];
      destruct (mission_loop sqrt atmosisa self S_wing_ft2 segs v0 h2)
        as [[v2|e2] h2']
  end; simpl in *; congruence.
Qed.

(** Running the loop again on the store it has left changes nothing. *)
Lemma mission_loop_again
    (self : Aircraft.t) (S_wing_ft2 : num) (segs : list loc) :
  ∀ (v v' : locals) (h h' g : store),
    NoDup segs →
    mission_loop sqrt atmosisa self S_wing_ft2 segs v h = (Ok v', h') →
    same_missions h g →
    (∀ l, l ∈ segs → g !! l = h' !! l) →
    mission_loop sqrt atmosisa self S_wing_ft2 segs v g = (Ok v', g).
Proof.
  induction segs as [|l rest IH]; intros v v' h h' g Hnd Hrun Hsame Hg.
  - simpl in *. inversion Hrun; subst. reflexivity.
  - apply NoDup_cons in Hnd as [Hl Hnd].
    destruct (h !! l) as [seg|] eqn:Hseg;
      [| rewrite (mission_loop_dangling self _ l rest v h Hseg) in Hrun;
         discriminate Hrun ].
    rewrite (mission_loop_cons self _ l rest v h seg Hseg) in Hrun.
    destruct (segment_result sqrt atmosisa self seg (W_current_lb v) S_wing_ft2)
      as [[[t f] b]|e] eqn:Hres; [|discriminate Hrun].
    destruct (mission_loop_writes_results_only self S_wing_ft2 rest
                {| W_current_lb := (W_current_lb v - f)%num;
                   acc_fuel_lb := (acc_fuel_lb v + f)%num;
                   acc_battery_Wh := (acc_battery_Wh v + b)%num;
                   acc_time_sec := (acc_time_sec v + t)%num |}
                (<[l := segment_after self seg (t, f, b)]> h))
      as [Hframe _].
    rewrite Hrun in Hframe. simpl in Hframe.
    assert (Hgl : g !! l = Some (segment_after self seg (t, f, b))).
    { rewrite (Hg l) by (apply elem_of_cons; auto).
      rewrite (Hframe l Hl). apply lookup_insert_eq. }
    rewrite (mission_loop_cons self _ l rest v g _ Hgl).
    rewrite <- (segment_result_inputs self seg _ _ _
                  (same_inputs_after self seg (t, f, b))).
    rewrite Hres, segment_after_twice, (insert_id g l _ Hgl).
    eapply IH; [exact Hnd | exact Hrun | |].
    + apply same_missions_insert_l with (s := seg);
        [exact Hsame | exact Hseg | apply same_inputs_after].
    + intros l' Hl'. apply Hg. apply elem_of_cons. auto.
Qed.

(** X14: A mission can be simulated again: on a list of distinct segments,
    a second run of [simulate_mission] from the same weight on the store
    left by a run that returned returns the same totals and leaves every
    object as the first run left it. *)
Theorem simulate_mission_again
    (self : Aircraft.t) (segs : list loc) (TOGW_lb S_wing_ft2 : num)
    (h h' : store) (res : MissionResult.t) :
  NoDup segs →
  simulate_mission sqrt atmosisa self segs TOGW_lb S_wing_ft2 h = (Ok res, h') →
  simulate_mission sqrt atmosisa self segs TOGW_lb S_wing_ft2 h' = (Ok res, h').
Proof.
  intros Hnd. rewrite !simulate_mission_run.
  match goal with
  | |- context [mission_loop _ _ _ _ segs ?v0 h] =>
      pose proof (mission_loop_writes_results_only self S_wing_ft2 segs v0 h)
        as [_ Hsame];
      destruct (mission_loop sqrt atmosisa self S_wing_ft2 segs v0 h)
        as [[v|e] h1] eqn:Hloop
  end; [|discriminate].
  intros Hrun. inversion Hrun; subst. simpl in Hsame.
  rewrite (mission_loop_again self S_wing_ft2 segs _ v h h' h' Hnd Hloop Hsame);
    auto.
Qed.

(** A segment that fails writes nothing. *)
Lemma failed_segment_writes_nothing
    (self : Aircraft.t) (l : loc) (W_lb S_ft2 : num) (h h' : store) (e : exn) :
  simulate_segment sqrt atmosisa self l W_lb S_ft2 h = (Raise e, h') → h' = h.
Proof.
  destruct (h !! l) as [seg|] eqn:Hl.
  - rewrite (simulate_segment_alone self l seg _ _ h Hl).
    destruct (segment_result sqrt atmosisa self seg W_lb S_ft2);
      intros E; inversion E; reflexivity.
  - rewrite (simulate_segment_dangling self l _ _ h Hl).
    intros E; inversion E; reflexivity.
Qed.

(** X15: The mission stops at the first segment that fails: once the
    segments before it have been simulated, the exception of the failing
    segment is the outcome of [simulate_mission], no totals are returned,
    the segments before it keep the results stored on them, and the
    failing segment and those after it are not written. *)
Theorem mission_stops_at_the_failing_segment
    (self : Aircraft.t) (pre post : list loc) (l : loc)
    (TOGW_lb S_wing_ft2 : num) (h h1 h2 : store) (v1 : locals) (e : exn) :
  mission_loop sqrt atmosisa self S_wing_ft2 pre
    {| W_current_lb := TOGW_lb; acc_fuel_lb := lit 0.0;
       acc_battery_Wh := lit 0.0; acc_time_sec := lit 0.0 |} h = (Ok v1, h1) →
  simulate_segment sqrt atmosisa self l (W_current_lb v1) S_wing_ft2 h1
  = (Raise e, h2) →
  h2 = h1 ∧
  simulate_mission sqrt atmosisa self (pre ++ l :: post) TOGW_lb S_wing_ft2 h
  = (Raise e, h1) ∧
  (∀ l', l' ∉ pre → h1 !! l' = h !! l').
Proof.
  intros Hpre Hfail.
  pose proof (failed_segment_writes_nothing self l _ _ h1 h2 e Hfail) as ->.
  split; [reflexivity|]. split.
  - rewrite simulate_mission_run, mission_loop_app, Hpre.
    simpl. unfold mbind, M_bind at 1. rewrite Hfail. reflexivity.
  - destruct (mission_loop_writes_results_only self S_wing_ft2 pre
                {| W_current_lb := TOGW_lb; acc_fuel_lb := lit 0.0;
                   acc_battery_Wh := lit 0.0; acc_time_sec := lit 0.0 |} h)
      as [Hframe _].
    rewrite Hpre in Hframe. exact Hframe.
Qed.

End SegmentRuns.

(** ** Missions of flat segments *)

Lemma Qc_of_nat_S (n : nat) : Qc_of_nat (S n) = Qc_of_nat n + 1.
Proof.
  apply Qc_is_canon. unfold Qc_of_nat, Qcplus, Q2Qc, this.
  rewrite !Qred_correct.
  rewrite Nat2Z.inj_succ. unfold Z.succ. rewrite inject_Z_plus.
  reflexivity.
Qed.

Lemma Qcpower_S (q : Qc) (n : nat) : q ^ S n = q * q ^ n.
Proof. reflexivity. Qed.

Section FlatMissions.

Variable sqrt : Qc → Qc.
Variable atmosisa : num → num * num * num * num.

(** A segment with any name but cruise and climb is not simulated:
    descent has one set of constants, every other name (takeoff, loiter,
    landing, or a name the code does not know) another. *)
Lemma segment_result_flat
    (self : Aircraft.t) (seg : MissionSegment) (W_lb S_ft2 : num) :
  name seg ≠ "cruise" → name seg ≠ "climb" →
  segment_result sqrt atmosisa self seg W_lb S_ft2
  = Ok (if decide (name seg = "descent")
        then (lit 480, (lit 0.02 * W_lb)%num, lit 100)
        else (lit 180, (lit 0.01 * W_lb)%num, lit 200)).
Proof.
  intros Hcr Hcl.
  unfold segment_result, simulate_segment, mbind, M_bind, getattr.
  rewrite lookup_singleton_eq.
  apply String.eqb_neq in Hcr, Hcl. rewrite Hcr, Hcl.
  destruct (decide (name seg = "descent")) as [E|E].
  - rewrite E. reflexivity.
  - apply String.eqb_neq in E. rewrite E. reflexivity.
Qed.

Lemma flat_mission_loop
    (self : Aircraft.t) (S_wing_ft2 : num) (segs : list loc) :
  ∀ (names : list string) (v : locals) (h : store) (w af ab at' : Qc),
    Forall2 (λ l n, ∃ seg, h !! l = Some seg ∧ name seg = n) segs names →
    Forall (λ n, n ≠ "cruise" ∧ n ≠ "climb") names →
    val (W_current_lb v) = Some w →
    val (acc_fuel_lb v) = Some af →
    val (acc_battery_Wh v) = Some ab →
    val (acc_time_sec v) = Some at' →
    let d := length (filter (λ n, n = "descent") names) in
    let s := length (filter (λ n, n ≠ "descent") names) in
    ∃ v' h',
      mission_loop sqrt atmosisa self S_wing_ft2 segs v h = (Ok v', h') ∧
      val (W_current_lb v') = Some (w * (dec 0.98 ^ d * dec 0.99 ^ s)) ∧
      val (acc_fuel_lb v')
        = Some (af + w * (1 - dec 0.98 ^ d * dec 0.99 ^ s)) ∧
      val (acc_battery_Wh v')
        = Some (ab + (dec 100 * Qc_of_nat d + dec 200 * Qc_of_nat s)) ∧
      val (acc_time_sec v')
        = Some (at' + (dec 480 * Qc_of_nat d + dec 180 * Qc_of_nat s)).
Proof.
  assert (E98 : dec 0.98 = 1 - dec 0.02) by qc_eval.
  assert (E99 : dec 0.99 = 1 - dec 0.01) by qc_eval.
  assert (E0 : Qc_of_nat 0 = 0) by qc_eval.
  induction segs as [|l segs IH];
    intros names v h w af ab at' Hnames Hflat HW Hf Hb Ht.
  - inversion Hnames; subst. cbv zeta. simpl length. simpl Qcpower.
    exists v, h. split; [reflexivity|]. rewrite E0.
    repeat split; val_by ltac:(ring).
  - inversion Hnames as [|? n ? names' (seg & Hseg & Hn) Hnames']; subst.
    apply Forall_cons in Hflat as [[Hcr Hcl] Hflat].
    rewrite (mission_loop_cons sqrt atmosisa self _ l segs v h seg Hseg).
    rewrite (segment_result_flat self seg _ _ Hcr Hcl).
    assert (Hnames1 : ∀ r,
              Forall2 (λ l' n, ∃ seg', <[l := segment_after self seg r]> h !! l'
                                       = Some seg' ∧ name seg' = n)
                segs names').
    { intros r. eapply Forall2_impl; [exact Hnames'|].
      intros l' n (seg' & Hseg' & Hn'). simpl in Hseg'.
      destruct (decide (l' = l)) as [->|Hne].
      - rewrite lookup_insert_eq. eexists. split; [reflexivity|].
        rewrite Hseg in Hseg'. inversion Hseg'; subst seg'.
        rewrite <- Hn'. symmetry. apply same_inputs_after.
      - rewrite lookup_insert_ne by auto. eauto. }
    cbv zeta.
    destruct (decide (name seg = "descent")) as [E|E].
    + rewrite (filter_cons_True (λ n, n = "descent") (name seg) _ E).
      rewrite (filter_cons_False (λ n, n ≠ "descent") (name seg) _)
        by (intros N; exact (N E)).
      cbv beta iota.
      match goal with
      | |- context [mission_loop _ _ _ _ segs ?v1 ?h1] =>
          destruct (IH names' v1 h1 (w - dec 0.02 * w) (af + dec 0.02 * w)
                      (ab + dec 100) (at' + dec 480))
            as (v' & h' & Hrun & HW' & Hf' & Hb' & Ht');
            [ apply Hnames1 | exact Hflat
            | simpl; solve [eauto 10 with num] .. | ]
      end.
      exists v', h'. split; [exact Hrun|].
      simpl length. rewrite Qc_of_nat_S, Qcpower_S, E98.
      rewrite E98 in HW', Hf'.
      rewrite HW', Hf', Hb', Ht'.
      repeat split; f_equal; ring.
    + rewrite (filter_cons_False (λ n, n = "descent") (name seg) _ E).
      rewrite (filter_cons_True (λ n, n ≠ "descent") (name seg) _ E).
      cbv beta iota.
      match goal with
      | |- context [mission_loop _ _ _ _ segs ?v1 ?h1] =>
          destruct (IH names' v1 h1 (w - dec 0.01 * w) (af + dec 0.01 * w)
                      (ab + dec 200) (at' + dec 180))
            as (v' & h' & Hrun & HW' & Hf' & Hb' & Ht');
            [ apply Hnames1 | exact Hflat
            | simpl; solve [eauto 10 with num] .. | ]
      end.
      exists v', h'. split; [exact Hrun|].
      simpl length. rewrite Qc_of_nat_S, Qcpower_S, E99.
      rewrite E99 in HW', Hf'.
      rewrite HW', Hf', Hb', Ht'.
      repeat split; f_equal; ring.
Qed.

(** X16: A mission without cruise and climb segments cannot fail and its
    totals have a closed form.  Every segment named descent burns 2% of
    the weight that is left, takes 480 s and 100 Wh; every segment with
    another name, known to the code or not, burns 1%, takes 180 s and
    200 Wh.  With d descents and s other segments, in any order and with
    objects listed more than once, the fuel is TOGW * (1 - 0.98^d * 0.99^s),
    the time 480*d + 180*s and the battery energy 100*d + 200*s. *)
Theorem flat_mission_in_closed_form
    (self : Aircraft.t) (segs : list loc) (names : list string)
    (TOGW_lb S_wing_ft2 : num) (h : store) (w : Qc) :
  Forall2 (λ l n, ∃ seg, h !! l = Some seg ∧ name seg = n) segs names →
  Forall (λ n, n ≠ "cruise" ∧ n ≠ "climb") names →
  val TOGW_lb = Some w →
  let d := length (filter (λ n, n = "descent") names) in
  let s := length (filter (λ n, n ≠ "descent") names) in
  ∃ res h',
    simulate_mission sqrt atmosisa self segs TOGW_lb S_wing_ft2 h = (Ok res, h') ∧
    MissionResult.segments res = segs ∧
    val (MissionResult.total_fuel_lb res)
      = Some (w * (1 - dec 0.98 ^ d * dec 0.99 ^ s)) ∧
    val (MissionResult.total_time_sec res)
      = Some (dec 480 * Qc_of_nat d + dec 180 * Qc_of_nat s) ∧
    val (MissionResult.total_battery_Wh res)
      = Some (dec 100 * Qc_of_nat d + dec 200 * Qc_of_nat s).
Proof.
  intros Hnames Hflat HW d s.
  destruct (flat_mission_loop self S_wing_ft2 segs names
              {| W_current_lb := TOGW_lb; acc_fuel_lb := lit 0.0;
                 acc_battery_Wh := lit 0.0; acc_time_sec := lit 0.0 |}
              h w (dec 0.0) (dec 0.0) (dec 0.0) Hnames Hflat HW
              eq_refl eq_refl eq_refl)
    as (v' & h' & Hrun & _ & Hf & Hb & Ht).
  rewrite simulate_mission_run, Hrun.
  do 2 eexists. split; [reflexivity|]. split; [reflexivity|].
  cbn [MissionResult.total_fuel_lb MissionResult.total_time_sec
       MissionResult.total_battery_Wh].
  fold d s in Hf, Hb, Ht. rewrite Hf, Hb, Ht, dec_zero.
  repeat split; f_equal; ring.
Qed.

End FlatMissions.

(** ** Degenerate segments *)

Lemma ndiv_PyF (x y : Qc) : y ≠ 0 → PyF x /? PyF y = Ok (PyF (x / y)).
Proof.
  intros Hy. unfold ndiv.
  destruct (decide (y = 0)); [contradiction | reflexivity].
Qed.

Section DegenerateSegments.

Variable sqrt : Qc → Qc.
Variable atmosisa : num → num * num * num * num.

(** X17: The 600-second default of the climb covers a rate of climb that is
    not positive, and nothing else: a climb segment whose end altitude is
    below its start altitude, flown at a positive rate of climb, returns
    a negative duration. *)
Theorem climb_downhill_takes_negative_time
    (self : Aircraft.t) (segment : loc) (seg : MissionSegment)
    (W_lb S_ft2 : num) (h : store) (w s a0 a1 hp : Qc) :
  h !! segment = Some seg →
  val W_lb = Some w → val S_ft2 = Some s →
  val (altitude_start_ft seg) = Some a0 →
  val (altitude_end_ft seg) = Some a1 →
  val (Hp seg) = Some hp →
  s ≠ 0 → Aircraft.CLmax_clean self ≠ 0 →
  prop_efficiency (Aircraft.tech self) ≠ 0 →
  EM_efficiency (tech (Aircraft.powertrain self)) ≠ 0 →
  GEN_efficiency (tech (Aircraft.powertrain self)) ≠ 0 →
  let W_avg := w * dec 0.99 in
  let x := dec 2 * W_avg / (dec 0.002377 * s * Aircraft.CLmax_clean self) in
  let V_climb := dec 1.3 * sqrt x in
  let ROC := V_climb * dec 0.05 in
  let CL := W_avg / (dec 0.5 * dec 0.002377 * (V_climb * V_climb) * s) in
  let CD := Aircraft.CD0 self + Aircraft.K1 self * (CL * CL) in
  ¬ (x < 0) → 0 < ROC → w ≠ 0 → CD ≠ 0 →
  a1 < a0 →
  ∃ t f b τ,
    simulate_climb_segment sqrt self segment W_lb S_ft2 h = (Ok (t, f, b), h) ∧
    val t = Some τ ∧ τ < 0.
Proof.
  intros Hseg HW HS Ha0 Ha1 HHp Hs HCL Hprop Hem Hgen
         W_avg x V_climb ROC CL CD Hx HROC Hw HCD Hdown.
  destruct (climb_returns_regular sqrt self segment seg W_lb S_ft2 h
              w s a0 a1 hp Hseg HW HS Ha0 Ha1 HHp Hs HCL Hprop Hem Hgen
              Hx HROC Hw HCD) as (t & f & b & Hrun & Ht).
  exists t, f, b. eexists. split; [exact Hrun|]. split; [exact Ht|].
  apply Qcdiv_neg_pos; [|exact HROC].
  apply Qclt_minus_iff.
  replace (0 + - (a1 - a0)) with (a0 + - a1) by ring.
  apply Qclt_minus_iff in Hdown. exact Hdown.
Qed.

(** X18: With Python floats for the weight, the wing area and the density,
    degenerate data are not caught but raise ZeroDivisionError, and the
    segment is not written: a cruise at a zero cruise speed or on a zero
    wing area, and a climb on a zero wing area or with a zero maximum
    lift coefficient. *)
Theorem zero_speed_or_area_raises
    (self : Aircraft.t) (l : loc) (seg : MissionSegment)
    (w s r : Qc) (T p a : num) (h : store) :
  h !! l = Some seg →
  atmosisa (altitude_start_ft seg * lit 0.3048)%num = (T, p, PyF r, a) →
  (Aircraft.cruise_speed_kts self = 0 ∨ s = 0 →
   simulate_cruise_segment atmosisa self l (PyF w) (PyF s) h
   = (Raise ZeroDivisionError, h)) ∧
  (s = 0 ∨ Aircraft.CLmax_clean self = 0 →
   simulate_climb_segment sqrt self l (PyF w) (PyF s) h
   = (Raise ZeroDivisionError, h)).
Proof.
  intros Hseg Hatm. split; intros Hzero.
  - unfold simulate_cruise_segment.
    unfold mbind, M_bind, mret, M_ret, lift, getattr, setattr.
    rewrite Hseg, Hatm. cbv beta iota.
    unfold nmul, nadd, arith, lit.
    rewrite ndiv_PyF by nonzero. cbv beta iota.
    match goal with
    | |- context [PyF w /? PyF ?d] =>
        replace d with 0 by (destruct Hzero as [-> | ->]; ring)
    end.
    rewrite ndiv_PyF_zero. reflexivity.
  - unfold simulate_climb_segment.
    unfold mbind, M_bind, mret, M_ret, lift, getattr, setattr.
    unfold nmul, nadd, arith, lit.
    match goal with
    | |- context [PyF ?n /? PyF ?d] =>
        replace d with 0 by (destruct Hzero as [-> | ->]; ring)
    end.
    rewrite ndiv_PyF_zero. reflexivity.
Qed.

End DegenerateSegments.

(** ** The mission profile, again *)

(** What [create_mission] does: six new objects at six distinct
    references that were free. *)
Lemma create_mission_run
    (self : Aircraft.t) (hybridization_profile : gmap string num) (h : store) :
  let get k := default (lit 0.0) (hybridization_profile !! k) in
  ∃ l1 l2 l3 l4 l5 l6,
    NoDup [l1; l2; l3; l4; l5; l6] ∧
    Forall (λ l, h !! l = None) [l1; l2; l3; l4; l5; l6] ∧
    create_mission self hybridization_profile h
    = (Ok [l1; l2; l3; l4; l5; l6],
       <[l6 := MissionSegment_init "landing" (lit 450) (lit 0) (get "landing")]>
      (<[l5 := MissionSegment_init "loiter" (lit 450) (lit 450) (get "loiter")]>
      (<[l4 := MissionSegment_init "descent" (Aircraft.cruise_alt_ft self)
               (lit 450) (get "descent")]>
      (<[l3 := MissionSegment_init "cruise" (Aircraft.cruise_alt_ft self)
               (Aircraft.cruise_alt_ft self) (get "cruise")]>
      (<[l2 := MissionSegment_init "climb" (lit 35)
               (Aircraft.cruise_alt_ft self) (get "climb")]>
      (<[l1 := MissionSegment_init "takeoff" (lit 0) (lit 35) (get "takeoff")]>
         h)))))).
Proof.
  cbv beta zeta iota delta [create_mission mbind M_bind mret M_ret new].
  set (s1 := MissionSegment_init "takeoff" _ _ _).
  set (s2 := MissionSegment_init "climb" _ _ _).
  set (s3 := MissionSegment_init "cruise" _ _ _).
  set (s4 := MissionSegment_init "descent" _ _ _).
  set (s5 := MissionSegment_init "loiter" _ _ _).
  set (s6 := MissionSegment_init "landing" _ _ _).
  set (l1 := fresh (dom h)). set (h1 := <[l1:=s1]> h).
  set (l2 := fresh (dom h1)). set (h2 := <[l2:=s2]> h1).
  set (l3 := fresh (dom h2)). set (h3 := <[l3:=s3]> h2).
  set (l4 := fresh (dom h3)). set (h4 := <[l4:=s4]> h3).
  set (l5 := fresh (dom h4)). set (h5 := <[l5:=s5]> h4).
  set (l6 := fresh (dom h5)).
  assert (F1 : h !! l1 = None) by (apply not_elem_of_dom, is_fresh).
  assert (F2 : h1 !! l2 = None) by (apply not_elem_of_dom, is_fresh).
  assert (F3 : h2 !! l3 = None) by (apply not_elem_of_dom, is_fresh).
  assert (F4 : h3 !! l4 = None) by (apply not_elem_of_dom, is_fresh).
  assert (F5 : h4 !! l5 = None) by (apply not_elem_of_dom, is_fresh).
  assert (F6 : h5 !! l6 = None) by (apply not_elem_of_dom, is_fresh).
  clearbody l1 l2 l3 l4 l5 l6. subst h1 h2 h3 h4 h5.
  repeat match goal with
         | H : <[_:=_]> _ !! _ = None |- _ =>
             let N := fresh "N" in
             apply lookup_insert_None in H; destruct H as [H N]
         end.
  exists l1, l2, l3, l4, l5, l6. split; [|split; [|reflexivity]].
  - repeat (apply NoDup_cons_2;
              [ rewrite ?not_elem_of_cons; repeat split; auto;
                apply not_elem_of_nil | ]).
    apply NoDup_nil_2.
  - repeat (apply Forall_cons; split; [assumption|]). apply Forall_nil_2.
Qed.

Lemma attrs_of_six (f : MissionSegment → num) (h : store)
    (l1 l2 l3 l4 l5 l6 : loc) (s1 s2 s3 s4 s5 s6 : MissionSegment) :
  NoDup [l1; l2; l3; l4; l5; l6] →
  attrs f
    (<[l6 := s6]> (<[l5 := s5]> (<[l4 := s4]> (<[l3 := s3]>
       (<[l2 := s2]> (<[l1 := s1]> h))))))
    [l1; l2; l3; l4; l5; l6]
  = [f s1; f s2; f s3; f s4; f s5; f s6].
Proof.
  intros Hnd.
  repeat match type of Hnd with
         | NoDup (_ :: _) =>
             let N := fresh "N" in apply NoDup_cons in Hnd as [N Hnd]
         end.
  rewrite ?not_elem_of_cons in *.
  repeat match goal with H : _ ∧ _ |- _ => destruct H end.
  repeat (erewrite attrs_cons;
          [ | repeat first [ apply lookup_insert_eq
                           | rewrite lookup_insert_ne by congruence ] ]).
  reflexivity.
Qed.

(** X19: The altitudes of the mission that [create_mission] builds are
    contiguous: every segment starts at the altitude at which the one
    before it ends, the first starts and the last ends on the ground, and
    no segment carries a result yet. *)
Theorem create_mission_altitudes_are_contiguous
    (self : Aircraft.t) (hybridization_profile : gmap string num) (h : store) :
  ∃ (ls : list loc) (h' : store),
    create_mission self hybridization_profile h = (Ok ls, h') ∧
    length (attrs altitude_start_ft h' ls) = 6%nat ∧
    length (attrs altitude_end_ft h' ls) = 6%nat ∧
    drop 1 (attrs altitude_start_ft h' ls)
    = take 5 (attrs altitude_end_ft h' ls) ∧
    head (attrs altitude_start_ft h' ls) = Some (lit 0) ∧
    last (attrs altitude_end_ft h' ls) = Some (lit 0) ∧
    attrs time_sec h' ls = replicate 6 (lit 0.0) ∧
    attrs fuel_lb h' ls = replicate 6 (lit 0.0) ∧
    attrs battery_Wh h' ls = replicate 6 (lit 0.0) ∧
    attrs distance_nm h' ls = replicate 6 (lit 0.0).
Proof.
  destruct (create_mission_run self hybridization_profile h)
    as (l1 & l2 & l3 & l4 & l5 & l6 & Hnd & _ & Hrun).
  do 2 eexists. split; [exact Hrun|].
  rewrite !(attrs_of_six _ h l1 l2 l3 l4 l5 l6 _ _ _ _ _ _ Hnd).
  repeat split.
Qed.

(** X20: Only the six segment names are looked up in the hybridization
    profile: two profiles that agree on them give the same mission, so an
    entry under any other key, a misspelt name for one, is ignored
    without an error. *)
Theorem create_mission_ignores_other_keys
    (self : Aircraft.t) (p1 p2 : gmap string num) (h : store) :
  (∀ n, n ∈ segment_names → p1 !! n = p2 !! n) →
  create_mission self p1 h = create_mission self p2 h.
Proof.
  intros Hagree. unfold create_mission.
  rewrite !(Hagree "takeoff"), !(Hagree "climb"), !(Hagree "cruise"),
    !(Hagree "descent"), !(Hagree "loiter"), !(Hagree "landing");
    first [ reflexivity | unfold segment_names; set_solver ].
Qed.

Lemma create_mission_ignores_other_keys_witness :
  create_mission aircraft_ex (<["crusie" := lit 0.5]> ∅) ∅
  = create_mission aircraft_ex ∅ ∅.
Proof.
  apply (create_mission_ignores_other_keys aircraft_ex
           (<["crusie" := lit 0.5]> ∅) ∅ ∅).
  intros n Hn. apply lookup_insert_ne.
  intros <-. revert Hn. unfold segment_names.
  rewrite !elem_of_cons, elem_of_nil. intros H.
  repeat destruct H as [H|H]; discriminate || exact H.
Defined.

Section CreatedMissions.

Variable sqrt : Qc → Qc.
Variable atmosisa : num → num * num * num * num.

(** X21: The mission that [create_mission] builds can be given to
    [simulate_mission] as it is: its six segments are distinct objects,
    so when the simulation returns, every total is the sum of the values
    stored on the six returned segments, and the objects that the store
    held before the mission was created are left as they were. *)
Theorem created_mission_has_consistent_totals
    (self : Aircraft.t) (hybridization_profile : gmap string num)
    (TOGW_lb S_wing_ft2 : num) (h h0 h' : store) (segs : list loc)
    (res : MissionResult.t) :
  create_mission self hybridization_profile h = (Ok segs, h0) →
  simulate_mission sqrt atmosisa self segs TOGW_lb S_wing_ft2 h0 = (Ok res, h') →
  MissionResult.segments res = segs ∧
  length (attrs fuel_lb h' segs) = 6%nat ∧
  MissionResult.total_fuel_lb res = total (attrs fuel_lb h' segs) ∧
  MissionResult.total_battery_Wh res = total (attrs battery_Wh h' segs) ∧
  MissionResult.total_time_sec res = total (attrs time_sec h' segs) ∧
  (∀ l seg, h !! l = Some seg → h' !! l = Some seg).
Proof.
  intros Hcreate Hrun.
  destruct (create_mission_run self hybridization_profile h)
    as (l1 & l2 & l3 & l4 & l5 & l6 & Hnd & Hfresh & Hc).
  rewrite Hc in Hcreate. inversion Hcreate; subst segs h0. clear Hcreate.
  rewrite simulate_mission_run in Hrun.
  match type of Hrun with
  | context [mission_loop _ _ _ _ ?ls ?v0 ?h0] =>
      destruct (mission_loop sqrt atmosisa self S_wing_ft2 ls v0 h0)
        as [[v|e] h1] eqn:Hloop; [|discriminate Hrun]
  end.
  inversion Hrun; subst res h1. clear Hrun. simpl.
  apply mission_loop_spec in Hloop
    as (Hframe & Hlen & Hf & Hb & Ht & _ & _); [|exact Hnd].
  split; [reflexivity|]. split; [exact Hlen|].
  split; [exact Hf|]. split; [exact Hb|]. split; [exact Ht|].
  intros l seg Hl.
  assert (Hout : l ∉ [l1; l2; l3; l4; l5; l6]).
  { intros Hin. rewrite Forall_forall in Hfresh.
    rewrite (Hfresh l Hin) in Hl. discriminate Hl. }
  rewrite (Hframe l Hout).
  rewrite !not_elem_of_cons in Hout.
  destruct Hout as (? & ? & ? & ? & ? & ? & _).
  rewrite !lookup_insert_ne by congruence. exact Hl.
Qed.

End CreatedMissions.

(** ** Further examples *)

Lemma flat_mission_in_closed_form_witness :
  ∃ res h',
    simulate_mission sqrt_floor atmosisa_ex aircraft_ex
      [7%positive; 1%positive; 4%positive; 5%positive; 1%positive]
      (lit 10000) (lit 200) store_taxi_ex = (Ok res, h') ∧
    MissionResult.segments res
      = [7%positive; 1%positive; 4%positive; 5%positive; 1%positive] ∧
    val (MissionResult.total_fuel_lb res)
      = Some (dec 10000 * (1 - dec 0.98 ^ 1 * dec 0.99 ^ 4)) ∧
    val (MissionResult.total_time_sec res)
      = Some (dec 480 * Qc_of_nat 1 + dec 180 * Qc_of_nat 4) ∧
    val (MissionResult.total_battery_Wh res)
      = Some (dec 100 * Qc_of_nat 1 + dec 200 * Qc_of_nat 4).
Proof.
  apply (flat_mission_in_closed_form sqrt_floor atmosisa_ex aircraft_ex
           [7%positive; 1%positive; 4%positive; 5%positive; 1%positive]
           ["taxi"; "takeoff"; "descent"; "loiter"; "takeoff"]
           (lit 10000) (lit 200) store_taxi_ex (dec 10000)).
  - repeat constructor; eexists; split; reflexivity.
  - repeat constructor; discriminate.
  - reflexivity.
Defined.

Lemma simulate_mission_blind_to_stored_results_witness :
  fst (simulate_mission sqrt_floor atmosisa_ex aircraft_ex
         [1%positive; 2%positive; 3%positive; 4%positive; 5%positive; 6%positive]
         (lit 8000) (lit 200) store_ex)
  = fst (simulate_mission sqrt_floor atmosisa_ex aircraft_ex
           [1%positive; 2%positive; 3%positive; 4%positive; 5%positive; 6%positive]
           (lit 8000) (lit 200)
           (<[3%positive := set_fuel_lb (lit 77) cruise_ex]> store_ex)).
Proof.
  apply (simulate_mission_blind_to_stored_results sqrt_floor atmosisa_ex
           aircraft_ex).
  apply same_missions_sym.
  apply (same_missions_insert_l store_ex store_ex 3%positive cruise_ex);
    [ apply same_missions_refl | reflexivity | repeat split ].
Defined.

Lemma simulate_mission_again_witness :
  ∃ res h',
    simulate_mission sqrt_floor atmosisa_ex aircraft_ex
      [1%positive; 2%positive; 3%positive; 4%positive; 5%positive; 6%positive]
      (lit 8000) (lit 200) store_ex = (Ok res, h') ∧
    simulate_mission sqrt_floor atmosisa_ex aircraft_ex
      [1%positive; 2%positive; 3%positive; 4%positive; 5%positive; 6%positive]
      (lit 8000) (lit 200) h' = (Ok res, h').
Proof.
  assert (Hnd : NoDup [1%positive; 2%positive; 3%positive;
                       4%positive; 5%positive; 6%positive]) by compute_done.
  destruct (simulate_mission sqrt_floor atmosisa_ex aircraft_ex
              [1%positive; 2%positive; 3%positive;
               4%positive; 5%positive; 6%positive]
              (lit 8000) (lit 200) store_ex) as [[res|e] h'] eqn:Hrun.
  - exists res, h'. split; [reflexivity|].
    apply (simulate_mission_again sqrt_floor atmosisa_ex aircraft_ex
             [1%positive; 2%positive; 3%positive;
              4%positive; 5%positive; 6%positive]
             (lit 8000) (lit 200) store_ex h' res Hnd Hrun).
  - exfalso. vm_compute in Hrun. discriminate Hrun.
Defined.

Lemma mission_stops_at_the_failing_segment_witness :
  simulate_mission sqrt_floor atmosisa_ex aircraft_grounded
    ([1%positive] ++ 3%positive :: [4%positive]) (lit 8000) (lit 200) store_ex
  = (Raise ZeroDivisionError,
     <[1%positive := segment_after aircraft_grounded takeoff_ex
                       (lit 180, (lit 0.01 * lit 8000)%num, lit 200)]> store_ex).
Proof.
  refine (proj1 (proj2 (mission_stops_at_the_failing_segment
                          sqrt_floor atmosisa_ex aircraft_grounded
                          [1%positive] [4%positive] 3%positive
                          (lit 8000) (lit 200) store_ex _ _
                          {| W_current_lb := (lit 8000 - lit 0.01 * lit 8000)%num;
                             acc_fuel_lb := (lit 0.0 + lit 0.01 * lit 8000)%num;
                             acc_battery_Wh := (lit 0.0 + lit 200)%num;
                             acc_time_sec := (lit 0.0 + lit 180)%num |}
                          ZeroDivisionError _ _))).
  - vm_compute. reflexivity.
  - vm_compute. reflexivity.
Defined.

Lemma climb_downhill_takes_negative_time_witness :
  ∃ t f b τ,
    simulate_climb_segment sqrt_floor aircraft_ex 6%positive
      (lit 8000) (lit 200) store_ex = (Ok (t, f, b), store_ex) ∧
    val t = Some τ ∧ τ < 0.
Proof.
  apply (climb_downhill_takes_negative_time sqrt_floor aircraft_ex 6%positive
           landing_ex (lit 8000) (lit 200) store_ex
           (dec 8000) (dec 200) (dec 450) (dec 0) (dec 0.25));
    first [ reflexivity | apply Q2Qc_nonzero; reflexivity
          | qc_not_lt | qc_lt | qc_neq ].
Defined.

Lemma zero_speed_or_area_raises_witness :
  simulate_cruise_segment atmosisa_ex aircraft_grounded 3%positive
    (PyF (dec 8000)) (PyF (dec 200)) store_ex
  = (Raise ZeroDivisionError, store_ex).
Proof.
  apply (proj1 (zero_speed_or_area_raises sqrt_floor atmosisa_ex
                  aircraft_grounded 3%positive cruise_ex
                  (dec 8000) (dec 200) (dec 1.225)
                  (lit 288.15) (lit 101325) (lit 340.3) store_ex
                  eq_refl eq_refl)).
  left. reflexivity.
Defined.

Lemma created_mission_has_consistent_totals_witness :
  ∃ segs h0 res h',
    create_mission aircraft_ex {[ "cruise" := lit 0.25 ]} ∅ = (Ok segs, h0) ∧
    simulate_mission sqrt_floor atmosisa_ex aircraft_ex segs
      (lit 8000) (lit 200) h0 = (Ok res, h') ∧
    MissionResult.total_fuel_lb res = total (attrs fuel_lb h' segs) ∧
    length (attrs fuel_lb h' segs) = 6%nat.
Proof.
  exists [1%positive; 2%positive; 3%positive; 4%positive; 5%positive; 6%positive].
  exists (snd (create_mission aircraft_ex {[ "cruise" := lit 0.25 ]} ∅)).
  assert (Hc : create_mission aircraft_ex {[ "cruise" := lit 0.25 ]} ∅
               = (Ok [1%positive; 2%positive; 3%positive;
                      4%positive; 5%positive; 6%positive],
                  snd (create_mission aircraft_ex {[ "cruise" := lit 0.25 ]} ∅)))
    by (vm_compute; reflexivity).
  destruct (simulate_mission sqrt_floor atmosisa_ex aircraft_ex
              [1%positive; 2%positive; 3%positive;
               4%positive; 5%positive; 6%positive]
              (lit 8000) (lit 200)
              (snd (create_mission aircraft_ex {[ "cruise" := lit 0.25 ]} ∅)))
    as [[res|e] h'] eqn:Hrun.
  - exists res, h'. split; [exact Hc|]. split; [reflexivity|].
    destruct (created_mission_has_consistent_totals sqrt_floor atmosisa_ex
                aircraft_ex {[ "cruise" := lit 0.25 ]} (lit 8000) (lit 200)
                ∅ _ h' _ res Hc Hrun) as (_ & Hlen & Hf & _).
    split; [exact Hf | exact Hlen].
  - exfalso. vm_compute in Hrun. discriminate Hrun.
Defined.
